(** * TextToTopics: a shallow embedding of the topic-extraction engine

    The development follows [TextToTopics.py].  Python strings are modelled
    as [string]: sequences of characters with code points 0 to 255 (the
    Latin-1 part of Unicode, which holds ASCII), so that the whitespace and
    the capital letters beyond ASCII that this range holds are those of
    Python.  Text with characters above U+00FF is outside the model.
    Python integers are modelled as [Z], the floating-point quantities of
    the PMI scorer as exact real numbers [R] (and a second time as floats,
    in [Float64], for what rounding does to them), Python exceptions as an
    error monad, and the insertion-ordered [collections.Counter] as an
    association list.  The two NLTK capabilities the class consumes
    ([nltk.pos_tag] and [WordNetLemmatizer.lemmatize]) are parameters of the
    model. *)

From Stdlib Require Import List String Ascii ZArith Bool Arith Lia.
From Stdlib Require Import Permutation Sorted Reals Lra.
Import ListNotations.

Open Scope string_scope.
Open Scope list_scope.

(** ** Exceptions *)

Inductive exn : Type :=
| IndexError
| ZeroDivisionError
| ValueError (msg : string).

Inductive result (A : Type) : Type :=
| Ok (a : A)
| Raise (e : exn).

Arguments Ok {A} a.
Arguments Raise {A} e.

Definition bind {A B : Type} (m : result A) (k : A -> result B) : result B :=
  match m with
  | Ok a => k a
  | Raise e => Raise e
  end.

Notation "x <- m ;; k" := (bind m (fun x => k))
  (at level 61, m at next level, right associativity).

Fixpoint mapM {A B : Type} (f : A -> result B) (l : list A) : result (list B) :=
  match l with
  | [] => Ok []
  | a :: l' => b <- f a ;; bs <- mapM f l' ;; Ok (b :: bs)
  end.

(** ** Python built-ins used by the class *)

Module Py.

(** [str.isspace], which is also the class [\s] of [re] and what
    [str.split()] and [str.strip()] take for whitespace: TAB, LF, VT, FF, CR,
    FS, GS, RS, US and SPACE, and beyond ASCII the next-line character
    U+0085 and the no-break space U+00A0. *)
Definition is_space (c : ascii) : bool :=
  let k := nat_of_ascii c in
  (((9 <=? k) && (k <=? 13)) || ((28 <=? k) && (k <=? 32))
   || (k =? 133) || (k =? 160))%nat.

(** The class [[A-Z]] of [re]. *)
Definition is_upper (c : ascii) : bool :=
  let k := nat_of_ascii c in ((65 <=? k) && (k <=? 90))%nat.

(** The capital letters beyond ASCII: U+00C0 to U+00DE without the
    multiplication sign U+00D7.  As for A to Z, the small letter is 32 code
    points up. *)
Definition is_upper_latin1 (c : ascii) : bool :=
  let k := nat_of_ascii c in
  (((192 <=? k) && (k <=? 214)) || ((216 <=? k) && (k <=? 222)))%nat.

Definition lower_char (c : ascii) : ascii :=
  if is_upper c || is_upper_latin1 c
  then ascii_of_nat (nat_of_ascii c + 32) else c.

(** [s.lower()] *)
Fixpoint lower (s : string) : string :=
  match s with
  | EmptyString => EmptyString
  | String c s' => String (lower_char c) (lower s')
  end.

(** Puts a character in front of the first word of a list of words. *)
Definition cons_head (c : ascii) (ws : list string) : list string :=
  match ws with
  | w :: ws' => String c w :: ws'
  | [] => [String c EmptyString]
  end.

(** [s.split()]: the maximal runs of non-whitespace characters. *)
Fixpoint split (s : string) : list string :=
  match s with
  | EmptyString => []
  | String c s' =>
      if is_space c then split s'
      else match s' with
           | EmptyString => [String c EmptyString]
           | String c' _ =>
               if is_space c' then String c EmptyString :: split s'
               else cons_head c (split s')
           end
  end.

(** [s.split(sep)] for a one-character separator: empty pieces are kept. *)
Fixpoint split_on (sep : ascii) (s : string) : list string :=
  match s with
  | EmptyString => [EmptyString]
  | String c s' =>
      if Ascii.eqb c sep then EmptyString :: split_on sep s'
      else cons_head c (split_on sep s')
  end.

(** [sep.join(l)] *)
Definition join (sep : string) (l : list string) : string :=
  String.concat sep l.

(** [s.replace(a, b)]: every non-overlapping occurrence of [a], scanning from
    the left.  [skip] counts the characters of an occurrence still to be
    dropped. *)
Fixpoint replace_from (a b : string) (skip : nat) (s : string) : string :=
  match s with
  | EmptyString => EmptyString
  | String c s' =>
      match skip with
      | S k => replace_from a b k s'
      | O =>
          if String.prefix a s
          then (b ++ replace_from a b (String.length a - 1) s')%string
          else String c (replace_from a b 0 s')
      end
  end.

Definition replace (s a b : string) : string :=
  match a with
  | EmptyString =>
      (* Python puts [b] before every character and at the end *)
      (fix go (s : string) : string :=
         match s with
         | EmptyString => b
         | String c s' => (b ++ String c (go s'))%string
         end) s
  | _ => replace_from a b 0 s
  end.

(** [range(k)] *)
Definition range (k : Z) : list Z :=
  map Z.of_nat (seq 0 (Z.to_nat k)).

(** A slice bound as Python clamps it for a list of length [len]. *)
Definition clamp (len i : Z) : Z :=
  if (i <? 0)%Z then Z.max (i + len) 0 else Z.min i len.

(** [l[start:stop]] *)
Definition slice {A : Type} (l : list A) (start stop : Z) : list A :=
  let len := Z.of_nat (List.length l) in
  let lo := clamp len start in
  let hi := clamp len stop in
  firstn (Z.to_nat (hi - lo)) (skipn (Z.to_nat lo) l).

(** [l[i]] for a non-negative index. *)
Definition index {A : Type} (l : list A) (i : nat) : result A :=
  match nth_error l i with
  | Some a => Ok a
  | None => Raise IndexError
  end.

End Py.

(** ** Regular expressions of the normalizer *)

Module Re.

(** Characters that cannot be written inside a string literal here. *)
Definition dquote : ascii := ascii_of_nat 34.
Definition backslash : ascii := ascii_of_nat 92.

(** The longest prefix matched by [(?:[A-Z]\.)*]. *)
Fixpoint acronym_prefix (s : string) : string :=
  match s with
  | String c (String d s') =>
      if Py.is_upper c && Ascii.eqb d "."
      then String c (String d (acronym_prefix s'))
      else EmptyString
  | _ => EmptyString
  end.

(** [re.findall(r'(?:[A-Z]\.)+', s)]: the greedy matches, left to right,
    without overlap.  [skip] counts the characters of the last match still
    to be passed. *)
Fixpoint findall_acronyms_from (skip : nat) (s : string) : list string :=
  match s with
  | EmptyString => []
  | String _ s' =>
      match skip with
      | S k => findall_acronyms_from k s'
      | O =>
          match acronym_prefix s with
          | EmptyString => findall_acronyms_from 0 s'
          | m => m :: findall_acronyms_from (String.length m - 1) s'
          end
      end
  end.

Definition findall_acronyms (s : string) : list string :=
  findall_acronyms_from 0 s.

(** [re.sub('[cls]+', ' ', s)]: every maximal run of characters of the class
    becomes one space.  [inrun] tells that the previous character was in the
    class. *)
Fixpoint sub_runs (cls : ascii -> bool) (inrun : bool) (s : string) : string :=
  match s with
  | EmptyString => EmptyString
  | String c s' =>
      if cls c
      then (if inrun then sub_runs cls true s'
            else String " " (sub_runs cls true s'))
      else String c (sub_runs cls false s')
  end.

Definition sub_plus (cls : ascii -> bool) (s : string) : string :=
  sub_runs cls false s.

Definition in_range (lo hi c : ascii) : bool :=
  ((nat_of_ascii lo <=? nat_of_ascii c)
   && (nat_of_ascii c <=? nat_of_ascii hi))%nat.

Definition one_of (cs : list ascii) (c : ascii) : bool :=
  existsb (Ascii.eqb c) cs.

(** The character class of [_handle_punctuation], item by item as the
    pattern lists them (the double quote is [dquote], the backslash is
    [backslash]); the three characters [+-=] are read by [re] as the range
    from [+] to [=]. *)
Definition punctuation_class (c : ascii) : bool :=
  one_of ["!"; "@"; "#"; "$"; "%"; "*"; "("; ")"; "_"]%char c
  || in_range "+" "=" c
  || one_of ["["; "]"; "{"; "}"; "|"; backslash; ":"; ";"; dquote; ",";
             "<"; ">"; "."; "|"; dquote]%char c.

End Re.

(** ** The class [TextToTopics] *)

Section TextToTopics.

(** [pos_tag t] is the tag string [nltk.pos_tag([t])[0][1]]. *)
Variable pos_tag : string -> string.

(** [lemmatize w p] is [WordNetLemmatizer().lemmatize(w, p)]. *)
Variable lemmatize : string -> string -> string.

(** [self._content] *)
Variable _content : list string.

(** [tag[0]] *)
Definition first_char (tag : string) : result ascii :=
  match tag with
  | EmptyString => Raise IndexError
  | String c _ => Ok c
  end.

Definition _get_pos (token : string) : result string :=
  c <- first_char (pos_tag token) ;;
  Ok (if Ascii.eqb c "N" then "n"
      else if Ascii.eqb c "V" then "v"
      else if Ascii.eqb c "R" then "r"
      else if Ascii.eqb c "J" then "a"
      else if Ascii.eqb c "S" then "s"
      else "n").

(** [lmtzr.lemmatize(c.lower(), self._get_pos(c))] *)
Definition lemma_of (c : string) : result string :=
  p <- _get_pos c ;; Ok (lemmatize (Py.lower c) p).

Definition lemmatize_sentence (content : string) : result string :=
  ws <- mapM lemma_of (Py.split content) ;;
  Ok (Py.join " " ws).

Definition _lemmatize_content : result (list string) :=
  mapM lemmatize_sentence _content.

Definition _handle_period (sentence : string) : string :=
  fold_left
    (fun sentence a => Py.replace sentence a (Py.replace a "." EmptyString))
    (Re.findall_acronyms sentence) sentence.

Definition _handle_punctuation (sentence : string) : string :=
  let sentence := Re.sub_plus Re.punctuation_class sentence in
  Re.sub_plus (Ascii.eqb " ") sentence.

(** [tag.startswith(('N','V','R','J','S'))] *)
Definition startswith_any (tag : string) (cs : list ascii) : bool :=
  match tag with
  | EmptyString => false
  | String c _ => Re.one_of cs c
  end.

(** The tokens kept from one sentence fragment. *)
Definition fragment_tokens (sub : string) : list string :=
  filter (fun t => startswith_any (pos_tag t) ["N"; "V"; "R"; "J"; "S"]%char)
         (Py.split (_handle_punctuation sub)).

(** The windows one fragment contributes:
    [if m > n: for i in range(len(tokens)-(n-1)): ... tokens[i:i+n]]. *)
Definition windows (n : Z) (tokens : list string) : list (list string) :=
  let m := Z.of_nat (List.length tokens) in
  if (m >? n)%Z
  then map (fun i => Py.slice tokens i (i + n)%Z) (Py.range (m - (n - 1))%Z)
  else [].

(** The fragments of one lemmatized sentence, before punctuation handling. *)
Definition fragments (sentence : string) : list string :=
  Py.split_on "." (_handle_period sentence).

Definition _get_n_grams (n : Z) : result (list (list string)) :=
  content <- _lemmatize_content ;;
  Ok (flat_map
        (fun sentence =>
           flat_map (fun sub => windows n (fragment_tokens sub))
                    (fragments sentence))
        content).

End TextToTopics.

(** ** [collections.Counter] as an insertion-ordered association list *)

Fixpoint foldM {A S : Type} (f : S -> A -> result S) (l : list A) (s : S)
  : result S :=
  match l with
  | [] => Ok s
  | a :: l' => s' <- f s a ;; foldM f l' s'
  end.

Section Counter.

(** Values are integers for the POS-pattern scorer and reals for the PMI
    scorer; [zero] is the integer [0] that [Counter] uses for a missing key,
    [ltb] the comparison [<] that [sorted] and [heapq] use on values. *)
Variable V : Type.
Variable add : V -> V -> V.
Variable zero : V.
Variable ltb : V -> V -> bool.

Definition counter : Type := list (string * V).

Fixpoint lookup (c : counter) (k : string) : option V :=
  match c with
  | [] => None
  | (k', v) :: c' => if String.eqb k' k then Some v else lookup c' k
  end.

(** [c.get(k, 0)], also [c[k]] of a [Counter] *)
Definition get (c : counter) (k : string) : V :=
  match lookup c k with
  | Some v => v
  | None => zero
  end.

(** [c[k] = v]: an existing key keeps its place, a new key goes last. *)
Fixpoint set_item (c : counter) (k : string) (v : V) : counter :=
  match c with
  | [] => [(k, v)]
  | (k', v') :: c' =>
      if String.eqb k' k then (k', v) :: c' else (k', v') :: set_item c' k v
  end.

(** [c.update({k: v})]: an empty counter takes the mapping as it is,
    otherwise [c[k] = v + c.get(k, 0)]. *)
Definition update (c : counter) (k : string) (v : V) : counter :=
  match c with
  | [] => [(k, v)]
  | _ => set_item c k (add v (get c k))
  end.

(** [sorted(c.items(), key=itemgetter(1), reverse=True)]: a stable sort,
    entries with equal values keep their order. *)
Fixpoint insert_desc (x : string * V) (l : counter) : counter :=
  match l with
  | [] => [x]
  | y :: l' => if ltb (snd x) (snd y) then y :: insert_desc x l' else x :: l
  end.

Definition sorted_desc (c : counter) : counter :=
  fold_right insert_desc [] c.

(** [c.most_common(n)]: all entries for [None], otherwise
    [heapq.nlargest(n, c.items(), key=itemgetter(1))], which is the first
    [n] entries of the sorted list and nothing for a negative [n]. *)
Definition most_common (n : option Z) (c : counter) : counter :=
  match n with
  | None => sorted_desc c
  | Some k => firstn (Z.to_nat k) (sorted_desc c)
  end.

End Counter.

Arguments lookup {V} c k.
Arguments get {V} zero c k.
Arguments set_item {V} c k v.
Arguments update {V} add zero c k v.
Arguments insert_desc {V} ltb x l.
Arguments sorted_desc {V} ltb c.
Arguments most_common {V} ltb n c.

(** [Counter(l)] for a list of strings: [c[e] = c.get(e, 0) + 1] for each
    element in turn. *)
Definition count_elements (l : list string) : counter Z :=
  fold_left (fun c e => set_item c e (get 0%Z c e + 1)%Z) l [].

(** ** Arithmetic of the PMI scorer

    This is the arithmetic over the exact reals: it tells what the scores
    are, rounding apart, whenever the scorer returns.  Over the reals a
    product of positive factors is positive; on the floats of the code it
    can end at [0.0], which the reading [Float64] further down follows. *)

(** [a / b] over the reals *)
Definition true_div (a b : R) : result R :=
  if Req_dec_T b 0%R then Raise ZeroDivisionError else Ok (a / b)%R.

(** [math.log(x)] *)
Definition math_log (x : R) : result R :=
  if Rle_dec x 0%R then Raise (ValueError "math domain error") else Ok (ln x).

Definition Rltb (x y : R) : bool :=
  if Rlt_dec x y then true else false.

(** [if number:] *)
Definition truthy (number : option Z) : bool :=
  match number with
  | None => false
  | Some k => negb (k =? 0)%Z
  end.

Fixpoint ngram_eqb (v w : list string) : bool :=
  match v, w with
  | [], [] => true
  | a :: v', b :: w' => String.eqb a b && ngram_eqb v' w'
  | _, _ => false
  end.

(** [counts[i] += 1] *)
Fixpoint incr_at (counts : list Z) (i : nat) : result (list Z) :=
  match counts, i with
  | [], _ => Raise IndexError
  | c :: counts', O => Ok ((c + 1)%Z :: counts')
  | c :: counts', S j => cs <- incr_at counts' j ;; Ok (c :: cs)
  end.

(** [counts[-1]] *)
Definition last_count (counts : list Z) : result Z :=
  Py.index counts (List.length counts - 1).

Section Scorers.

Variable pos_tag : string -> string.
Variable lemmatize : string -> string -> string.
Variable _content : list string.

(** The body of [for v in ngrams:] inside the PMI scorer. *)
Definition count_row (value : list string) (counts : list Z) (v : list string)
  : result (list Z) :=
  counts <- (if ngram_eqb v value
             then incr_at counts (List.length counts - 1)
             else Ok counts) ;;
  foldM (fun counts i =>
           vi <- Py.index v i ;;
           xi <- Py.index value i ;;
           if String.eqb vi xi then incr_at counts i else Ok counts)
        (seq 0 (List.length v)) counts.

(** [counts] once the inner loop over [ngrams] is done. *)
Definition count_matches (ngrams : list (list string)) (value : list string)
  : result (list Z) :=
  foldM (count_row value) ngrams (map (fun _ => 0%Z) value ++ [0%Z]).

(** The body of [for value in ngrams:]. *)
Definition pim_step (ngrams : list (list string)) (c : counter R)
  (value : list string) : result (counter R) :=
  counts <- count_matches ngrams value ;;
  let total := Z.of_nat (List.length ngrams) in
  joint <- last_count counts ;;
  if (joint >? 2)%Z then
    p_all <- true_div (IZR joint) (IZR total) ;;
    p_other <- foldM (fun p_other c => true_div (p_other * IZR c)%R (IZR total))
                     (removelast counts) 1%R ;;
    q <- true_div p_all p_other ;;
    pmi <- math_log q ;;
    let topic := Py.join " " value in
    Ok (update Rplus 0%R c topic pmi)
  else Ok c.

(** The scorer on the n-gram list. *)
Definition pim_scores (ngrams : list (list string)) : result (counter R) :=
  foldM (pim_step ngrams) ngrams [].

Definition pim_based_topics (n : Z) (number : option Z)
  : result (list (string * R)) :=
  ngrams <- _get_n_grams pos_tag lemmatize _content n ;;
  c <- pim_scores ngrams ;;
  if truthy number
  then Ok (most_common Rltb number c)
  else Ok (most_common Rltb None c).

(** [x and y], [x or y] on conditions that may raise: [y] is evaluated only
    when [x] does not decide. *)
Definition andM (x y : result bool) : result bool :=
  b <- x ;; if b then y else Ok false.

Definition orM (x y : result bool) : result bool :=
  b <- x ;; if b then Ok true else y.

(** [nltk.pos_tag([w])[0][1][0] in cs] *)
Definition tag_in (w : string) (cs : list ascii) : result bool :=
  c <- first_char (pos_tag w) ;; Ok (Re.one_of cs c).

(** [value.split(" ")[i]] *)
Definition word (value : string) (i : nat) : result string :=
  Py.index (Py.split_on " " value) i.

Definition pos_step3 (freq c : counter Z) (value : string)
  : result (counter Z) :=
  w1 <- word value 0 ;;
  w2 <- word value 1 ;;
  w3 <- word value 2 ;;
  b <- andM (tag_in w1 ["J"; "N"]%char) (tag_in w3 ["J"; "N"]%char) ;;
  if b then Ok (update Z.add 0%Z c value (get 0%Z freq value)) else Ok c.

Definition pos_step2 (freq c : counter Z) (value : string)
  : result (counter Z) :=
  w1 <- word value 0 ;;
  w2 <- word value 1 ;;
  b <- orM (andM (tag_in w1 ["N"]%char) (tag_in w2 ["N"]%char))
           (andM (tag_in w1 ["J"]%char) (tag_in w2 ["N"]%char)) ;;
  if b then Ok (update Z.add 0%Z c value (get 0%Z freq value)) else Ok c.

(** The scorer on the list of space-joined n-grams. *)
Definition pos_scores (n : Z) (ngrams : list string) : result (counter Z) :=
  if (n =? 3)%Z then foldM (pos_step3 (count_elements ngrams)) ngrams []
  else if (n =? 2)%Z then foldM (pos_step2 (count_elements ngrams)) ngrams []
  else Raise (ValueError "Part of speech based topics can only take n=2 or n=3").

Definition pos_based_topics (n : Z) (number : option Z)
  : result (list (string * Z)) :=
  grams <- _get_n_grams pos_tag lemmatize _content n ;;
  let ngrams := map (Py.join " ") grams in
  c <- pos_scores n ngrams ;;
  Ok (most_common Z.ltb number c).

End Scorers.


(** * Specification-side definitions *)

(** Character-wise map and test on strings. *)
Fixpoint map_chars (f : ascii -> ascii) (s : string) : string :=
  match s with
  | EmptyString => EmptyString
  | String c s' => String (f c) (map_chars f s')
  end.

Fixpoint all_chars (p : ascii -> bool) (s : string) : bool :=
  match s with
  | EmptyString => true
  | String c s' => p c && all_chars p s'
  end.

Module Spec.

(** The punctuation set as the specification lists it:
    the 25 characters from [!] to [.], the double quote among them. *)
Definition punctuation_set : list ascii :=
  ["!"; "@"; "#"; "$"; "%"; "*"; "("; ")"; "_"; "+"; "-"; "="; "["; "]";
   "{"; "}"; "|"; Re.backslash; ":"; ";"; Re.dquote; ","; "<"; ">"; "."]%char.

Definition replace_punctuation (c : ascii) : ascii :=
  if Re.one_of punctuation_set c then " "%char else c.

Fixpoint lstrip (s : string) : string :=
  match s with
  | EmptyString => EmptyString
  | String c s' => if Py.is_space c then lstrip s' else s
  end.

Fixpoint rstrip (s : string) : string :=
  match s with
  | EmptyString => EmptyString
  | String c s' =>
      match rstrip s' with
      | EmptyString => if Py.is_space c then EmptyString else String c EmptyString
      | r => String c r
      end
  end.

(** [stripPunctuation] as the specification words it: every character of the
    set becomes a space, runs of whitespace collapse into single spaces, and
    the result is trimmed. *)
Definition stripPunctuation (sentence : string) : string :=
  lstrip (rstrip (Re.sub_plus Py.is_space
                    (map_chars replace_punctuation sentence))).

(** The replacement that the pattern's own class describes. *)
Definition replace_class (c : ascii) : ascii :=
  if Re.punctuation_class c then " "%char else c.

(** The characters that the range [+-=] of the pattern adds to the listed
    ones: [/] and the digits. *)
Definition in_range_only (c : ascii) : bool := Re.in_range "/" "9" c.

End Spec.

Definition tab : ascii := ascii_of_nat 9.

(** ** The acronym scenario *)

Module Scenario.

(** A tagger and a lemmatizer that know the words of the scenario. *)
Definition pos_tag (t : string) : string :=
  if String.eqb t "He" then "PRP"
  else if String.eqb t "has" then "VBZ"
  else if String.eqb t "an" then "DT"
  else if String.eqb t "M.B.A." then "NNP"
  else "NN".

Definition lemmatize (w p : string) : string :=
  if String.eqb w "has" && String.eqb p "v" then "have"
  else if String.eqb w "an" then "a"
  else w.

End Scenario.

(** ** Vocabulary for the scorers *)

Definition keys {V : Type} (c : counter V) : list string := map fst c.

Definition mem (x : string) (l : list string) : bool :=
  existsb (String.eqb x) l.

(** The distinct elements of [l] that are not in [seen], in the order in
    which a scan of [l] meets them first. *)
Fixpoint first_seen (seen l : list string) : list string :=
  match l with
  | [] => []
  | x :: l' =>
      if mem x seen then first_seen seen l'
      else x :: first_seen (seen ++ [x]) l'
  end.

(** The number of elements of [l] that satisfy [p]. *)
Definition count_if {A : Type} (p : A -> bool) (l : list A) : nat :=
  List.length (filter p l).

(** A scan that adds [w v] under the key [key v] for every element [v] that
    qualifies. *)
Definition accumulate {A V : Type} (add : V -> V -> V) (zero : V)
  (key : A -> string) (q : A -> bool) (w : A -> V) (l : list A)
  (c : counter V) : counter V :=
  fold_left (fun c v => if q v then update add zero c (key v) (w v) else c) l c.

(** The elements that contribute to the entry of the topic [t]. *)
Definition contributors {A : Type} (key : A -> string) (q : A -> bool)
  (t : string) (l : list A) : list A :=
  filter (fun v => q v && String.eqb (key v) t) l.

(** [x] stands somewhere before [y] in [l]. *)
Definition before {A : Type} (l : list A) (x y : A) : Prop :=
  exists l1 l2 l3, l = l1 ++ x :: l2 ++ y :: l3.

(** The ranking order: the larger value first, and among equal values the
    entry that stands first in [c]. *)
Definition ranks_before {V : Type} (ltb : V -> V -> bool) (c : counter V)
  (x y : string * V) : Prop :=
  ltb (snd y) (snd x) = true \/ (snd x = snd y /\ before c x y).

(** [res] is the ranking of the candidates [c] cut after [k] entries. *)
Definition top_ranked {V : Type} (ltb : V -> V -> bool) (c : counter V)
  (k : nat) (res : counter V) : Prop :=
  exists rest,
    Permutation (res ++ rest) c
    /\ StronglySorted (ranks_before ltb c) (res ++ rest)
    /\ List.length res = Nat.min k (List.length c).

(** The number of exact occurrences of the string [t] in [l]. *)
Definition occurrences (t : string) (l : list string) : nat :=
  count_if (fun v => String.eqb v t) l.

(** The POS templates, read off the tags of the words of a joined n-gram:
    for [n = 3] the first and the third word are adjectives or nouns, for
    [n = 2] the words are noun-noun or adjective-noun. *)
Definition qualifies3 (pos_tag : string -> string) (value : string) : bool :=
  match Py.split_on " " value with
  | w1 :: _ :: w3 :: _ =>
      startswith_any (pos_tag w1) ["J"; "N"]%char
      && startswith_any (pos_tag w3) ["J"; "N"]%char
  | _ => false
  end.

Definition qualifies2 (pos_tag : string -> string) (value : string) : bool :=
  match Py.split_on " " value with
  | w1 :: w2 :: _ =>
      (startswith_any (pos_tag w1) ["N"]%char
       && startswith_any (pos_tag w2) ["N"]%char)
      || (startswith_any (pos_tag w1) ["J"]%char
          && startswith_any (pos_tag w2) ["N"]%char)
  | _ => false
  end.

Definition qualifies (pos_tag : string -> string) (n : Z) : string -> bool :=
  if (n =? 3)%Z then qualifies3 pos_tag else qualifies2 pos_tag.

(** The tagger gives every token of the content a non-empty tag. *)
Definition tags_content (pos_tag : string -> string) (content : list string)
  : Prop :=
  forall c t, In c content -> In t (Py.split c) -> pos_tag t <> EmptyString.

Definition invalid_n : exn :=
  ValueError "Part of speech based topics can only take n=2 or n=3".

(** A word without space characters. *)
Definition no_space (w : string) : Prop :=
  all_chars (fun c => negb (Ascii.eqb c " ")) w = true.

(** All n-grams of a list have the same number of tokens. *)
Definition uniform (ngrams : list (list string)) : Prop :=
  forall u v, In u ngrams -> In v ngrams -> List.length u = List.length v.

(** ** Counts and PMI as the specification defines them *)

(** The entry [u] has at position [i] the token that [value] has there. *)
Definition agree_at (i : nat) (value u : list string) : bool :=
  match nth_error u i, nth_error value i with
  | Some a, Some b => String.eqb a b
  | _, _ => false
  end.

(** The number of entries equal to [value], token by token. *)
Definition joint_count (ngrams : list (list string)) (value : list string)
  : nat :=
  count_if (fun u => ngram_eqb u value) ngrams.

(** The number of entries that agree with [value] at position [i]. *)
Definition marginal_count (ngrams : list (list string)) (value : list string)
  (i : nat) : nat :=
  count_if (agree_at i value) ngrams.

Definition marginal_counts (ngrams : list (list string)) (value : list string)
  : list Z :=
  map (fun i => Z.of_nat (marginal_count ngrams value i))
      (seq 0 (List.length value)).

(** The number of entries whose topic string is [t]. *)
Definition topic_count (ngrams : list (list string)) (t : string) : nat :=
  count_if (fun u => String.eqb (Py.join " " u) t) ngrams.

Definition Rprod (l : list R) : R := fold_right Rmult 1%R l.

(** [ln((joint/total) / prod_i (marginal_i/total))] *)
Definition pmi (ngrams : list (list string)) (value : list string) : R :=
  let total := INR (List.length ngrams) in
  ln ((INR (joint_count ngrams value) / total)
      / Rprod (map (fun i => INR (marginal_count ngrams value i) / total)
                   (seq 0 (List.length value))))%R.

(** The de-noising threshold: more than two exact occurrences. *)
Definition pim_qualifies (ngrams : list (list string)) (value : list string)
  : bool :=
  (2 <? joint_count ngrams value)%nat.

(** What one pass of [for i in range(len(v))] does to the counts. *)
Fixpoint bump (v value : list string) (counts : list Z) : list Z :=
  match v, value, counts with
  | a :: v', b :: value', c :: counts' =>
      (if String.eqb a b then (c + 1)%Z else c) :: bump v' value' counts'
  | _, _, _ => counts
  end.

(** The loop body of the inner scan of [count_row]. *)
Definition scan_step (value v : list string) (counts : list Z) (i : nat)
  : result (list Z) :=
  vi <- Py.index v i ;;
  xi <- Py.index value i ;;
  if String.eqb vi xi then incr_at counts i else Ok counts.

(** The product loop of [pim_step] when no division fails. *)
Definition p_other_of (total : Z) (counts : list Z) : R :=
  fold_left (fun p c => (p * IZR c / IZR total)%R) counts 1%R.

(** A computation that raises nothing but [IndexError]. *)
Definition only_IndexError {A : Type} (r : result A) : Prop :=
  match r with
  | Ok _ => True
  | Raise e => e = IndexError
  end.

(** ** Example inputs *)

Module Example.

(** A tagger for the words of the fox scenario; every other word is a
    noun. *)
Definition pos_tag (t : string) : string :=
  if mem t ["the"; "a"] then "DT"
  else if mem t ["big"; "brown"; "lazy"] then "JJ"
  else if mem t ["jumps"; "runs"; "sleeps"] then "VBZ"
  else if mem t ["jump"; "run"; "sleep"] then "VB"
  else if mem t ["over"] then "IN"
  else if mem t ["fast"] then "RB"
  else "NN".

Definition lemmatize (w p : string) : string :=
  if String.eqb p "v" && mem w ["jumps"; "runs"; "sleeps"]
  then String.substring 0 (String.length w - 1) w
  else w.

Definition fox_content : list string :=
  ["the big brown fox jumps over the lazy dog";
   "the big brown fox runs fast";
   "a big brown fox sleeps"].

Definition ml_content : list string :=
  ["machine learning works";
   "machine learning helps";
   "machine learning grows"].

Definition ml_bigrams : list (list string) :=
  [["machine"; "learning"]; ["learning"; "works"];
   ["machine"; "learning"]; ["learning"; "helps"];
   ["machine"; "learning"]; ["learning"; "grows"]].

Definition fox_bigrams : list (list string) :=
  [["big"; "brown"]; ["brown"; "fox"]; ["fox"; "jump"]; ["jump"; "lazy"];
   ["lazy"; "dog"];
   ["big"; "brown"]; ["brown"; "fox"]; ["fox"; "run"]; ["run"; "fast"];
   ["big"; "brown"]; ["brown"; "fox"]; ["fox"; "sleep"]].

End Example.


(** * Further vocabulary *)

(** The letter that [_get_pos] returns for a non-empty tag. *)
Definition pos_letter (tag : string) : string :=
  match tag with
  | String "V" _ => "v"
  | String "R" _ => "r"
  | String "J" _ => "a"
  | String "S" _ => "s"
  | _ => "n"
  end.

(** The sentence that [_lemmatize_content] builds from one content unit
    when every tag is non-empty. *)
Definition lemmatized (pos_tag : string -> string)
  (lemmatize : string -> string -> string) (c : string) : string :=
  Py.join " "
    (map (fun t => lemmatize (Py.lower t) (pos_letter (pos_tag t)))
         (Py.split c)).

(** [s] without the characters [c]. *)
Fixpoint without (c : ascii) (s : string) : string :=
  match s with
  | EmptyString => EmptyString
  | String d s' => if Ascii.eqb d c then without c s' else String d (without c s')
  end.

(** [s] without its first [k] characters. *)
Fixpoint drop (k : nat) (s : string) : string :=
  match k, s with
  | S k', String _ s' => drop k' s'
  | _, _ => s
  end.

(** A run of capital letters each followed by a period, as the pattern of
    [_handle_period] matches it. *)
Inductive is_acronym : string -> Prop :=
| acronym_one (c : ascii) :
    Py.is_upper c = true -> is_acronym (String c ".")
| acronym_more (c : ascii) (a : string) :
    Py.is_upper c = true -> is_acronym a -> is_acronym (String c (String "." a)).

(** No two neighbouring characters of [s] are both in the class; with
    [prev] the character before [s] counts as in the class. *)
Fixpoint no_run (cls : ascii -> bool) (prev : bool) (s : string) : bool :=
  match s with
  | EmptyString => true
  | String c s' => negb (prev && cls c) && no_run cls (cls c) s'
  end.

(** * The page reader [UrlToText] and the command line [main]

    The two libraries that [UrlToText.py] uses are modelled by what the
    class asks of them: a reply of [requests.get] is a value of [reply], and
    a parsed document of [BeautifulSoup] is a tree of [element]s.  Sending
    requests, printing and the attribute [_body] are effects on a [world].

    A tree holds tags, strings and comments.  [Comment] stands for every
    string that [.text] leaves out and [find(text=True)] returns: comments,
    declarations, the doctype and processing instructions.  The strings that
    newer versions of the library keep apart inside [script], [style] and
    [template] are plain strings here; the class reads the text of the body
    after its scripts and styles are gone. *)

From Stdlib Require Floats Uint63 DecimalString.

Module Bs4.

(** The value of an HTML attribute: a string, or for the multi-valued
    attributes ([class], [rel], ...) the list of its words. *)
Inductive attribute : Type :=
| AttrStr (s : string)
| AttrList (l : list string).

#[warnings="-register-all"]
Inductive element : Type :=
| NavigableString (s : string)
| Comment (s : string)
| Tag (name : string) (attrs : list (string * attribute))
      (contents : list element).

(** [e.descendants]: every element below [e], in document order. *)
Fixpoint descendants (e : element) : list element :=
  match e with
  | Tag _ _ cs => flat_map (fun c => c :: descendants c) cs
  | _ => []
  end.

Definition is_tag (e : element) : bool :=
  match e with
  | Tag _ _ _ => true
  | _ => false
  end.

Definition named (names : list string) (e : element) : bool :=
  match e with
  | Tag nm _ _ => mem nm names
  | _ => false
  end.

(** [e.findAll()]: the tags below [e]. *)
Definition findAll (e : element) : list element :=
  filter is_tag (descendants e).

(** [e.findAll(name)], [e([name1, name2])]: the tags below [e] with one of
    the names. *)
Definition findAll_named (names : list string) (e : element) : list element :=
  filter (named names) (descendants e).

(** [e.find(name)]: the first such tag, or [None]. *)
Definition find (name : string) (e : element) : option element :=
  hd_error (findAll_named [name] e).

(** What an element gives to the text of a tag above it: a string gives
    itself, a comment nothing. *)
Definition string_of (e : element) : string :=
  match e with
  | NavigableString s => s
  | _ => EmptyString
  end.

(** [str(e)] for a string or a comment. *)
Definition str (e : element) : string :=
  match e with
  | NavigableString s => s
  | Comment s => s
  | Tag _ _ _ => EmptyString
  end.

(** [e.text] for a tag [e]: the strings below [e], one after the other,
    without the comments. *)
Definition text (e : element) : string :=
  String.concat EmptyString (map string_of (descendants e)).

(** [e.find(text=True, recursive=False)]: the first child of [e] that is a
    string or a comment. *)
Definition find_string (e : element) : option string :=
  match e with
  | Tag _ _ cs =>
      match filter (fun c => negb (is_tag c)) cs with
      | c :: _ => Some (str c)
      | [] => None
      end
  | _ => None
  end.

(** The tree [e] without the tags below it that have one of the names, and
    without all that is below them. *)
Fixpoint decompose (names : list string) (e : element) : element :=
  match e with
  | Tag nm attrs cs =>
      Tag nm attrs
          (flat_map (fun c => if named names c then []
                              else [decompose names c]) cs)
  | _ => e
  end.

(** *** A tree that is changed in place

    [tag.decompose()] takes a tag out of the tree that holds it.  While the
    loop of [_filter_tags] runs, the tags that [body(...)] found are objects
    of that tree: a tag is known by its [path], the positions to follow from
    the root, and a tree under change keeps the place of what was taken out
    empty, so that the paths of the other tags stay what they were. *)

Definition path : Type := list nat.

#[warnings="-register-all"]
Inductive node : Type :=
| Str (s : string)
| Com (s : string)
| Nod (name : string) (attrs : list (string * attribute))
      (places : list (option node)).

Fixpoint load (e : element) : node :=
  match e with
  | NavigableString s => Str s
  | Comment s => Com s
  | Tag nm attrs cs => Nod nm attrs (map (fun c => Some (load c)) cs)
  end.

(** The tree that is left: the empty places are dropped. *)
Fixpoint unload (t : node) : element :=
  match t with
  | Str s => NavigableString s
  | Com s => Comment s
  | Nod nm attrs places =>
      Tag nm attrs
          (flat_map (fun place => match place with
                                  | Some t' => [unload t']
                                  | None => []
                                  end) places)
  end.

(** [e.findAll(names)] as objects of the tree: the paths of the tags below
    [e] with one of the names, in document order. *)
Fixpoint paths_named (names : list string) (e : element) : list path :=
  match e with
  | Tag _ _ cs =>
      (fix children (i : nat) (cs : list element) : list path :=
         match cs with
         | [] => []
         | c :: cs' =>
             (if named names c then [[i]] else [])
             ++ map (cons i) (paths_named names c)
             ++ children (S i) cs'
         end) 0%nat cs
  | _ => []
  end.

(** [l] with [f] applied at position [i]. *)
Fixpoint at_place {A : Type} (i : nat) (f : A -> A) (l : list A) : list A :=
  match l, i with
  | [], _ => []
  | x :: l', O => f x :: l'
  | x :: l', S j => x :: at_place j f l'
  end.

(** [tag.decompose()] for the tag at the path [p]: its place is emptied.
    Nothing is left to change when the tag went away with a tag above it. *)
Fixpoint decompose_at (p : path) (t : node) : node :=
  match p, t with
  | i :: q, Nod nm attrs places =>
      Nod nm attrs
          (at_place i (fun place => match q with
                                    | [] => None
                                    | _ :: _ => option_map (decompose_at q) place
                                    end) places)
  | _, _ => t
  end.

(** The dict [m.attrs] is the list of its items; of two items with one key
    the first is the item of the dict. *)

(** [list(m.attrs.keys())] *)
Definition attr_keys (e : element) : list string :=
  match e with
  | Tag _ attrs _ => first_seen [] (map fst attrs)
  | _ => []
  end.

(** [m.attrs.get(key)] *)
Fixpoint attr_lookup (attrs : list (string * attribute)) (key : string)
  : option attribute :=
  match attrs with
  | [] => None
  | (k, v) :: attrs' => if String.eqb k key then Some v else attr_lookup attrs' key
  end.

Definition attrs_of (e : element) : list (string * attribute) :=
  match e with
  | Tag _ attrs _ => attrs
  | _ => []
  end.

End Bs4.

(** [sub in s] for strings *)
Fixpoint contains (sub s : string) : bool :=
  match s with
  | EmptyString => String.prefix sub EmptyString
  | String _ s' => String.prefix sub s || contains sub s'
  end.

(** [word in v] for an attribute value: a substring of a string, a member of
    a list. *)
Definition attr_contains (word : string) (v : Bs4.attribute) : bool :=
  match v with
  | Bs4.AttrStr s => contains word s
  | Bs4.AttrList l => mem word l
  end.

(** [l.remove(x)]: without the first occurrence of [x]. *)
Fixpoint remove_first (x : string) (l : list string) : list string :=
  match l with
  | [] => []
  | y :: l' => if String.eqb y x then l' else y :: remove_first x l'
  end.

(** [str(z)] for an integer *)
Definition str_of_Z (z : Z) : string :=
  DecimalString.NilZero.string_of_int (Z.to_int z).

(** [s.strip()]: without the whitespace at both ends. *)
Definition strip (s : string) : string := Spec.lstrip (Spec.rstrip s).

(** The float of an integer.  The integers divided and compared in
    [_find_filter_threshold] and [_filter_content] are counts of characters
    and of tags; for integers below [2^53], as these are, the conversion is
    exact and the quotient of the floats is the correctly rounded quotient
    that [/] gives on the integers. *)
Definition float_of_Z (z : Z) : PrimFloat.float :=
  if (z <? 0)%Z
  then PrimFloat.opp (PrimFloat.of_uint63 (Uint63.of_Z (- z)))
  else PrimFloat.of_uint63 (Uint63.of_Z z).

(** What [requests.get] does: a response, or one of the exceptions that the
    handlers of [_get_soup] tell apart, with its message. *)
Inductive reply : Type :=
| Response (status_code : Z) (content : string)
| ConnectionError (msg : string)
| Timeout (msg : string)
| RequestException (msg : string).

(** What [print] wrote: a line of text, or a list of topics. *)
Inductive printed : Type :=
| Line (s : string)
| PosTopics (l : list (string * Z))
| PimTopics (l : list (string * R)).

Inductive error : Type :=
| Builtin (e : exn)
| Exception (msg : string)
| UnboundLocalError
| KeyError (key : string)
| TypeError
| AttributeError.

Inductive outcome (A : Type) : Type :=
| Done (a : A)
| Fail (e : error).

Arguments Done {A} a.
Arguments Fail {A} e.

Record world : Type := World {
  requests_sent : nat;
  stdout : list printed;
  _body : option Bs4.element
}.

(** A computation of the page reader. *)
Definition U (A : Type) : Type := world -> outcome A * world.

Definition retU {A : Type} (a : A) : U A := fun w => (Done a, w).

Definition raiseU {A : Type} (e : error) : U A := fun w => (Fail e, w).

Definition bindU {A B : Type} (m : U A) (k : A -> U B) : U B :=
  fun w =>
    match m w with
    | (Done a, w') => k a w'
    | (Fail e, w') => (Fail e, w')
    end.

Notation "x <-- m ;; k" := (bindU m (fun x => k))
  (at level 61, m at next level, right associativity).

Definition printU (p : printed) : U unit :=
  fun w => (Done tt, World (requests_sent w) (stdout w ++ [p]) (_body w)).

Definition liftU {A : Type} (r : result A) : U A :=
  match r with
  | Ok a => retU a
  | Raise e => raiseU (Builtin e)
  end.

(** A [for] loop with an accumulator. *)
Fixpoint forU {A S : Type} (l : list A) (s : S) (body : S -> A -> U S) : U S :=
  match l with
  | [] => retU s
  | a :: l' => s' <-- body s a ;; forU l' s' body
  end.

Section UrlToText.

(** [get k] is what the request number [k] of the run gets from
    [requests.get(url, headers=headers, timeout=10)]. *)
Variable get : nat -> reply.

(** [parse content] is [BeautifulSoup(content, 'html.parser')]. *)
Variable parse : string -> Bs4.element.

Definition _status_codes : list (Z * string) :=
  [(200%Z, "OK");
   (400%Z, "Bad request - The request could not be understood by the server                                    due to malformed syntax.");
   (401%Z, "Unauthorized - The request requires user authentication.");
   (403%Z, "Forbidden - The server understood the request, but is refusing to fulfill it.");
   (404%Z, "Not Found - The server has not found anything matching the Request-URI.");
   (409%Z, "Conflict - The request could not be completed due to a conflict with the current state of the resource.");
   (500%Z, "Internal Server error")].

(** [requests.get(...)]: one more request is sent. *)
Definition send : U reply :=
  fun w => (Done (get (requests_sent w)),
            World (S (requests_sent w)) (stdout w) (_body w)).

Definition _get_soup : U Bs4.element :=
  r <-- send ;;
  match r with
  | Response status_code content =>
      match str_of_Z status_code with
      | EmptyString => raiseU (Builtin IndexError)
      | String c _ =>
          if negb (Ascii.eqb c "2") then
            if existsb (Z.eqb status_code) (map fst _status_codes)
            then raiseU (Exception ("Something bad happened "
                                    ++ str_of_Z status_code)%string)
            else raiseU (Exception
                           ("Status code other than 2xxx encountered. Status code is "
                            ++ str_of_Z status_code)%string)
          else retU (parse content)
      end
  | ConnectionError e =>
      _ <-- printU (Line ("Failed to connect. Check if you are connected to the internet "
                          ++ e)%string) ;;
      raiseU UnboundLocalError
  | Timeout e =>
      _ <-- printU (Line ("Timeout Error " ++ e)%string) ;;
      raiseU UnboundLocalError
  | RequestException e =>
      _ <-- printU (Line ("Some ambiguous error while processing the request "
                          ++ e)%string) ;;
      raiseU UnboundLocalError
  end.

(** [m[key]] *)
Definition getitem (m : Bs4.element) (key : string) : U Bs4.attribute :=
  match Bs4.attr_lookup (Bs4.attrs_of m) key with
  | Some v => retU v
  | None => raiseU (KeyError key)
  end.

(** The body of [for attr in attrs:] in [_get_meta_content]. *)
Definition meta_attr (m : Bs4.element) (content : list Bs4.attribute)
  (attr : string) : U (list Bs4.attribute) :=
  v <-- getitem m attr ;;
  if attr_contains "keywords" v || attr_contains "title" v
     || attr_contains "description" v
  then (c <-- getitem m "content" ;; retU (content ++ [c]))
  else retU content.

(** The body of [for m in meta:]. *)
Definition meta_tag (content : list Bs4.attribute) (m : Bs4.element)
  : U (list Bs4.attribute) :=
  let attrs := Bs4.attr_keys m in
  let attrs := if mem "content" attrs then remove_first "content" attrs
               else attrs in
  forU attrs content (meta_attr m).

Definition _get_meta_content : U (list Bs4.attribute) :=
  soup <-- _get_soup ;;
  let meta := Bs4.findAll_named ["meta"] soup in
  _ <-- (if (List.length meta <? 1)%nat
         then printU (Line "No meta information found") else retU tt) ;;
  forU meta [] meta_tag.

(** The list with the title, or [None] after the message. *)
Definition _get_title_content : U (option (list string)) :=
  soup <-- _get_soup ;;
  match Bs4.find "title" soup with
  | Some title => retU (Some [Bs4.text title])
  | None => _ <-- printU (Line "No title tag found") ;; retU None
  end.

(** [self._body] names the tree [body] from here on: after the assignment
    [self._body = body], and after a change in place of the tree that
    [self._body] names. *)
Definition store_body (body : Bs4.element) : U unit :=
  fun w => (Done tt, World (requests_sent w) (stdout w) (Some body)).

Definition _set_body : U unit :=
  soup <-- _get_soup ;;
  match Bs4.find "body" soup with
  | Some body =>
      if (0 <? List.length (Bs4.findAll body))%nat
      then store_body body
      else raiseU (Exception "No body or body content found")
  | None => raiseU (Exception "No body or body content found")
  end.

(** [self._body] *)
Definition read_body : U Bs4.element :=
  fun w =>
    match _body w with
    | Some body => (Done body, w)
    | None => (Fail AttributeError, w)
    end.

(** [for tag in body(["script", "style"]): tag.decompose()]: the tree
    [body] once the loop is done. *)
Definition _filter_tags (body : Bs4.element) : Bs4.element :=
  Bs4.unload
    (fold_left (fun tree tag => Bs4.decompose_at tag tree)
               (Bs4.paths_named ["script"; "style"] body)
               (Bs4.load body)).

Definition _find_filter_threshold : U PrimFloat.float :=
  body <-- read_body ;;
  let total_tags := Z.of_nat (List.length (Bs4.findAll body)) in
  let total_char := Z.of_nat (String.length (Bs4.text body)) in
  if (total_tags =? 0)%Z then raiseU (Builtin ZeroDivisionError)
  else retU (PrimFloat.div (float_of_Z total_char) (float_of_Z total_tags)).

Definition _filter_content (node : Bs4.element) (min_char : Z)
  (threshold : PrimFloat.float) : bool :=
  let total_tags := Z.of_nat (List.length (Bs4.findAll node)) in
  let total_char := Z.of_nat (String.length (Bs4.text node)) in
  let a_tags := Bs4.findAll_named ["a"] node in
  let len_links :=
    fold_left (fun len_links a =>
                 (len_links + Z.of_nat (String.length (Bs4.text a)))%Z)
              a_tags 0%Z in
  let total_char := (total_char - len_links)%Z in
  let density :=
    if negb (total_tags =? 0)%Z
    then PrimFloat.div (float_of_Z total_char) (float_of_Z total_tags)
    else float_of_Z total_char in
  PrimFloat.leb threshold density.

(** The body of [for child in body.findAll():]. *)
Definition body_child (min_char : Z) (threshold : PrimFloat.float)
  (body_content : list string) (child : Bs4.element) : list string :=
  if Bs4.is_tag child then
    if _filter_content child min_char threshold then
      match Bs4.find_string child with
      | Some content =>
          let content := strip (Re.sub_plus Py.is_space content) in
          if negb (String.eqb content EmptyString)
             && (min_char <? Z.of_nat (String.length content))%Z
          then body_content ++ [content]
          else body_content
      | None => body_content
      end
    else body_content
  else body_content.

(** [body] and [self._body] name one tree: what [_filter_tags] takes out
    of [body] is gone from [self._body] too, which the threshold reads. *)
Definition _get_body_content : U (list string) :=
  body <-- read_body ;;
  _ <-- store_body (_filter_tags body) ;;
  let min_char := 25%Z in
  threshold <-- _find_filter_threshold ;;
  body <-- read_body ;;
  retU (fold_left (body_child min_char threshold) (Bs4.findAll body) []).

Definition get_total_content : U (list Bs4.attribute) :=
  _ <-- _set_body ;;
  body_content <-- _get_body_content ;;
  meta_content <-- _get_meta_content ;;
  title_content <-- _get_title_content ;;
  match title_content with
  | Some title =>
      retU (map Bs4.AttrStr body_content ++ meta_content
            ++ map Bs4.AttrStr title)
  | None => raiseU TypeError
  end.

End UrlToText.

(** ** The command line *)

Section Main.

Variable pos_tag : string -> string.
Variable lemmatize : string -> string -> string.
Variable get : nat -> reply.
Variable parse : string -> Bs4.element.

(** [if not arg: arg = d] for an optional integer argument of [argparse]. *)
Definition or_default (arg : option Z) (d : Z) : Z :=
  if truthy arg then match arg with Some v => v | None => d end else d.

(** The entries of the content before the first one that is no string, and
    whether all entries are strings. *)
Fixpoint texts (total_content : list Bs4.attribute) : list string * bool :=
  match total_content with
  | [] => ([], true)
  | Bs4.AttrStr s :: l => let (ss, all) := texts l in (s :: ss, all)
  | Bs4.AttrList _ :: _ => ([], false)
  end.

(** A method [f] of [TextToTopics(total_content)].  Both scorers read the
    content in [_lemmatize_content] first, one entry after the other, and
    [content.split()] raises [AttributeError] at an entry that is a list. *)
Definition on_content {A : Type} (f : list string -> result A)
  (total_content : list Bs4.attribute) : U A :=
  let (content, all) := texts total_content in
  if all then liftU (f content)
  else match _lemmatize_content pos_tag lemmatize content with
       | Ok _ => raiseU AttributeError
       | Raise e => raiseU (Builtin e)
       end.

Definition banner (approach : string) (n number : Z) : string :=
  ("Finding the topics based on " ++ approach ++ " for " ++ str_of_Z n
   ++ "-grams topic names and displaying top " ++ str_of_Z number
   ++ " topics")%string.

Definition main (n : option Z) (approach : option string) (number : option Z)
  : U unit :=
  total_content <-- get_total_content get parse ;;
  let n := or_default n 3 in
  let number := or_default number 5 in
  if match approach with
     | Some a => String.eqb a "pos"
     | None => false
     end
  then
    _ <-- printU (Line (banner "part of speech filtering" n number)) ;;
    topics <-- on_content
                 (fun content =>
                    pos_based_topics pos_tag lemmatize content n (Some number))
                 total_content ;;
    printU (PosTopics topics)
  else
    _ <-- printU (Line (banner "pointwise mutual information" n number)) ;;
    topics <-- on_content
                 (fun content =>
                    pim_based_topics pos_tag lemmatize content n (Some number))
                 total_content ;;
    printU (PimTopics topics).

End Main.

(** ** Vocabulary for the page reader *)

(** The elements directly in a tag. *)
Definition contents (e : Bs4.element) : list Bs4.element :=
  match e with
  | Bs4.Tag _ _ cs => cs
  | _ => []
  end.

(** One of the words that [_get_meta_content] looks for is in the value. *)
Definition meta_word (v : Bs4.attribute) : bool :=
  attr_contains "keywords" v || attr_contains "title" v
  || attr_contains "description" v.

(** The attributes of a [meta] tag, its [content] apart, whose value holds
    one of the words. *)
Definition meta_hits (m : Bs4.element) : list string :=
  filter (fun attr => match Bs4.attr_lookup (Bs4.attrs_of m) attr with
                      | Some v => meta_word v
                      | None => false
                      end)
         (let attrs := Bs4.attr_keys m in
          if mem "content" attrs then remove_first "content" attrs else attrs).

(** What a [meta] tag adds to the content: the value of its [content], once
    for every attribute of [meta_hits]. *)
Definition meta_values (m : Bs4.element) : list Bs4.attribute :=
  match Bs4.attr_lookup (Bs4.attrs_of m) "content" with
  | Some v => map (fun _ => v) (meta_hits m)
  | None => []
  end.

(** The tag has a [content], or nothing asks for it. *)
Definition meta_ok (m : Bs4.element) : bool :=
  match Bs4.attr_lookup (Bs4.attrs_of m) "content", meta_hits m with
  | None, _ :: _ => false
  | _, _ => true
  end.

(** The first character of [str(sc)] is a [2] exactly when [sc] is between
    200 and 299. *)
Definition status_check (sc : Z) : bool :=
  match str_of_Z sc with
  | EmptyString => false
  | String c _ =>
      Bool.eqb (Ascii.eqb c "2") ((200 <=? sc)%Z && (sc <=? 299)%Z)
  end.

(** The number of topics in what was printed, for a list of topics. *)
Definition topics_count (p : printed) : option nat :=
  match p with
  | Line _ => None
  | PosTopics l => Some (List.length l)
  | PimTopics l => Some (List.length l)
  end.

(** ** A page for the examples *)

Module Page.

Definition head : Bs4.element :=
  Bs4.Tag "head" []
    [Bs4.Tag "title" [] [Bs4.NavigableString "Machine learning"];
     Bs4.Tag "meta" [("name", Bs4.AttrStr "description");
                     ("content", Bs4.AttrStr "Notes on machine learning")] []].

Definition body : Bs4.element :=
  Bs4.Tag "body" []
    [Bs4.Tag "script" [] [Bs4.NavigableString "var x = 1;"];
     Bs4.Tag "p" []
       [Bs4.NavigableString
          "  Machine learning   is the study of computer algorithms. "];
     Bs4.Tag "p" []
       [Bs4.Comment " note ";
        Bs4.NavigableString
          "This text stands after a comment and is not read."];
     Bs4.Tag "ul" []
       [Bs4.Tag "li" [] [Bs4.Tag "a" [] [Bs4.NavigableString "Home"]]]].

Definition soup : Bs4.element :=
  Bs4.Tag "[document]" [] [Bs4.Tag "html" [] [head; body]].

(** A page whose body holds nothing but a script. *)
Definition script_only : Bs4.element :=
  Bs4.Tag "[document]" []
    [Bs4.Tag "html" []
       [Bs4.Tag "body" []
          [Bs4.Tag "script" [] [Bs4.NavigableString "var x = 1;"]]]].

(** A page without a title. *)
Definition untitled : Bs4.element :=
  Bs4.Tag "[document]" [] [Bs4.Tag "html" [] [body]].

(** A server that answers every request with the same page. *)
Definition get (k : nat) : reply := Response 200 "page".

Definition start : world := World 0 [] None.

End Page.

(** * The PMI arithmetic in floating point

    The scorer of [pim_based_topics] above computes with exact real numbers:
    it tells what the scores are up to rounding.  What the divisions do on
    the floats of Python, where a product of many small factors ends at
    [0.0], is told by the second reading below.  It differs from the first
    in the arithmetic only: the counting loops are the same, and so is the
    counter.  The counts are integers below [2^53], whose conversion to a
    float is exact. *)

Module Float64.

(** A number of the loop: [p_other] starts as the [int] 1 and is a [float]
    after the first division. *)
Inductive num : Type :=
| PyInt (z : Z)
| PyFloat (f : PrimFloat.float).

Definition to_float (x : num) : PrimFloat.float :=
  match x with
  | PyInt z => float_of_Z z
  | PyFloat f => f
  end.

(** [x == 0] *)
Definition is_zero (x : num) : bool :=
  match x with
  | PyInt z => (z =? 0)%Z
  | PyFloat f => PrimFloat.eqb f PrimFloat.zero
  end.

(** [p * c] for a count [c]: the product of two [int]s is an [int]. *)
Definition mul (p : num) (c : Z) : num :=
  match p with
  | PyInt z => PyInt (z * c)
  | PyFloat f => PyFloat (PrimFloat.mul f (float_of_Z c))
  end.

(** [a / b]: a float, and [ZeroDivisionError] for a divisor that is zero. *)
Definition true_div (a b : num) : result PrimFloat.float :=
  if is_zero b then Raise ZeroDivisionError
  else Ok (PrimFloat.div (to_float a) (to_float b)).

Section Scorer.

(** [math.log] on the floats greater than zero is the logarithm of the C
    library, a parameter here. *)
Variable log : PrimFloat.float -> PrimFloat.float.

(** [math.log(x)] *)
Definition math_log (x : PrimFloat.float) : result PrimFloat.float :=
  if PrimFloat.leb x PrimFloat.zero
  then Raise (ValueError "math domain error")
  else Ok (log x).

(** [for c in counts[:-1]: p_other = p_other * c/total] *)
Definition p_other_of (counts : list Z) (total : Z) : result num :=
  foldM (fun p_other c =>
           q <- true_div (mul p_other c) (PyInt total) ;; Ok (PyFloat q))
        counts (PyInt 1).

(** The body of [for value in ngrams:]. *)
Definition pim_step (ngrams : list (list string))
  (c : counter PrimFloat.float) (value : list string)
  : result (counter PrimFloat.float) :=
  counts <- count_matches ngrams value ;;
  let total := Z.of_nat (List.length ngrams) in
  joint <- last_count counts ;;
  if (joint >? 2)%Z then
    p_all <- true_div (PyInt joint) (PyInt total) ;;
    p_other <- p_other_of (removelast counts) total ;;
    q <- true_div (PyFloat p_all) p_other ;;
    pmi <- math_log q ;;
    let topic := Py.join " " value in
    Ok (update PrimFloat.add (float_of_Z 0) c topic pmi)
  else Ok c.

Definition pim_scores (ngrams : list (list string))
  : result (counter PrimFloat.float) :=
  foldM (pim_step ngrams) ngrams [].

(** The ranking compares the scores with [<]; it is the ranking of Python
    as long as no score is a NaN. *)
Definition pim_based_topics (pos_tag : string -> string)
  (lemmatize : string -> string -> string) (_content : list string)
  (n : Z) (number : option Z) : result (list (string * PrimFloat.float)) :=
  ngrams <- _get_n_grams pos_tag lemmatize _content n ;;
  c <- pim_scores ngrams ;;
  if truthy number
  then Ok (most_common PrimFloat.ltb number c)
  else Ok (most_common PrimFloat.ltb None c).

End Scorer.

End Float64.

(** The score that one occurrence of [value] adds when the guard passes and
    the arithmetic raises nothing, from the joint and marginal counts. *)
Definition float_pmi (log : PrimFloat.float -> PrimFloat.float)
  (ngrams : list (list string)) (value : list string) : PrimFloat.float :=
  let total := Z.of_nat (List.length ngrams) in
  match
    (p_all <- Float64.true_div
                (Float64.PyInt (Z.of_nat (joint_count ngrams value)))
                (Float64.PyInt total) ;;
     p_other <- Float64.p_other_of (marginal_counts ngrams value) total ;;
     q <- Float64.true_div (Float64.PyFloat p_all) p_other ;;
     Float64.math_log log q)
  with
  | Ok pmi => pmi
  | Raise _ => PrimFloat.zero
  end.

(** ** A sentence of 1076 different words *)

Module Long.

(** The word number [i]: [k] letters, [a] for an even and [b] for an odd
    binary digit of [i]. *)
Fixpoint letters (k i : nat) : string :=
  match k with
  | O => EmptyString
  | S k' => String (if Nat.even i then "a" else "b")%char
                   (letters k' (Nat.div2 i))
  end.

Definition word (i : nat) : string := letters 11 i.

Definition sentence : string := Py.join " " (map word (seq 0 1076)).

(** The sentence three times: with [n = 1075] each copy gives two
    n-grams. *)
Definition content : list string := [sentence; sentence; sentence].

End Long.
(** * Properties *)

(** ** The error monad *)

Lemma bind_Ok_inv {A B : Type} (m : result A) (k : A -> result B) (b : B) :
  bind m k = Ok b -> exists a, m = Ok a /\ k a = Ok b.
Proof.
  destruct m as [a|e]; simpl; intros H; [exists a; auto | discriminate].
Qed.

Ltac inv_bind H :=
  let a := fresh "a" in
  let Ha := fresh "Ha" in
  apply bind_Ok_inv in H; destruct H as (a & Ha & H).

Lemma mapM_total {A B : Type} (f : A -> result B) (l : list A) :
  (forall a, In a l -> exists b, f a = Ok b) ->
  exists bs, mapM f l = Ok bs /\ List.length bs = List.length l.
Proof.
  induction l as [|a l IH]; intros Hf; simpl.
  - exists []; auto.
  - destruct (Hf a (or_introl eq_refl)) as [b ->].
    destruct IH as (bs & -> & Hlen); [intros; apply Hf; now right|].
    exists (b :: bs); simpl; auto.
Qed.

(** ** Text normalizer *)


Lemma punctuation_class_listed (c : ascii) :
  Spec.in_range_only c = false ->
  Re.punctuation_class c = Re.one_of Spec.punctuation_set c.
Proof.
  destruct c as [b0 b1 b2 b3 b4 b5 b6 b7].
  destruct b0, b1, b2, b3, b4, b5, b6, b7;
    vm_compute; intros H; first [reflexivity | discriminate H].
Qed.

(** Replacing runs of a class by one space and then collapsing spaces is
    replacing every character of the class by a space and then collapsing. *)
Lemma sub_runs_collapse (sp cls : ascii -> bool) (f : ascii -> ascii) :
  sp " "%char = true ->
  forall (s : string) (b1 b2 : bool),
    all_chars
      (fun c => if cls c then Ascii.eqb (f c) " " && negb (sp c)
                else Ascii.eqb (f c) c) s = true ->
    (b1 = true -> b2 = true) ->
    Re.sub_runs sp b2 (Re.sub_runs cls b1 s)
    = Re.sub_runs sp b2 (map_chars f s).
Proof.
  intros Hsp.
  induction s as [|c s IH]; intros b1 b2 Hall Hb; [reflexivity|].
  cbn [all_chars] in Hall.
  apply andb_true_iff in Hall. destruct Hall as [Hc Hall].
  cbn [Re.sub_runs map_chars].
  destruct (cls c) eqn:Hcls.
  - apply andb_true_iff in Hc. destruct Hc as [Hf Hn].
    apply Ascii.eqb_eq in Hf. rewrite Hf, Hsp.
    destruct b1.
    + rewrite (Hb eq_refl). apply IH; auto.
    + cbn [Re.sub_runs]. rewrite Hsp.
      destruct b2; [|f_equal]; apply IH; auto.
  - apply Ascii.eqb_eq in Hc. rewrite Hc.
    cbn [Re.sub_runs].
    destruct (sp c).
    + destruct b2; [|f_equal]; apply IH; auto; discriminate.
    + f_equal. apply IH; auto; discriminate.
Qed.

(** On every sentence, [_handle_punctuation] turns the characters of the
    pattern's class into spaces and collapses the runs of spaces. *)
Lemma handle_punctuation_class (sentence : string) :
  _handle_punctuation sentence
  = Re.sub_plus (Ascii.eqb " ") (map_chars Spec.replace_class sentence).
Proof.
  unfold _handle_punctuation, Re.sub_plus.
  apply sub_runs_collapse; [reflexivity| |discriminate].
  induction sentence as [|c s IH]; [reflexivity|].
  cbn [all_chars]. rewrite IH, andb_true_r.
  unfold Spec.replace_class.
  destruct (Re.punctuation_class c) eqn:Hp; [|apply Ascii.eqb_refl].
  destruct (Ascii.eqb " " c) eqn:E; [|reflexivity].
  apply Ascii.eqb_eq in E. subst c. discriminate Hp.
Qed.

Lemma map_chars_ext (f g : ascii -> ascii) (s : string) :
  all_chars (fun c => Ascii.eqb (f c) (g c)) s = true ->
  map_chars f s = map_chars g s.
Proof.
  induction s as [|c s IH]; cbn; [reflexivity|].
  intros H. apply andb_true_iff in H. destruct H as [Hc Hs].
  apply Ascii.eqb_eq in Hc. now rewrite Hc, IH.
Qed.

(** C5 (as amended): on a sentence without [/] and digits,
    [_handle_punctuation] replaces exactly the characters of the listed
    punctuation set by spaces, keeps every other character (letters and the
    apostrophe among them), and collapses every run of space characters into
    one space; nothing is trimmed. *)
Theorem handle_punctuation_replaces_listed_set (sentence : string) :
  all_chars (fun c => negb (Spec.in_range_only c)) sentence = true ->
  _handle_punctuation sentence
  = Re.sub_plus (Ascii.eqb " ")
      (map_chars Spec.replace_punctuation sentence).
Proof.
  intros Hs. rewrite handle_punctuation_class. f_equal.
  apply map_chars_ext.
  induction sentence as [|c s IH]; [reflexivity|].
  cbn [all_chars] in *.
  apply andb_true_iff in Hs. destruct Hs as [Hc Hs].
  rewrite (IH Hs), andb_true_r.
  apply negb_true_iff in Hc. apply Ascii.eqb_eq.
  unfold Spec.replace_class, Spec.replace_punctuation.
  now rewrite (punctuation_class_listed c Hc).
Qed.

Lemma handle_punctuation_replaces_listed_set_witness :
  _handle_punctuation " don't (stop)--now. "
  = Re.sub_plus (Ascii.eqb " ")
      (map_chars Spec.replace_punctuation " don't (stop)--now. ")
  /\ _handle_punctuation " don't (stop)--now. " = " don't stop now ".
Proof.
  split.
  - apply handle_punctuation_replaces_listed_set. reflexivity.
  - reflexivity.
Defined.

(** C5 (as stated) fails: two tabs are not collapsed and the space that
    replaces the final period is not trimmed. *)
Lemma handle_punctuation_not_stripPunctuation :
  let sentence := String "a" (String tab (String tab "b.")) in
  _handle_punctuation sentence <> Spec.stripPunctuation sentence
  /\ Spec.stripPunctuation sentence = "a b"
  /\ _handle_punctuation sentence = String "a" (String tab (String tab "b ")).
Proof.
  repeat split; try reflexivity. vm_compute. discriminate.
Qed.

(** Acronym collapsing finds nothing in a sentence without capital letters,
    and lower-casing leaves no capital letter. *)
Lemma acronym_prefix_not_upper (c : ascii) (s : string) :
  Py.is_upper c = false -> Re.acronym_prefix (String c s) = EmptyString.
Proof.
  intros H. destruct s as [|d s]; cbn [Re.acronym_prefix]; [reflexivity|].
  now rewrite H.
Qed.

Lemma findall_acronyms_lowercase (s : string) :
  all_chars (fun c => negb (Py.is_upper c)) s = true ->
  forall skip, Re.findall_acronyms_from skip s = [].
Proof.
  induction s as [|c s IH]; intros Hs skip; [reflexivity|].
  cbn [all_chars] in Hs. apply andb_true_iff in Hs.
  destruct Hs as [Hc Hs]. apply negb_true_iff in Hc.
  cbn [Re.findall_acronyms_from].
  destruct skip as [|k]; [|now apply IH].
  rewrite (acronym_prefix_not_upper c s Hc). now apply IH.
Qed.

Lemma handle_period_lowercase (s : string) :
  all_chars (fun c => negb (Py.is_upper c)) s = true ->
  _handle_period s = s.
Proof.
  intros Hs. unfold _handle_period, Re.findall_acronyms.
  now rewrite findall_acronyms_lowercase.
Qed.

Lemma lower_char_not_upper (c : ascii) :
  Py.is_upper (Py.lower_char c) = false.
Proof.
  destruct c as [b0 b1 b2 b3 b4 b5 b6 b7].
  destruct b0, b1, b2, b3, b4, b5, b6, b7; reflexivity.
Qed.

Lemma lower_no_upper (s : string) :
  all_chars (fun c => negb (Py.is_upper c)) (Py.lower s) = true.
Proof.
  induction s as [|c s IH]; [reflexivity|].
  cbn [Py.lower all_chars]. now rewrite lower_char_not_upper, IH.
Qed.

Lemma all_chars_app (p : ascii -> bool) (a b : string) :
  all_chars p (a ++ b)%string
  = all_chars p a && all_chars p b.
Proof.
  induction a as [|c a IH]; cbn; [reflexivity|].
  now rewrite IH, andb_assoc.
Qed.

Lemma join_all_chars (p : ascii -> bool) (ws : list string) :
  p " "%char = true ->
  (forall w, In w ws -> all_chars p w = true) ->
  all_chars p (Py.join " " ws) = true.
Proof.
  intros Hsp. induction ws as [|a ws IH]; intros Hws; [reflexivity|].
  destruct ws as [|b ws]; [apply Hws; now left|].
  change (Py.join " " (a :: b :: ws))
    with (a ++ String " " (Py.join " " (b :: ws)))%string.
  rewrite all_chars_app. cbn [all_chars].
  rewrite (Hws a) by now left. rewrite Hsp.
  apply IH. intros; apply Hws; now right.
Qed.

Lemma mapM_In {A B : Type} (f : A -> result B) (l : list A) (bs : list B)
  (b : B) :
  mapM f l = Ok bs -> In b bs -> exists a, In a l /\ f a = Ok b.
Proof.
  revert bs. induction l as [|a l IH]; intros bs H Hb; cbn in H.
  - inversion H; subst. contradiction.
  - inv_bind H. inv_bind H. inversion H; subst bs.
    destruct Hb as [<-|Hb]; [exists a; split; [now left | assumption]|].
    destruct (IH _ Ha0 Hb) as (a' & Hin & Hf).
    exists a'. split; [now right | assumption].
Qed.

(** With a lemmatizer that returns words without capital letters, acronym
    collapsing changes no lemmatized sentence. *)
Lemma handle_period_after_lemmatize (pos_tag : string -> string)
  (lemmatize : string -> string -> string) (content lem : list string) :
  (forall w p,
      all_chars (fun c => negb (Py.is_upper c)) (lemmatize w p) = true) ->
  _lemmatize_content pos_tag lemmatize content = Ok lem ->
  forall sentence, In sentence lem -> _handle_period sentence = sentence.
Proof.
  intros Hlow Hlem sentence Hin. apply handle_period_lowercase.
  destruct (mapM_In _ _ _ _ Hlem Hin) as (c & _ & Hc).
  unfold lemmatize_sentence in Hc. inv_bind Hc. inversion Hc; subst sentence.
  apply join_all_chars; [reflexivity|].
  intros w Hw. destruct (mapM_In _ _ _ _ Ha Hw) as (t & _ & Ht).
  unfold lemma_of in Ht. inv_bind Ht. inversion Ht. apply Hlow.
Qed.

Section AcronymScenario.

Variable pos_tag : string -> string.
Variable lemmatize : string -> string -> string.


(** The lexical facts of the scenario: the verb lemma, the article, and
    words unknown to the lemmatizer returned as they are. *)
Hypothesis lemma_he : lemma_of pos_tag lemmatize "He" = Ok "he".
Hypothesis lemma_has : lemma_of pos_tag lemmatize "has" = Ok "have".
Hypothesis lemma_an : lemma_of pos_tag lemmatize "an" = Ok "a".
Hypothesis lemma_mba : lemma_of pos_tag lemmatize "M.B.A." = Ok "m.b.a.".
Hypothesis lemma_degree :
  lemma_of pos_tag lemmatize "degree." = Ok "degree.".

(** C6: the content unit is lower-cased token by token before acronym
    collapsing, so the pattern of capital letters finds nothing and the
    sentence is split at the periods of the acronym; the normalized sentence
    of the scenario is not among the fragments. *)
Theorem acronym_scenario_is_split :
  _lemmatize_content pos_tag lemmatize ["He has an M.B.A. degree."]
  = Ok ["he have a m.b.a. degree."]
  /\ _handle_period "he have a m.b.a. degree." = "he have a m.b.a. degree."
  /\ map _handle_punctuation (fragments "he have a m.b.a. degree.")
     = ["he have a m"; "b"; "a"; " degree"; EmptyString]
  /\ ~ In "he have a mba degree"
         (map _handle_punctuation (fragments "he have a m.b.a. degree.")).
Proof.
  split; [|split; [reflexivity|split; [reflexivity|]]].
  - unfold _lemmatize_content, lemmatize_sentence.
    cbn [mapM].
    change (Py.split "He has an M.B.A. degree.")
      with ["He"; "has"; "an"; "M.B.A."; "degree."].
    cbn [mapM].
    rewrite lemma_he, lemma_has, lemma_an, lemma_mba, lemma_degree.
    reflexivity.
  - vm_compute. intros H.
    repeat (destruct H as [H|H]; [discriminate H|]). exact H.
Qed.

End AcronymScenario.


Lemma acronym_scenario_is_split_witness :
  _lemmatize_content Scenario.pos_tag Scenario.lemmatize
    ["He has an M.B.A. degree."]
  = Ok ["he have a m.b.a. degree."]
  /\ ~ In "he have a mba degree"
         (map _handle_punctuation (fragments "he have a m.b.a. degree.")).
Proof.
  destruct (acronym_scenario_is_split Scenario.pos_tag Scenario.lemmatize)
    as (H1 & _ & _ & H4); try reflexivity.
  split; [exact H1 | exact H4].
Defined.

(** ** N-gram generator *)

Lemma range_length (k : Z) : List.length (Py.range k) = Z.to_nat k.
Proof. unfold Py.range. now rewrite length_map, length_seq. Qed.


Lemma slice_window {A : Type} (l : list A) (i n : nat) :
  (i + n <= List.length l)%nat ->
  Py.slice l (Z.of_nat i) (Z.of_nat i + Z.of_nat n) = firstn n (skipn i l).
Proof.
  intros H. unfold Py.slice, Py.clamp.
  destruct (Z.ltb_spec (Z.of_nat i) 0); [lia|].
  destruct (Z.ltb_spec (Z.of_nat i + Z.of_nat n) 0); [lia|].
  rewrite !Z.min_l by lia.
  replace (Z.to_nat (Z.of_nat i + Z.of_nat n - Z.of_nat i)) with n by lia.
  now rewrite Nat2Z.id.
Qed.

Lemma windows_length (n : Z) (tokens : list string) :
  List.length (windows n tokens)
  = if (Z.of_nat (List.length tokens) >? n)%Z
    then Z.to_nat (Z.of_nat (List.length tokens) - n + 1)
    else 0%nat.
Proof.
  unfold windows.
  destruct (Z.of_nat (List.length tokens) >? n)%Z; [|reflexivity].
  rewrite length_map, range_length. f_equal. lia.
Qed.



(** ** Counters *)

Section CounterFacts.

Variable V : Type.
Variable add : V -> V -> V.
Variable zero : V.
Hypothesis add_zero_r : forall x, add x zero = x.

Lemma update_set_item (c : counter V) (k : string) (v : V) :
  update add zero c k v = set_item c k (add v (get zero c k)).
Proof.
  destruct c as [|[k' v'] c]; [|reflexivity].
  unfold update, get. cbn. now rewrite add_zero_r.
Qed.

Lemma lookup_set_item (c : counter V) (k k' : string) (v : V) :
  lookup (set_item c k v) k'
  = if String.eqb k k' then Some v else lookup c k'.
Proof.
  induction c as [|[k0 v0] c IH]; cbn.
  - reflexivity.
  - destruct (String.eqb_spec k0 k) as [->|Hne]; cbn.
    + destruct (String.eqb k k'); reflexivity.
    + rewrite IH. destruct (String.eqb_spec k0 k') as [->|Hne'].
      * destruct (String.eqb_spec k k'); [congruence | reflexivity].
      * reflexivity.
Qed.

Lemma mem_true_iff (x : string) (l : list string) :
  mem x l = true <-> In x l.
Proof.
  unfold mem. rewrite existsb_exists. split.
  - intros (y & Hy & E). apply String.eqb_eq in E. now subst.
  - intros H. exists x. split; [exact H | apply String.eqb_refl].
Qed.

Lemma keys_set_item (c : counter V) (k : string) (v : V) :
  keys (set_item c k v) = if mem k (keys c) then keys c else keys c ++ [k].
Proof.
  induction c as [|[k0 v0] c IH]; [reflexivity|].
  unfold mem. cbn [set_item keys map existsb fst].
  rewrite (String.eqb_sym k k0).
  destruct (String.eqb k0 k); cbn [orb keys map fst]; [reflexivity|].
  change (map fst (set_item c k v)) with (keys (set_item c k v)).
  rewrite IH. unfold mem, keys.
  now destruct (existsb (String.eqb k) (map fst c)).
Qed.

Lemma lookup_In (c : counter V) (k : string) (v : V) :
  NoDup (keys c) -> In (k, v) c -> lookup c k = Some v.
Proof.
  induction c as [|[k0 v0] c IH]; cbn; intros Hnd Hin; [contradiction|].
  inversion Hnd as [|? ? Hnotin Hnd']; subst.
  destruct Hin as [E|Hin].
  - inversion E; subst. now rewrite String.eqb_refl.
  - destruct (String.eqb_spec k0 k) as [->|_].
    + exfalso. apply Hnotin. now apply (in_map fst) in Hin.
    + now apply IH.
Qed.

Lemma In_lookup (c : counter V) (k : string) (v : V) :
  lookup c k = Some v -> In (k, v) c.
Proof.
  induction c as [|[k0 v0] c IH]; cbn; intros H; [discriminate|].
  destruct (String.eqb_spec k0 k) as [->|_].
  - inversion H; subst. now left.
  - right. now apply IH.
Qed.

Section Accumulate.

Variable A : Type.
Variable key : A -> string.
Variable q : A -> bool.
Variable w : A -> V.

Lemma get_set_item (c : counter V) (k k' : string) (v : V) :
  get zero (set_item c k v) k'
  = if String.eqb k k' then v else get zero c k'.
Proof.
  unfold get. rewrite lookup_set_item. now destruct (String.eqb k k').
Qed.

Lemma lookup_accumulate (t : string) :
  forall (l : list A) (c : counter V),
    lookup (accumulate add zero key q w l c) t
    = match contributors key q t l with
      | [] => lookup c t
      | vs => Some (fold_left (fun s v => add (w v) s) vs (get zero c t))
      end.
Proof.
  induction l as [|v l IH]; intros c; [reflexivity|].
  change (accumulate add zero key q w (v :: l) c)
    with (accumulate add zero key q w l
            (if q v then update add zero c (key v) (w v) else c)).
  rewrite IH. unfold contributors. cbn [filter].
  fold (contributors key q t l).
  destruct (q v) eqn:Hq; cbn [andb]; [|reflexivity].
  rewrite update_set_item, get_set_item, lookup_set_item.
  destruct (String.eqb_spec (key v) t) as [E|Hne]; [|reflexivity].
  subst t. cbn [fold_left].
  destruct (contributors key q (key v) l); reflexivity.
Qed.

Lemma keys_accumulate :
  forall (l : list A) (c : counter V),
    keys (accumulate add zero key q w l c)
    = keys c ++ first_seen (keys c) (map key (filter q l)).
Proof.
  induction l as [|v l IH]; intros c.
  - cbn. now rewrite app_nil_r.
  - change (accumulate add zero key q w (v :: l) c)
      with (accumulate add zero key q w l
              (if q v then update add zero c (key v) (w v) else c)).
    rewrite IH. cbn [filter].
    destruct (q v) eqn:Hq; [|reflexivity].
    rewrite update_set_item, keys_set_item.
    cbn [map first_seen].
    destruct (mem (key v) (keys c)); [reflexivity|].
    now rewrite <- app_assoc.
Qed.

End Accumulate.

Lemma first_seen_NoDup (l seen : list string) :
  NoDup seen -> NoDup (seen ++ first_seen seen l).
Proof.
  revert seen. induction l as [|x l IH]; intros seen Hnd; cbn.
  - now rewrite app_nil_r.
  - destruct (mem x seen) eqn:Hm; [now apply IH|].
    change (x :: first_seen (seen ++ [x]) l)
      with ([x] ++ first_seen (seen ++ [x]) l).
    rewrite app_assoc. apply IH.
    apply NoDup_app; [exact Hnd | repeat constructor; intros [] | ].
    intros y Hy [E|[]]. subst y.
    apply mem_true_iff in Hy. congruence.
Qed.

Lemma accumulate_NoDup {A : Type} (key : A -> string) (q : A -> bool)
  (w : A -> V) (l : list A) :
  NoDup (keys (accumulate add zero key q w l [])).
Proof.
  rewrite keys_accumulate. apply (first_seen_NoDup _ []). constructor.
Qed.

End CounterFacts.

Lemma accumulate_ext {A V : Type} (add : V -> V -> V) (zero : V)
  (key : A -> string) (q : A -> bool) (w w' : A -> V) (l : list A) :
  (forall v, In v l -> w v = w' v) ->
  forall c, accumulate add zero key q w l c
            = accumulate add zero key q w' l c.
Proof.
  unfold accumulate. induction l as [|v l IH]; intros Hw c; [reflexivity|].
  cbn [fold_left]. rewrite (Hw v) by now left.
  apply IH. intros; apply Hw; now right.
Qed.

(** ** Ranking *)

Lemma StronglySorted_weaken {A : Type} (R R' : A -> A -> Prop) (l : list A) :
  (forall x y, In x l -> In y l -> R x y -> R' x y) ->
  StronglySorted R l -> StronglySorted R' l.
Proof.
  induction l as [|a l IH]; intros Hsub Hs; [constructor|].
  apply StronglySorted_inv in Hs. destruct Hs as [Hs Hall].
  constructor.
  - apply IH; [|exact Hs]. intros x y Hx Hy. apply Hsub; now right.
  - rewrite Forall_forall in *. intros y Hy.
    apply Hsub; [now left | now right | now apply Hall].
Qed.

Lemma StronglySorted_prefix {A : Type} (R : A -> A -> Prop) (l l' : list A) :
  StronglySorted R (l ++ l') -> StronglySorted R l.
Proof.
  induction l as [|a l IH]; cbn; intros Hs; [constructor|].
  apply StronglySorted_inv in Hs. destruct Hs as [Hs Hall].
  constructor; [now apply IH|].
  rewrite Forall_forall in *. intros y Hy. apply Hall, in_or_app. now left.
Qed.

Lemma before_cons {A : Type} (a : A) (l : list A) (x y : A) :
  before l x y -> before (a :: l) x y.
Proof.
  intros (l1 & l2 & l3 & ->). now exists (a :: l1), l2, l3.
Qed.

Lemma before_head {A : Type} (a : A) (l : list A) (y : A) :
  In y l -> before (a :: l) a y.
Proof.
  intros Hy. apply in_split in Hy. destruct Hy as (l2 & l3 & ->).
  now exists [], l2, l3.
Qed.

Section Ranking.

Variable V : Type.
Variable ltb : V -> V -> bool.
Hypothesis ltb_trans :
  forall x y z, ltb x y = true -> ltb y z = true -> ltb x z = true.
Hypothesis ltb_total :
  forall x y, ltb x y = false -> ltb y x = false -> x = y.

Lemma insert_desc_perm (x : string * V) (l : counter V) :
  Permutation (insert_desc ltb x l) (x :: l).
Proof.
  induction l as [|y l IH]; cbn; [reflexivity|].
  destruct (ltb (snd x) (snd y)); [|reflexivity].
  rewrite IH. apply perm_swap.
Qed.

Lemma sorted_desc_perm (c : counter V) : Permutation (sorted_desc ltb c) c.
Proof.
  induction c as [|x c IH]; cbn; [reflexivity|].
  rewrite insert_desc_perm. now constructor.
Qed.

Lemma sorted_desc_length (c : counter V) :
  List.length (sorted_desc ltb c) = List.length c.
Proof. apply Permutation_length, sorted_desc_perm. Qed.

(** An entry that stood before all entries of a ranked list is ranked into
    it: after the entries with a larger value and before the others. *)
Lemma insert_desc_sorted (c : counter V) (a : string * V) (s : counter V) :
  (forall y, In y s -> before c a y) ->
  StronglySorted (ranks_before ltb c) s ->
  StronglySorted (ranks_before ltb c) (insert_desc ltb a s).
Proof.
  induction s as [|y s IH]; intros Hbef Hs; cbn.
  - repeat constructor.
  - pose proof (StronglySorted_inv Hs) as [Hs' Hall].
    destruct (ltb (snd a) (snd y)) eqn:Hay.
    + constructor.
      * apply IH; [|exact Hs']. intros z Hz. apply Hbef. now right.
      * rewrite Forall_forall in *. intros z Hz.
        apply (Permutation_in _ (insert_desc_perm a s)) in Hz.
        destruct Hz as [<-|Hz]; [now left | now apply Hall].
    + constructor; [exact Hs|].
      assert (Hy : ranks_before ltb c a y).
      { destruct (ltb (snd y) (snd a)) eqn:Hya; [now left|].
        right. split; [now apply ltb_total | apply Hbef; now left]. }
      rewrite Forall_forall in *. intros z [<-|Hz]; [exact Hy|].
      destruct (ltb (snd z) (snd a)) eqn:Hza; [now left|].
      right. split; [|apply Hbef; now right].
      apply ltb_total; [|exact Hza].
      destruct (ltb (snd a) (snd z)) eqn:Haz; [|reflexivity].
      exfalso.
      destruct (Hall z Hz) as [Hzy|[Hyz _]].
      * rewrite (ltb_trans _ _ _ Haz Hzy) in Hay. discriminate.
      * rewrite Hyz in Hay. congruence.
Qed.

Lemma sorted_desc_sorted (c : counter V) :
  StronglySorted (ranks_before ltb c) (sorted_desc ltb c).
Proof.
  induction c as [|a c IH]; cbn; [constructor|].
  apply insert_desc_sorted.
  - intros y Hy. apply before_head.
    now apply (Permutation_in _ (sorted_desc_perm c)).
  - apply (StronglySorted_weaken (ranks_before ltb c)); [|exact IH].
    intros x y _ _ [H|[H1 H2]]; [now left|].
    right. split; [exact H1 | now apply before_cons].
Qed.

Lemma most_common_all (c : counter V) :
  top_ranked ltb c (List.length c) (most_common ltb None c).
Proof.
  exists []. rewrite app_nil_r. cbn.
  split; [apply sorted_desc_perm|].
  split; [apply sorted_desc_sorted|].
  rewrite sorted_desc_length. lia.
Qed.


End Ranking.


Lemma top_ranked_incl {V : Type} (ltb : V -> V -> bool) (c : counter V)
  (k : nat) (res : counter V) (x : string * V) :
  top_ranked ltb c k res -> In x res -> In x c.
Proof.
  intros (rest & Hperm & _) Hx.
  apply (Permutation_in _ Hperm), in_or_app. now left.
Qed.

Lemma top_ranked_NoDup {V : Type} (ltb : V -> V -> bool) (c : counter V)
  (k : nat) (res : counter V) :
  top_ranked ltb c k res -> NoDup (keys c) -> NoDup (keys res).
Proof.
  intros (rest & Hperm & _) Hnd.
  apply (Permutation_map fst), Permutation_sym in Hperm.
  apply (Permutation_NoDup Hperm) in Hnd.
  rewrite map_app in Hnd. now apply NoDup_app_remove_r in Hnd.
Qed.

(** ** The two orders on values *)

Lemma Zltb_trans (x y z : Z) :
  (x <? y)%Z = true -> (y <? z)%Z = true -> (x <? z)%Z = true.
Proof. rewrite !Z.ltb_lt. lia. Qed.

Lemma Zltb_total (x y : Z) :
  (x <? y)%Z = false -> (y <? x)%Z = false -> x = y.
Proof. rewrite !Z.ltb_ge. lia. Qed.





Lemma ranks_before_Zle (c : counter Z) (x y : string * Z) :
  ranks_before Z.ltb c x y -> (snd y <= snd x)%Z.
Proof. intros [H|[H _]]; [apply Z.ltb_lt in H|]; lia. Qed.


Lemma In_firstn {A : Type} (k : nat) (l : list A) (x : A) :
  In x (firstn k l) -> In x l.
Proof.
  intros H. rewrite <- (firstn_skipn k l). apply in_or_app. now left.
Qed.

Lemma most_common_incl {V : Type} (ltb : V -> V -> bool) (number : option Z)
  (c : counter V) (x : string * V) :
  In x (most_common ltb number c) -> In x c.
Proof.
  intros H. apply (Permutation_in _ (sorted_desc_perm V ltb c)).
  destruct number as [k|]; [now apply In_firstn in H | exact H].
Qed.

Lemma most_common_NoDup {V : Type} (ltb : V -> V -> bool) (number : option Z)
  (c : counter V) :
  NoDup (keys c) -> NoDup (keys (most_common ltb number c)).
Proof.
  intros Hnd.
  assert (Hs : NoDup (keys (sorted_desc ltb c))).
  { apply (Permutation_NoDup
             (Permutation_sym
                (Permutation_map fst (sorted_desc_perm V ltb c)))), Hnd. }
  destruct number as [k|]; [|exact Hs]. cbn.
  rewrite <- (firstn_skipn (Z.to_nat k) (sorted_desc ltb c)) in Hs.
  unfold keys in *. rewrite map_app in Hs.
  now apply NoDup_app_remove_r in Hs.
Qed.

(** ** POS-pattern scorer *)

Lemma fold_left_weights_Z {A : Type} (w : A -> Z) (x : Z) (vs : list A) :
  (forall v, In v vs -> w v = x) ->
  forall z, fold_left (fun s v => (w v + s)%Z) vs z
            = (z + Z.of_nat (List.length vs) * x)%Z.
Proof.
  induction vs as [|v vs IH]; intros Hw z.
  - cbn. lia.
  - cbn [fold_left]. rewrite IH by (intros; apply Hw; now right).
    rewrite (Hw v) by now left. cbn [List.length]. lia.
Qed.

Lemma contributors_id (q : string -> bool) (t : string) (l : list string) :
  contributors (fun v => v) q t l
  = if q t then filter (fun v => String.eqb v t) l else [].
Proof.
  unfold contributors.
  induction l as [|v l IH]; cbn [filter]; [now destruct (q t)|].
  rewrite IH. destruct (String.eqb_spec v t) as [->|Hne].
  - now destruct (q t).
  - rewrite andb_false_r. reflexivity.
Qed.

Lemma count_elements_accumulate (l : list string) :
  count_elements l
  = accumulate Z.add 0%Z (fun v => v) (fun _ => true) (fun _ => 1%Z) l [].
Proof.
  unfold count_elements, accumulate. generalize (@nil (string * Z)).
  induction l as [|e l IH]; intros c; [reflexivity|].
  cbn [fold_left]. rewrite IH. f_equal.
  rewrite (update_set_item Z Z.add 0%Z Z.add_0_r). f_equal. lia.
Qed.

Lemma get_count_elements (l : list string) (t : string) :
  get 0%Z (count_elements l) t = Z.of_nat (occurrences t l).
Proof.
  rewrite count_elements_accumulate. unfold get.
  rewrite (lookup_accumulate Z Z.add 0%Z Z.add_0_r), contributors_id.
  fold (count_if (fun v => String.eqb v t) l).
  unfold occurrences, count_if.
  destruct (filter (fun v => String.eqb v t) l) as [|v vs] eqn:E;
    [reflexivity|].
  rewrite fold_left_weights_Z with (x := 1%Z) by reflexivity.
  unfold get. cbn [lookup]. lia.
Qed.

Section PosScorer.

Variable pos_tag : string -> string.

Lemma tag_in_Ok (w : string) (cs : list ascii) (b : bool) :
  tag_in pos_tag w cs = Ok b -> b = startswith_any (pos_tag w) cs.
Proof.
  unfold tag_in, first_char, startswith_any.
  destruct (pos_tag w); cbn; intros H; [discriminate | now inversion H].
Qed.

Lemma andM_Ok (x y : result bool) (b : bool) :
  andM x y = Ok b ->
  exists bx, x = Ok bx /\ (if bx then y = Ok b else b = false).
Proof.
  unfold andM. destruct x as [[|]|e]; cbn; intros H;
    [exists true | exists false | discriminate]; split; auto.
  now inversion H.
Qed.

Lemma orM_Ok (x y : result bool) (b : bool) :
  orM x y = Ok b ->
  exists bx, x = Ok bx /\ (if bx then b = true else y = Ok b).
Proof.
  unfold orM. destruct x as [[|]|e]; cbn; intros H;
    [exists true | exists false | discriminate]; split; auto.
  now inversion H.
Qed.

Lemma pos_step3_Ok (freq c c' : counter Z) (value : string) :
  pos_step3 pos_tag freq c value = Ok c' ->
  c' = if qualifies3 pos_tag value
       then update Z.add 0%Z c value (get 0%Z freq value) else c.
Proof.
  unfold pos_step3, word, qualifies3, Py.index.
  destruct (Py.split_on " " value) as [|w1 [|w2 [|w3 ws]]]; cbn;
    try discriminate.
  intros H. inv_bind H.
  apply andM_Ok in Ha. destruct Ha as (b1 & H1 & H3).
  apply tag_in_Ok in H1. rewrite <- H1.
  destruct b1.
  - apply tag_in_Ok in H3. rewrite <- H3. cbn [andb].
    destruct a; now inversion H.
  - subst a. now inversion H.
Qed.

Lemma pos_step2_Ok (freq c c' : counter Z) (value : string) :
  pos_step2 pos_tag freq c value = Ok c' ->
  c' = if qualifies2 pos_tag value
       then update Z.add 0%Z c value (get 0%Z freq value) else c.
Proof.
  unfold pos_step2, word, qualifies2, Py.index.
  destruct (Py.split_on " " value) as [|w1 [|w2 ws]]; cbn;
    try discriminate.
  intros H. inv_bind H.
  assert (E : a = (startswith_any (pos_tag w1) ["N"%char]
                   && startswith_any (pos_tag w2) ["N"%char])
                  || (startswith_any (pos_tag w1) ["J"%char]
                      && startswith_any (pos_tag w2) ["N"%char])).
  { apply orM_Ok in Ha. destruct Ha as (bx & Hx & Hy).
    apply andM_Ok in Hx. destruct Hx as (b1 & H1 & H2).
    apply tag_in_Ok in H1. rewrite <- H1.
    assert (Hx : bx = b1 && startswith_any (pos_tag w2) ["N"%char]).
    { destruct b1; [|now subst].
      apply tag_in_Ok in H2. now rewrite <- H2. }
    rewrite <- Hx. destruct bx; [now subst|]. cbn [orb].
    apply andM_Ok in Hy. destruct Hy as (b3 & H3 & H4).
    apply tag_in_Ok in H3. rewrite <- H3.
    destruct b3; [|now subst].
    apply tag_in_Ok in H4. now rewrite <- H4. }
  rewrite <- E. destruct a; now inversion H.
Qed.

Lemma foldM_accumulate {A V : Type} (add : V -> V -> V) (zero : V)
  (key : A -> string) (q : A -> bool) (w : A -> V)
  (step : counter V -> A -> result (counter V)) :
  (forall c v c', step c v = Ok c' ->
                  c' = if q v then update add zero c (key v) (w v) else c) ->
  forall l c c', foldM step l c = Ok c' ->
                 c' = accumulate add zero key q w l c.
Proof.
  intros Hstep. induction l as [|v l IH]; intros c c' H; cbn in H.
  - now inversion H.
  - inv_bind H. apply Hstep in Ha. subst a.
    now apply IH in H.
Qed.

Lemma pos_scores_Ok (n : Z) (ngrams : list string) (c : counter Z) :
  pos_scores pos_tag n ngrams = Ok c ->
  (n = 2 \/ n = 3)%Z
  /\ c = accumulate Z.add 0%Z (fun v => v) (qualifies pos_tag n)
           (get 0%Z (count_elements ngrams)) ngrams [].
Proof.
  unfold pos_scores, qualifies.
  destruct (Z.eqb_spec n 3) as [->|H3].
  - intros H. split; [now right|].
    revert H. apply foldM_accumulate.
    intros c0 v c0'. apply pos_step3_Ok.
  - destruct (Z.eqb_spec n 2) as [->|H2]; [|discriminate].
    intros H. split; [now left|].
    revert H. apply foldM_accumulate.
    intros c0 v c0'. apply pos_step2_Ok.
Qed.

Lemma pos_scores_invalid (n : Z) (ngrams : list string) :
  n <> 2%Z -> n <> 3%Z -> pos_scores pos_tag n ngrams = Raise invalid_n.
Proof.
  intros H2 H3. unfold pos_scores.
  destruct (Z.eqb_spec n 3); [contradiction|].
  destruct (Z.eqb_spec n 2); [contradiction|reflexivity].
Qed.

(** Every entry of the scorer's counter holds the square of the number of
    occurrences of its topic. *)
Lemma pos_scores_square (n : Z) (ngrams : list string) (c : counter Z)
  (t : string) (s : Z) :
  pos_scores pos_tag n ngrams = Ok c ->
  In (t, s) c ->
  qualifies pos_tag n t = true
  /\ (0 < occurrences t ngrams)%nat
  /\ s = (Z.of_nat (occurrences t ngrams) * Z.of_nat (occurrences t ngrams))%Z.
Proof.
  intros Hc Hin. apply pos_scores_Ok in Hc. destruct Hc as [_ ->].
  apply lookup_In in Hin;
    [|apply (accumulate_NoDup Z Z.add 0%Z Z.add_0_r)].
  rewrite (lookup_accumulate Z Z.add 0%Z Z.add_0_r) in Hin.
  rewrite contributors_id in Hin. unfold occurrences, count_if.
  destruct (qualifies pos_tag n t); [|discriminate Hin].
  destruct (filter (fun v => String.eqb v t) ngrams) as [|v vs] eqn:E;
    [discriminate Hin|].
  rewrite fold_left_weights_Z
    with (x := Z.of_nat (occurrences t ngrams)) in Hin.
  - inversion Hin. unfold occurrences, count_if, get. rewrite E.
    cbn [lookup List.length]. repeat split; lia.
  - intros u Hu. rewrite <- E in Hu. apply filter_In in Hu.
    destruct Hu as [_ Hu]. apply String.eqb_eq in Hu. subst u.
    apply get_count_elements.
Qed.

End PosScorer.

(** ** Facts about the generated n-grams *)

Lemma cons_head_In (c : ascii) (ws : list string) (w : string) :
  In w (Py.cons_head c ws) ->
  (exists w', w = String c w' /\ (ws = [] /\ w' = EmptyString
                                  \/ exists ws', ws = w' :: ws'))
  \/ In w ws.
Proof.
  destruct ws as [|w0 ws]; cbn; intros [<-|H]; try contradiction.
  - left. exists EmptyString. auto.
  - left. exists w0. split; [reflexivity|]. right. now exists ws.
  - right. now right.
Qed.

Lemma split_tokens (s : string) (w : string) :
  In w (Py.split s) ->
  w <> EmptyString /\ all_chars (fun c => negb (Py.is_space c)) w = true.
Proof.
  revert w. induction s as [|c s IH]; intros w; cbn [Py.split];
    [intros []|].
  destruct (Py.is_space c) eqn:Hc; [apply IH|].
  destruct s as [|c' s'].
  - intros [<-|[]]. split; [discriminate|]. cbn. now rewrite Hc.
  - destruct (Py.is_space c') eqn:Hc'.
    + intros [<-|H]; [|now apply IH].
      split; [discriminate|]. cbn. now rewrite Hc.
    + intros H. apply cons_head_In in H.
      destruct H as [(w' & -> & H)|H]; [|now apply IH].
      split; [discriminate|]. cbn [all_chars]. rewrite Hc. cbn.
      destruct H as [[_ ->]|(ws' & E)]; [reflexivity|].
      apply IH. rewrite E. now left.
Qed.

Lemma not_is_space_no_space (w : string) :
  all_chars (fun c => negb (Py.is_space c)) w = true -> no_space w.
Proof.
  unfold no_space. induction w as [|c w IH]; cbn; [reflexivity|].
  intros H. apply andb_true_iff in H. destruct H as [Hc Hw].
  rewrite (IH Hw), andb_true_r.
  destruct (Ascii.eqb_spec c " ") as [->|_]; [discriminate Hc | reflexivity].
Qed.

Lemma slice_incl {A : Type} (l : list A) (start stop : Z) (x : A) :
  In x (Py.slice l start stop) -> In x l.
Proof.
  unfold Py.slice. intros H. apply In_firstn in H.
  rewrite <- (firstn_skipn (Z.to_nat (Py.clamp (Z.of_nat (List.length l)) start)) l).
  apply in_or_app. now right.
Qed.

Lemma range_In (k i : Z) : In i (Py.range k) -> (0 <= i < k)%Z.
Proof.
  unfold Py.range. rewrite in_map_iff. intros (j & <- & Hj).
  apply in_seq in Hj. lia.
Qed.

Lemma windows_In (n : Z) (tokens g : list string) :
  In g (windows n tokens) ->
  (forall x, In x g -> In x tokens)
  /\ ((0 <= n)%Z -> List.length g = Z.to_nat n).
Proof.
  unfold windows.
  destruct (Z.gtb_spec (Z.of_nat (List.length tokens)) n) as [Hm|_];
    [|intros []].
  rewrite in_map_iff. intros (i & <- & Hi). apply range_In in Hi.
  split; [intros x; apply slice_incl|].
  intros Hn.
  rewrite <- (Z2Nat.id i), <- (Z2Nat.id n) by lia.
  rewrite slice_window by lia.
  rewrite length_firstn, length_skipn. lia.
Qed.

Section Generator.

Variable pos_tag : string -> string.
Variable lemmatize : string -> string -> string.
Variable _content : list string.

Lemma get_n_grams_In (n : Z) (grams : list (list string)) (g : list string) :
  _get_n_grams pos_tag lemmatize _content n = Ok grams ->
  In g grams ->
  (forall x, In x g -> no_space x)
  /\ ((0 <= n)%Z -> List.length g = Z.to_nat n).
Proof.
  unfold _get_n_grams. intros H Hg. inv_bind H. inversion H; subst grams.
  apply in_flat_map in Hg. destruct Hg as (sentence & _ & Hg).
  apply in_flat_map in Hg. destruct Hg as (sub & _ & Hg).
  apply windows_In in Hg. destruct Hg as [Htok Hlen].
  split; [|exact Hlen].
  intros x Hx. apply Htok in Hx. unfold fragment_tokens in Hx.
  apply filter_In in Hx. destruct Hx as [Hx _].
  apply split_tokens in Hx. now apply not_is_space_no_space.
Qed.

Lemma get_n_grams_uniform (n : Z) (grams : list (list string)) :
  (0 <= n)%Z ->
  _get_n_grams pos_tag lemmatize _content n = Ok grams -> uniform grams.
Proof.
  intros Hn H u v Hu Hv.
  destruct (get_n_grams_In n grams u H Hu) as [_ Hlu].
  destruct (get_n_grams_In n grams v H Hv) as [_ Hlv].
  rewrite Hlu, Hlv; auto.
Qed.

Lemma get_pos_total (t : string) :
  pos_tag t <> EmptyString -> exists p, _get_pos pos_tag t = Ok p.
Proof.
  unfold _get_pos, first_char. destruct (pos_tag t); [contradiction|].
  intros _. cbn. eauto.
Qed.

(** With a tagger that tags every token, n-gram generation returns for
    every [n]. *)
Lemma get_n_grams_total (n : Z) :
  tags_content pos_tag _content ->
  exists grams, _get_n_grams pos_tag lemmatize _content n = Ok grams.
Proof.
  intros Htag. unfold _get_n_grams, _lemmatize_content.
  destruct (mapM_total (lemmatize_sentence pos_tag lemmatize) _content)
    as (lem & -> & _); [|cbn; eauto].
  intros c Hc. unfold lemmatize_sentence.
  destruct (mapM_total (lemma_of pos_tag lemmatize) (Py.split c))
    as (ws & -> & _); [|cbn; eauto].
  intros t Ht. unfold lemma_of.
  destruct (get_pos_total t (Htag c t Hc Ht)) as [p ->]. cbn. eauto.
Qed.

End Generator.

(** ** PMI scorer: the counting loops *)

Lemma ngram_eqb_spec (u v : list string) : reflect (u = v) (ngram_eqb u v).
Proof.
  revert v. induction u as [|a u IH]; intros [|b v]; cbn;
    try (constructor; congruence).
  destruct (String.eqb_spec a b) as [->|Hne]; cbn.
  - destruct (IH v) as [->|Hne]; constructor; congruence.
  - constructor. congruence.
Qed.

Lemma scan_shift (a b : string) (v value : list string) (c : Z) :
  forall (l : list nat) (counts : list Z),
    foldM (scan_step (b :: value) (a :: v)) (map S l) (c :: counts)
    = (x <- foldM (scan_step value v) l counts ;; Ok (c :: x)).
Proof.
  induction l as [|i l IH]; intros counts; [reflexivity|].
  cbn [map foldM]. unfold scan_step at 1 3, Py.index.
  cbn [nth_error].
  destruct (nth_error v i) as [vi|]; [|reflexivity].
  destruct (nth_error value i) as [xi|]; [|reflexivity].
  cbn [bind].
  destruct (String.eqb vi xi); cbn [bind incr_at]; [|apply IH].
  destruct (incr_at counts i) as [cs|e]; cbn [bind]; [apply IH|reflexivity].
Qed.

Lemma scan_bump :
  forall (v value : list string) (counts : list Z),
    (List.length v <= List.length value)%nat ->
    (List.length v <= List.length counts)%nat ->
    foldM (scan_step value v) (seq 0 (List.length v)) counts
    = Ok (bump v value counts).
Proof.
  induction v as [|a v IH]; intros value counts Hv Hc; [reflexivity|].
  destruct value as [|b value]; [cbn in Hv; lia|].
  destruct counts as [|c counts]; [cbn in Hc; lia|].
  cbn [List.length seq foldM bump]. rewrite <- seq_shift.
  unfold scan_step at 1, Py.index. cbn [nth_error bind].
  cbn in Hv, Hc.
  destruct (String.eqb a b); cbn [incr_at bind];
    rewrite scan_shift, IH by lia; reflexivity.
Qed.

Lemma foldM_In {A S : Type} (f : S -> A -> result S) (l : list A) (s s' : S)
  (a : A) :
  foldM f l s = Ok s' -> In a l -> exists s1 s2, f s1 a = Ok s2.
Proof.
  revert s. induction l as [|b l IH]; intros s H Hin; [contradiction|].
  cbn in H. inv_bind H. destruct Hin as [->|Hin]; eauto.
Qed.

Lemma scan_too_long (v value : list string) (counts counts' : list Z) :
  foldM (scan_step value v) (seq 0 (List.length v)) counts = Ok counts' ->
  (List.length v <= List.length value)%nat.
Proof.
  intros H. destruct v as [|a v]; [cbn; lia|].
  destruct (foldM_In _ _ _ _ (List.length v) H) as (s1 & s2 & Hstep).
  { apply in_seq. cbn. lia. }
  unfold scan_step, Py.index in Hstep.
  destruct (nth_error (a :: v) (List.length v)); [|discriminate Hstep].
  cbn [bind] in Hstep.
  destruct (nth_error value (List.length v)) eqn:E; [|discriminate Hstep].
  assert (nth_error value (List.length v) <> None) as Hn by congruence.
  apply nth_error_Some in Hn. cbn. lia.
Qed.

Lemma bump_app (v value : list string) (ms r : list Z) :
  (List.length v <= List.length ms)%nat ->
  bump v value (ms ++ r) = bump v value ms ++ r.
Proof.
  revert value ms. induction v as [|a v IH]; intros value ms H;
    [reflexivity|].
  destruct value as [|b value]; [reflexivity|].
  destruct ms as [|m ms]; [cbn in H; lia|].
  cbn in *. rewrite IH by lia. reflexivity.
Qed.

Lemma bump_length (v value : list string) (ms : list Z) :
  List.length (bump v value ms) = List.length ms.
Proof.
  revert value ms. induction v as [|a v IH]; intros [|b value] [|m ms];
    cbn; auto.
Qed.

Lemma nth_error_bump (v value : list string) (ms : list Z) (i : nat) :
  nth_error (bump v value ms) i
  = option_map (fun m => if agree_at i value v then (m + 1)%Z else m)
               (nth_error ms i).
Proof.
  revert value ms i.
  induction v as [|a v IH]; intros value ms i.
  - unfold agree_at. rewrite nth_error_nil. cbn.
    now destruct (nth_error ms i).
  - destruct value as [|b value].
    + unfold agree_at. rewrite nth_error_nil. cbn.
      destruct (nth_error (a :: v) i); now destruct (nth_error ms i).
    + destruct ms as [|m ms]; [cbn; now rewrite nth_error_nil|].
      destruct i as [|i]; [reflexivity|].
      cbn [bump nth_error]. rewrite IH. reflexivity.
Qed.

Lemma incr_at_last (ms : list Z) (j : Z) :
  incr_at (ms ++ [j]) (List.length (ms ++ [j]) - 1) = Ok (ms ++ [(j + 1)%Z]).
Proof.
  rewrite length_app. cbn [List.length].
  replace (List.length ms + 1 - 1)%nat with (List.length ms) by lia.
  induction ms as [|m ms IH]; [reflexivity|].
  cbn [List.length app incr_at]. now rewrite IH.
Qed.

Lemma count_row_Ok (value v : list string) (ms : list Z) (j : Z) :
  (List.length v <= List.length value)%nat ->
  List.length ms = List.length value ->
  count_row value (ms ++ [j]) v
  = Ok (bump v value ms
        ++ [(j + if ngram_eqb v value then 1 else 0)%Z]).
Proof.
  intros Hv Hms. unfold count_row.
  change (fun counts i =>
            vi <- Py.index v i ;; xi <- Py.index value i ;;
            if String.eqb vi xi then incr_at counts i else Ok counts)
    with (scan_step value v).
  destruct (ngram_eqb v value).
  - rewrite incr_at_last. cbn [bind].
    rewrite scan_bump by (rewrite ?length_app; lia).
    now rewrite bump_app by lia.
  - cbn [bind]. rewrite scan_bump by (rewrite ?length_app; lia).
    rewrite bump_app by lia. now rewrite Z.add_0_r.
Qed.

Lemma count_row_too_long (value v : list string) (counts counts' : list Z) :
  count_row value counts v = Ok counts' ->
  (List.length v <= List.length value)%nat.
Proof.
  unfold count_row. intros H. inv_bind H.
  now apply scan_too_long in H.
Qed.

Lemma count_matches_fold (value : list string) :
  forall (ngrams : list (list string)) (ms : list Z) (j : Z),
    (forall v, In v ngrams -> (List.length v <= List.length value)%nat) ->
    List.length ms = List.length value ->
    foldM (count_row value) ngrams (ms ++ [j])
    = Ok (fold_left (fun ms v => bump v value ms) ngrams ms
          ++ [(j + Z.of_nat (joint_count ngrams value))%Z]).
Proof.
  induction ngrams as [|v ngrams IH]; intros ms j Hlen Hms.
  - cbn. now rewrite Z.add_0_r.
  - cbn [foldM fold_left].
    rewrite count_row_Ok by (auto; apply Hlen; now left). cbn [bind].
    rewrite IH; [|intros; apply Hlen; now right
                 |now rewrite bump_length].
    do 3 f_equal. unfold joint_count, count_if. cbn [filter].
    destruct (ngram_eqb v value); cbn [List.length]; lia.
Qed.

Lemma nth_error_fold_bump (value : list string) (i : nat) :
  forall (ngrams : list (list string)) (ms : list Z),
    nth_error (fold_left (fun ms v => bump v value ms) ngrams ms) i
    = option_map (fun m => (m + Z.of_nat (marginal_count ngrams value i))%Z)
                 (nth_error ms i).
Proof.
  induction ngrams as [|v ngrams IH]; intros ms.
  - cbn. destruct (nth_error ms i); cbn; [f_equal; lia | reflexivity].
  - cbn [fold_left]. rewrite IH, nth_error_bump.
    unfold marginal_count, count_if. cbn [filter].
    destruct (nth_error ms i) as [m|]; [|reflexivity]. cbn [option_map].
    f_equal. destruct (agree_at i value v); cbn [List.length]; lia.
Qed.

(** The counts that the inner loop of the scorer leaves are the positional
    marginal counts followed by the joint count. *)
Lemma count_matches_Ok (ngrams : list (list string)) (value : list string) :
  (forall v, In v ngrams -> (List.length v <= List.length value)%nat) ->
  count_matches ngrams value
  = Ok (marginal_counts ngrams value
        ++ [Z.of_nat (joint_count ngrams value)]).
Proof.
  intros Hlen. unfold count_matches.
  rewrite count_matches_fold by (auto; apply length_map).
  do 2 f_equal. apply nth_error_ext. intros i.
  rewrite nth_error_fold_bump. unfold marginal_counts.
  rewrite !nth_error_map, nth_error_seq.
  destruct (Nat.ltb_spec i (List.length value)) as [Hi|Hi].
  - destruct (nth_error value i) eqn:E; [reflexivity|].
    apply nth_error_None in E. lia.
  - apply nth_error_None in Hi. now rewrite Hi.
Qed.

Lemma count_matches_too_long (ngrams : list (list string))
  (value : list string) (counts : list Z) :
  count_matches ngrams value = Ok counts ->
  forall v, In v ngrams -> (List.length v <= List.length value)%nat.
Proof.
  intros H v Hv. unfold count_matches in H.
  destruct (foldM_In _ _ _ _ v H Hv) as (s1 & s2 & Hrow).
  now apply count_row_too_long in Hrow.
Qed.

(** ** PMI scorer: the arithmetic *)

Lemma count_if_le {A : Type} (p q : A -> bool) (l : list A) :
  (forall x, In x l -> p x = true -> q x = true) ->
  (count_if p l <= count_if q l)%nat.
Proof.
  unfold count_if. induction l as [|x l IH]; intros H; [cbn; lia|].
  cbn [filter].
  assert (IH' : (List.length (filter p l) <= List.length (filter q l))%nat)
    by (apply IH; intros; apply H; auto; now right).
  destruct (p x) eqn:Hp.
  - rewrite (H x (or_introl eq_refl) Hp). cbn. lia.
  - destruct (q x); cbn; lia.
Qed.

Lemma count_if_length {A : Type} (p : A -> bool) (l : list A) :
  (count_if p l <= List.length l)%nat.
Proof. apply filter_length_le. Qed.

Lemma joint_le_total (ngrams : list (list string)) (value : list string) :
  (joint_count ngrams value <= List.length ngrams)%nat.
Proof. apply count_if_length. Qed.

Lemma joint_le_marginal (ngrams : list (list string)) (value : list string)
  (i : nat) :
  (i < List.length value)%nat ->
  (joint_count ngrams value <= marginal_count ngrams value i)%nat.
Proof.
  intros Hi. apply count_if_le. intros u _ Hu.
  destruct (ngram_eqb_spec u value) as [E|]; [subst u|discriminate].
  unfold agree_at. destruct (nth_error value i) eqn:E.
  - apply String.eqb_refl.
  - apply nth_error_None in E. lia.
Qed.

Lemma marginal_counts_ge (ngrams : list (list string)) (value : list string) :
  Forall (fun c => (Z.of_nat (joint_count ngrams value) <= c)%Z)
         (marginal_counts ngrams value).
Proof.
  unfold marginal_counts. rewrite Forall_map, Forall_forall.
  intros i Hi. apply in_seq in Hi.
  apply inj_le, joint_le_marginal. lia.
Qed.

Lemma last_count_app (ms : list Z) (j : Z) : last_count (ms ++ [j]) = Ok j.
Proof.
  unfold last_count, Py.index. rewrite length_app. cbn [List.length].
  rewrite nth_error_app2 by lia.
  replace (List.length ms + 1 - 1 - List.length ms)%nat with 0%nat by lia.
  reflexivity.
Qed.

Lemma true_div_Ok (a b : R) : b <> 0%R -> true_div a b = Ok (a / b)%R.
Proof.
  intros Hb. unfold true_div. now destruct (Req_dec_T b 0).
Qed.

Lemma math_log_Ok (x : R) : (0 < x)%R -> math_log x = Ok (ln x).
Proof.
  intros Hx. unfold math_log. destruct (Rle_dec x 0); [lra | reflexivity].
Qed.

Lemma p_other_foldM (total : Z) (counts : list Z) :
  IZR total <> 0%R ->
  forall p,
    foldM (fun p_other c => true_div (p_other * IZR c)%R (IZR total)) counts p
    = Ok (fold_left (fun p c => (p * IZR c / IZR total)%R) counts p).
Proof.
  intros Ht. induction counts as [|c counts IH]; intros p; [reflexivity|].
  cbn [foldM fold_left]. rewrite true_div_Ok by exact Ht. cbn [bind].
  apply IH.
Qed.

Lemma p_other_pos (total : Z) (counts : list Z) :
  (0 < total)%Z -> Forall (fun c => (0 < c)%Z) counts ->
  forall p, (0 < p)%R ->
    (0 < fold_left (fun p c => (p * IZR c / IZR total)%R) counts p)%R.
Proof.
  intros Ht Hall. induction Hall as [|c counts Hc _ IH]; intros p Hp;
    [exact Hp|].
  cbn [fold_left]. apply IH.
  apply Rdiv_lt_0_compat; [apply Rmult_lt_0_compat|]; auto;
    now apply IZR_lt.
Qed.

Lemma p_other_product (total : nat) (f : nat -> nat) (idx : list nat) :
  forall p,
    fold_left (fun p c => (p * IZR c / IZR (Z.of_nat total))%R)
              (map (fun i => Z.of_nat (f i)) idx) p
    = (p * Rprod (map (fun i => INR (f i) / INR total) idx))%R.
Proof.
  induction idx as [|i idx IH]; intros p.
  - cbn. ring.
  - cbn [map fold_left Rprod fold_right]. rewrite IH.
    fold (Rprod (map (fun i => (INR (f i) / INR total)%R) idx)).
    rewrite <- !INR_IZR_INZ. unfold Rdiv. ring.
Qed.

Lemma pim_step_Ok (ngrams : list (list string)) (c : counter R)
  (value : list string) :
  (forall v, In v ngrams -> (List.length v <= List.length value)%nat) ->
  pim_step ngrams c value
  = Ok (if pim_qualifies ngrams value
        then update Rplus 0%R c (Py.join " " value) (pmi ngrams value)
        else c).
Proof.
  intros Hlen. unfold pim_step, pim_qualifies.
  rewrite (count_matches_Ok ngrams value Hlen). cbn [bind].
  rewrite last_count_app. cbn [bind].
  pose proof (joint_le_total ngrams value) as Htot.
  pose proof (marginal_counts_ge ngrams value) as Hmarg.
  destruct (Z.gtb_spec (Z.of_nat (joint_count ngrams value)) 2) as [Hj|Hj];
    destruct (Nat.ltb_spec 2 (joint_count ngrams value)) as [Hj'|Hj'];
    try lia; [|reflexivity].
  assert (Ht : IZR (Z.of_nat (List.length ngrams)) <> 0%R)
    by (apply not_0_IZR; lia).
  rewrite true_div_Ok by exact Ht. cbn [bind].
  rewrite removelast_last, p_other_foldM by exact Ht. cbn [bind].
  assert (Hp : (0 < fold_left
                       (fun p c =>
                          (p * IZR c / IZR (Z.of_nat (List.length ngrams)))%R)
                       (marginal_counts ngrams value) 1)%R).
  { apply p_other_pos; [lia| |lra].
    eapply Forall_impl; [|exact Hmarg]. cbn. intros; lia. }
  rewrite true_div_Ok by lra. cbn [bind].
  rewrite math_log_Ok.
  - cbn [bind]. do 3 f_equal. unfold pmi, marginal_counts.
    rewrite p_other_product, <- !INR_IZR_INZ. f_equal. f_equal. ring.
  - apply Rdiv_lt_0_compat; [|exact Hp].
    apply Rdiv_lt_0_compat; apply IZR_lt; lia.
Qed.

Lemma pim_step_too_long (ngrams : list (list string)) (c c' : counter R)
  (value : list string) :
  pim_step ngrams c value = Ok c' ->
  forall v, In v ngrams -> (List.length v <= List.length value)%nat.
Proof.
  unfold pim_step. intros H. inv_bind H.
  now apply count_matches_too_long with (counts := a).
Qed.

Lemma foldM_accumulate_total {A V : Type} (add : V -> V -> V) (zero : V)
  (key : A -> string) (q : A -> bool) (w : A -> V)
  (step : counter V -> A -> result (counter V)) :
  forall l : list A,
    (forall c v, In v l ->
       step c v = Ok (if q v then update add zero c (key v) (w v) else c)) ->
    forall c, foldM step l c = Ok (accumulate add zero key q w l c).
Proof.
  induction l as [|v l IH]; intros Hstep c; [reflexivity|].
  cbn [foldM]. rewrite Hstep by now left. cbn [bind].
  apply IH. intros; apply Hstep; now right.
Qed.

(** On n-grams of one length the scorer returns, and its counter is the
    scan that adds [pmi value] for every occurrence above the threshold. *)
Lemma pim_scores_uniform (ngrams : list (list string)) :
  uniform ngrams ->
  pim_scores ngrams
  = Ok (accumulate Rplus 0%R (Py.join " ") (pim_qualifies ngrams)
          (pmi ngrams) ngrams []).
Proof.
  intros Hu. unfold pim_scores. apply foldM_accumulate_total.
  intros c value Hvalue. apply pim_step_Ok.
  intros v Hv. rewrite (Hu v value Hv Hvalue). lia.
Qed.

(** The scorer returns on no other lists. *)
Lemma pim_scores_Ok_uniform (ngrams : list (list string)) (c : counter R) :
  pim_scores ngrams = Ok c -> uniform ngrams.
Proof.
  intros H.
  assert (Hle : forall u v, In u ngrams -> In v ngrams ->
                            (List.length u <= List.length v)%nat).
  { intros u v Hu Hv.
    destruct (foldM_In _ _ _ _ v H Hv) as (c1 & c2 & Hstep).
    now apply (pim_step_too_long _ _ _ _ Hstep). }
  intros u v Hu Hv. apply Nat.le_antisymm; auto.
Qed.

(** ** Topic strings determine their n-grams *)

Lemma split_on_no_space (a : string) :
  no_space a -> Py.split_on " " a = [a].
Proof.
  unfold no_space. induction a as [|c a IH]; cbn [Py.split_on all_chars];
    [reflexivity|].
  intros H. apply andb_true_iff in H. destruct H as [Hc Ha].
  apply negb_true_iff in Hc. rewrite Hc, (IH Ha). reflexivity.
Qed.

Lemma split_on_space_app (a r : string) :
  no_space a ->
  Py.split_on " " (a ++ String " " r)%string = a :: Py.split_on " " r.
Proof.
  unfold no_space. induction a as [|c a IH];
    cbn [Py.split_on all_chars String.append]; [reflexivity|].
  intros H. apply andb_true_iff in H. destruct H as [Hc Ha].
  apply negb_true_iff in Hc. rewrite Hc, (IH Ha). reflexivity.
Qed.

Lemma join_cons (a b : string) (l : list string) :
  Py.join " " (a :: b :: l) = (a ++ String " " (Py.join " " (b :: l)))%string.
Proof. reflexivity. Qed.

(** Splitting a joined n-gram at the spaces gives its tokens back. *)
Lemma split_join (l : list string) :
  l <> [] -> (forall x, In x l -> no_space x) ->
  Py.split_on " " (Py.join " " l) = l.
Proof.
  induction l as [|a l IH]; intros Hne Hl; [contradiction|].
  destruct l as [|b l].
  - apply split_on_no_space, Hl. now left.
  - rewrite join_cons, split_on_space_app by (apply Hl; now left).
    f_equal. apply IH; [discriminate|]. intros; apply Hl; now right.
Qed.

Lemma join_inj (u v : list string) :
  List.length u = List.length v ->
  (forall x, In x u -> no_space x) -> (forall x, In x v -> no_space x) ->
  Py.join " " u = Py.join " " v -> u = v.
Proof.
  intros Hlen Hu Hv E.
  destruct u as [|a u]; destruct v as [|b v]; try discriminate Hlen;
    [reflexivity|].
  rewrite <- (split_join (a :: u)), <- (split_join (b :: v)), E;
    auto; discriminate.
Qed.

(** ** POS-pattern scorer: when it returns *)

Section PosScorerTotal.

Variable pos_tag : string -> string.

Hypothesis pos_tag_nonempty : forall t, pos_tag t <> EmptyString.

Lemma tag_in_total (w : string) (cs : list ascii) :
  tag_in pos_tag w cs = Ok (startswith_any (pos_tag w) cs).
Proof.
  unfold tag_in, first_char, startswith_any.
  pose proof (pos_tag_nonempty w). now destruct (pos_tag w).
Qed.

Lemma pos_step3_total (freq c : counter Z) (value : string) :
  (3 <= List.length (Py.split_on " " value))%nat ->
  pos_step3 pos_tag freq c value
  = Ok (if qualifies3 pos_tag value
        then update Z.add 0%Z c value (get 0%Z freq value) else c).
Proof.
  unfold pos_step3, word, qualifies3, Py.index.
  destruct (Py.split_on " " value) as [|w1 [|w2 [|w3 ws]]]; cbn;
    try lia.
  intros _. rewrite !tag_in_total. unfold andM. cbn [bind].
  destruct (startswith_any (pos_tag w1) ["J"%char; "N"%char]); cbn [bind andb];
    [|reflexivity].
  now destruct (startswith_any (pos_tag w3) ["J"%char; "N"%char]).
Qed.

Lemma pos_step2_total (freq c : counter Z) (value : string) :
  (2 <= List.length (Py.split_on " " value))%nat ->
  pos_step2 pos_tag freq c value
  = Ok (if qualifies2 pos_tag value
        then update Z.add 0%Z c value (get 0%Z freq value) else c).
Proof.
  unfold pos_step2, word, qualifies2, Py.index.
  destruct (Py.split_on " " value) as [|w1 [|w2 ws]]; cbn; try lia.
  intros _. rewrite !tag_in_total. unfold andM, orM. cbn [bind].
  destruct (startswith_any (pos_tag w1) ["N"%char]),
           (startswith_any (pos_tag w2) ["N"%char]),
           (startswith_any (pos_tag w1) ["J"%char]); reflexivity.
Qed.

(** On joined n-grams of [n] space-free tokens, [n] being 2 or 3, the
    scorer returns. *)
Lemma pos_scores_total (n : Z) (grams : list (list string)) :
  (n = 2 \/ n = 3)%Z ->
  (forall g, In g grams ->
             List.length g = Z.to_nat n /\ forall x, In x g -> no_space x) ->
  exists c, pos_scores pos_tag n (map (Py.join " ") grams) = Ok c.
Proof.
  intros Hn Hg.
  assert (Hw : forall value, In value (map (Py.join " ") grams) ->
                 List.length (Py.split_on " " value) = Z.to_nat n).
  { intros value Hv. apply in_map_iff in Hv. destruct Hv as (g & <- & Hin).
    destruct (Hg g Hin) as [Hlen Htok].
    rewrite split_join; auto. intros ->. cbn in Hlen. lia. }
  unfold pos_scores. destruct Hn as [-> | ->]; cbn [Z.eqb Pos.eqb].
  - eexists. apply foldM_accumulate_total with (key := fun v => v).
    intros c v Hv. apply pos_step2_total. rewrite (Hw v Hv). cbn. lia.
  - eexists. apply foldM_accumulate_total with (key := fun v => v).
    intros c v Hv. apply pos_step3_total. rewrite (Hw v Hv). cbn. lia.
Qed.

End PosScorerTotal.

(** ** PMI scorer: the entries of the counter *)

Lemma fold_left_weights_R {A : Type} (w : A -> R) (x : R) (vs : list A) :
  (forall v, In v vs -> w v = x) ->
  forall z, fold_left (fun s v => (w v + s)%R) vs z
            = (z + INR (List.length vs) * x)%R.
Proof.
  induction vs as [|v vs IH]; intros Hw z.
  - cbn. ring.
  - cbn [fold_left]. rewrite IH by (intros; apply Hw; now right).
    rewrite (Hw v) by now left.
    change (List.length (v :: vs)) with (S (List.length vs)).
    rewrite S_INR. ring.
Qed.

Lemma pim_entry (grams : list (list string)) (t : string) (s : R) :
  uniform grams ->
  (forall g x, In g grams -> In x g -> no_space x) ->
  In (t, s) (accumulate Rplus 0%R (Py.join " ") (pim_qualifies grams)
               (pmi grams) grams []) ->
  exists v,
    In v grams /\ t = Py.join " " v
    /\ topic_count grams t = joint_count grams v
    /\ (2 < joint_count grams v)%nat
    /\ s = (INR (joint_count grams v) * pmi grams v)%R.
Proof.
  intros Hu Htok Hin.
  apply lookup_In in Hin;
    [|apply (accumulate_NoDup R Rplus 0%R Rplus_0_r)].
  rewrite (lookup_accumulate R Rplus 0%R Rplus_0_r) in Hin.
  assert (Hc : forall v,
             In v (contributors (Py.join " ") (pim_qualifies grams) t grams) ->
             In v grams /\ pim_qualifies grams v = true
             /\ Py.join " " v = t).
  { intros v Hv. apply filter_In in Hv. destruct Hv as [Hv Hq].
    apply andb_true_iff in Hq. destruct Hq as [Hq He].
    apply String.eqb_eq in He. auto. }
  destruct (contributors (Py.join " ") (pim_qualifies grams) t grams)
    as [|v0 vs] eqn:E; [discriminate Hin|].
  destruct (Hc v0 (or_introl eq_refl)) as (Hv0 & Hq0 & Ht0).
  assert (Hsame : forall u, In u grams -> Py.join " " u = t -> u = v0).
  { intros u Hu' Hj. apply join_inj; eauto; congruence. }
  assert (Hcount : forall p,
             (forall u, In u grams -> p u = ngram_eqb u v0) ->
             count_if p grams = joint_count grams v0).
  { intros p Hp. unfold joint_count, count_if. f_equal.
    now apply filter_ext_in. }
  exists v0. split; [exact Hv0|]. split; [now symmetry|].
  split; [|split].
  - apply Hcount. intros u Hu'.
    destruct (ngram_eqb_spec u v0) as [->|Hne].
    + now apply String.eqb_eq.
    + apply String.eqb_neq. intros Hj. now apply Hne, Hsame.
  - now apply Nat.ltb_lt.
  - assert (Hl : List.length (v0 :: vs) = joint_count grams v0).
    { rewrite <- E. unfold contributors.
      apply (Hcount (fun v => pim_qualifies grams v
                              && String.eqb (Py.join " " v) t)).
      intros u Hu'. destruct (ngram_eqb_spec u v0) as [->|Hne].
      - rewrite Hq0. now apply String.eqb_eq.
      - apply andb_false_iff. right.
        apply String.eqb_neq. intros Hj. now apply Hne, Hsame. }
    rewrite fold_left_weights_R with (x := pmi grams v0) in Hin.
    + rewrite Hl in Hin. injection Hin as Hs.
      rewrite <- Hs. unfold get. cbn [lookup]. ring.
    + intros u Hu'. destruct (Hc u Hu') as (Hg & _ & Hj).
      now rewrite (Hsame u Hg Hj).
Qed.

(** ** Exceptions of the PMI scorer *)

Lemma only_IndexError_bind {A B : Type} (m : result A) (k : A -> result B) :
  only_IndexError m -> (forall a, m = Ok a -> only_IndexError (k a)) ->
  only_IndexError (bind m k).
Proof.
  destruct m as [a|e]; cbn; intros Hm Hk; [now apply Hk | exact Hm].
Qed.

Lemma only_IndexError_foldM {A S : Type} (f : S -> A -> result S)
  (l : list A) :
  (forall s a, In a l -> only_IndexError (f s a)) ->
  forall s, only_IndexError (foldM f l s).
Proof.
  induction l as [|a l IH]; intros Hf s; cbn; [exact I|].
  apply only_IndexError_bind; [apply Hf; now left|].
  intros s' _. apply IH. intros; apply Hf; now right.
Qed.

Lemma only_IndexError_mapM {A B : Type} (f : A -> result B) (l : list A) :
  (forall a, only_IndexError (f a)) -> only_IndexError (mapM f l).
Proof.
  intros Hf. induction l as [|a l IH]; cbn; [exact I|].
  apply only_IndexError_bind; [apply Hf|]. intros b _.
  apply only_IndexError_bind; [exact IH|]. intros bs _. exact I.
Qed.

Lemma only_IndexError_index {A : Type} (l : list A) (i : nat) :
  only_IndexError (Py.index l i).
Proof. unfold Py.index. now destruct (nth_error l i). Qed.

Lemma only_IndexError_incr_at (counts : list Z) (i : nat) :
  only_IndexError (incr_at counts i).
Proof.
  revert i. induction counts as [|c counts IH]; intros i; cbn;
    [reflexivity|].
  destruct i as [|i]; [exact I|].
  apply only_IndexError_bind; [apply IH | intros; exact I].
Qed.

Lemma only_IndexError_count_matches (ngrams : list (list string))
  (value : list string) :
  only_IndexError (count_matches ngrams value).
Proof.
  unfold count_matches. apply only_IndexError_foldM. intros counts v _.
  unfold count_row. apply only_IndexError_bind.
  - destruct (ngram_eqb v value); [apply only_IndexError_incr_at | exact I].
  - intros counts' _. apply only_IndexError_foldM. intros cs i _.
    apply only_IndexError_bind; [apply only_IndexError_index|].
    intros vi _.
    apply only_IndexError_bind; [apply only_IndexError_index|].
    intros xi _.
    destruct (String.eqb vi xi); [apply only_IndexError_incr_at | exact I].
Qed.

Lemma only_IndexError_pim_scores (ngrams : list (list string)) :
  only_IndexError (pim_scores ngrams).
Proof.
  unfold pim_scores. apply only_IndexError_foldM. intros c value _.
  pose proof (only_IndexError_count_matches ngrams value) as Hcm.
  destruct (count_matches ngrams value) as [counts|e] eqn:E.
  - rewrite pim_step_Ok; [exact I|].
    now apply count_matches_too_long with (counts := counts).
  - unfold pim_step. rewrite E. exact Hcm.
Qed.

Lemma only_IndexError_get_n_grams (pos_tag : string -> string)
  (lemmatize : string -> string -> string) (content : list string) (n : Z) :
  only_IndexError (_get_n_grams pos_tag lemmatize content n).
Proof.
  unfold _get_n_grams. apply only_IndexError_bind; [|intros; exact I].
  apply only_IndexError_mapM. intros c.
  apply only_IndexError_bind; [|intros; exact I].
  apply only_IndexError_mapM. intros t.
  apply only_IndexError_bind; [|intros; exact I].
  unfold _get_pos. apply only_IndexError_bind; [|intros; exact I].
  unfold first_char. now destruct (pos_tag t).
Qed.

(** ** Evaluating the scorers on the examples *)

Lemma uniform_check (k : nat) (grams : list (list string)) :
  forallb (fun g => (List.length g =? k)%nat) grams = true -> uniform grams.
Proof.
  rewrite forallb_forall. intros H u v Hu Hv.
  apply H, Nat.eqb_eq in Hu. apply H, Nat.eqb_eq in Hv. congruence.
Qed.

Lemma keys_singleton {V : Type} (c : counter V) (k : string) :
  keys c = [k] -> exists s, c = [(k, s)].
Proof.
  destruct c as [|[k0 s] [|x c]]; cbn; intros H; inversion H.
  now exists s.
Qed.

Lemma pim_keys (grams : list (list string)) :
  keys (accumulate Rplus 0%R (Py.join " ") (pim_qualifies grams)
          (pmi grams) grams [])
  = first_seen [] (map (Py.join " ") (filter (pim_qualifies grams) grams)).
Proof. apply (keys_accumulate R Rplus 0%R Rplus_0_r). Qed.

Lemma pim_based_topics_scores (pos_tag : string -> string)
  (lemmatize : string -> string -> string) (content : list string) (n : Z)
  (number : option Z) (grams : list (list string)) :
  _get_n_grams pos_tag lemmatize content n = Ok grams ->
  uniform grams ->
  pim_based_topics pos_tag lemmatize content n number
  = Ok (most_common Rltb (if truthy number then number else None)
          (accumulate Rplus 0%R (Py.join " ") (pim_qualifies grams)
             (pmi grams) grams [])).
Proof.
  intros Hg Hu. unfold pim_based_topics. rewrite Hg. cbn [bind].
  rewrite (pim_scores_uniform grams Hu). cbn [bind].
  now destruct (truthy number).
Qed.

Lemma ml_bigrams_generated :
  _get_n_grams Example.pos_tag Example.lemmatize Example.ml_content 2
  = Ok Example.ml_bigrams.
Proof. reflexivity. Qed.

Lemma fox_bigrams_generated :
  _get_n_grams Example.pos_tag Example.lemmatize Example.fox_content 2
  = Ok Example.fox_bigrams.
Proof. reflexivity. Qed.

Lemma ml_bigrams_uniform : uniform Example.ml_bigrams.
Proof. now apply (uniform_check 2). Qed.

(** On the machine-learning example the scorer has one candidate; it is
    returned for no limit, for the limit [0] and for every positive limit. *)
Lemma ml_pim_result (number : option Z) :
  (forall z, number = Some z -> (0 <= z)%Z) ->
  exists s,
    pim_based_topics Example.pos_tag Example.lemmatize Example.ml_content 2
      number
    = Ok [("machine learning", s)].
Proof.
  intros Hz.
  rewrite (pim_based_topics_scores _ _ _ _ _ _ ml_bigrams_generated
             ml_bigrams_uniform).
  destruct (keys_singleton _ "machine learning"
              (pim_keys Example.ml_bigrams)) as [s ->].
  exists s. destruct number as [z|]; [|reflexivity].
  specialize (Hz z eq_refl). cbn [truthy].
  destruct (Z.eqb_spec z 0) as [->|Hne]; [reflexivity|].
  cbn [negb most_common sorted_desc fold_right insert_desc].
  destruct (Z.to_nat z) as [|k] eqn:E; [lia|].
  cbn [firstn]. now rewrite firstn_nil.
Qed.

Lemma example_tags_content (content : list string) :
  tags_content Example.pos_tag content.
Proof.
  intros c t _ _. unfold Example.pos_tag.
  repeat match goal with
         | |- context [if ?b then _ else _] => destruct b
         end; discriminate.
Qed.

(** * The claims about the two scorers *)

Section Claims.

Variable pos_tag : string -> string.
Variable lemmatize : string -> string -> string.
Variable content : list string.

Lemma pim_based_topics_inv (n : Z) (number : option Z)
  (grams : list (list string)) (res : list (string * R)) :
  _get_n_grams pos_tag lemmatize content n = Ok grams ->
  pim_based_topics pos_tag lemmatize content n number = Ok res ->
  let c := accumulate Rplus 0%R (Py.join " ") (pim_qualifies grams)
             (pmi grams) grams [] in
  uniform grams /\ pim_scores grams = Ok c
  /\ res = most_common Rltb (if truthy number then number else None) c.
Proof.
  intros Hg Hres.
  assert (Hu : uniform grams).
  { unfold pim_based_topics in Hres. rewrite Hg in Hres. cbn [bind] in Hres.
    inv_bind Hres. now apply pim_scores_Ok_uniform in Ha. }
  rewrite (pim_based_topics_scores _ _ _ _ _ _ Hg Hu) in Hres.
  split; [exact Hu|]. split; [now apply pim_scores_uniform|].
  now inversion Hres.
Qed.

Lemma pos_based_topics_inv (n : Z) (number : option Z)
  (grams : list (list string)) (res : list (string * Z)) :
  _get_n_grams pos_tag lemmatize content n = Ok grams ->
  pos_based_topics pos_tag lemmatize content n number = Ok res ->
  exists c,
    pos_scores pos_tag n (map (Py.join " ") grams) = Ok c
    /\ res = most_common Z.ltb number c.
Proof.
  intros Hg Hres. unfold pos_based_topics in Hres. rewrite Hg in Hres.
  cbn [bind] in Hres. inv_bind Hres. exists a. split; [exact Ha|].
  now inversion Hres.
Qed.


(** C8: an occurrence whose joint count is at most 2 leaves the scores as
    they are, and a topic that [pim_based_topics] returns occurs more than
    twice in the flat n-gram list, whatever [n] and [number] are. *)
Theorem pim_excludes_rare_topics (n : Z) (number : option Z)
  (grams : list (list string)) :
  _get_n_grams pos_tag lemmatize content n = Ok grams ->
  (forall c value c',
      pim_step grams c value = Ok c' ->
      (joint_count grams value <= 2)%nat -> c' = c)
  /\ (forall res t s,
        pim_based_topics pos_tag lemmatize content n number = Ok res ->
        In (t, s) res ->
        (2 < topic_count grams t)%nat).
Proof.
  intros Hg. split.
  - intros c value c' Hstep Hj.
    rewrite pim_step_Ok in Hstep
      by (now apply (pim_step_too_long _ _ _ _ Hstep)).
    unfold pim_qualifies in Hstep.
    destruct (Nat.ltb_spec 2 (joint_count grams value)); [lia|].
    now inversion Hstep.
  - intros res t s Hres Hin.
    destruct (pim_based_topics_inv n number grams res Hg Hres)
      as (Hu & _ & ->).
    apply most_common_incl in Hin.
    apply pim_entry in Hin; [|exact Hu|].
    + destruct Hin as (v & _ & _ & Hc & Hj & _). now rewrite Hc.
    + intros g x Hgin Hx.
      destruct (get_n_grams_In _ _ _ n grams g Hg Hgin) as [Htok _]. auto.
Qed.

(** C2: the POS-pattern scorer adds, for every occurrence of a qualifying
    string, the number of occurrences of that string in the list of
    space-joined n-grams; every topic that [pos_based_topics] returns has as
    score the square of that number (and [n] is 2 or 3). *)
Theorem pos_score_is_occurrences_squared (n : Z) (number : option Z)
  (grams : list (list string)) :
  _get_n_grams pos_tag lemmatize content n = Ok grams ->
  let ngrams := map (Py.join " ") grams in
  (forall c,
      pos_scores pos_tag n ngrams = Ok c ->
      c = accumulate Z.add 0%Z (fun v => v) (qualifies pos_tag n)
            (fun v => Z.of_nat (occurrences v ngrams)) ngrams [])
  /\ (forall res t s,
        pos_based_topics pos_tag lemmatize content n number = Ok res ->
        In (t, s) res ->
        (n = 2 \/ n = 3)%Z
        /\ s = (Z.of_nat (occurrences t ngrams) ^ 2)%Z).
Proof.
  intros Hg ngrams. split.
  - intros c Hc. apply pos_scores_Ok in Hc. destruct Hc as [_ ->].
    apply accumulate_ext. intros v _. apply get_count_elements.
  - intros res t s Hres Hin.
    destruct (pos_based_topics_inv n number grams res Hg Hres)
      as (c & Hc & ->).
    apply most_common_incl in Hin.
    split; [now apply pos_scores_Ok in Hc|].
    destruct (pos_scores_square pos_tag n _ c t s Hc Hin) as (_ & _ & ->).
    now rewrite Z.pow_2_r.
Qed.

(** Both scorers return: the PMI scorer for every [n >= 0], the POS-pattern
    scorer for [n] in {2, 3}, when the tagger tags every word. *)
Lemma scorers_return (n : Z) (number : option Z) :
  (forall t, pos_tag t <> EmptyString) ->
  ((0 <= n)%Z ->
   exists res, pim_based_topics pos_tag lemmatize content n number = Ok res)
  /\ ((n = 2 \/ n = 3)%Z ->
      exists res, pos_based_topics pos_tag lemmatize content n number = Ok res).
Proof.
  intros Htag.
  destruct (get_n_grams_total pos_tag lemmatize content n) as [grams Hg].
  { intros c t _ _. apply Htag. }
  split; intros Hn.
  - rewrite (pim_based_topics_scores _ _ _ _ _ _ Hg). { eauto. }
    exact (get_n_grams_uniform pos_tag lemmatize content n grams Hn Hg).
  - unfold pos_based_topics. rewrite Hg. cbn [bind].
    destruct (pos_scores_total pos_tag Htag n grams Hn) as [c ->];
      [|cbn; eauto].
    intros g Hin.
    destruct (get_n_grams_In _ _ _ n grams g Hg Hin) as [Htok Hlen].
    split; [apply Hlen; lia | exact Htok].
Qed.

(** C4: for [n] other than 2 and 3 the POS-pattern scorer raises the
    [ValueError] whatever the n-gram list is, so nothing is scored, and
    [pos_based_topics] raises it for every content whose tokens the tagger
    tags. *)
Theorem pos_rejects_other_n (n : Z) (number : option Z) :
  tags_content pos_tag content ->
  n <> 2%Z -> n <> 3%Z ->
  (forall ngrams, pos_scores pos_tag n ngrams = Raise invalid_n)
  /\ pos_based_topics pos_tag lemmatize content n number = Raise invalid_n.
Proof.
  intros Htag H2 H3. split.
  - intros ngrams. now apply pos_scores_invalid.
  - unfold pos_based_topics.
    destruct (get_n_grams_total pos_tag lemmatize content n Htag)
      as [grams ->].
    cbn [bind]. now rewrite pos_scores_invalid.
Qed.


(** C10: the topic strings of a returned sequence are pairwise distinct,
    for both scorers. *)
Theorem returned_topics_are_distinct (n : Z) (number : option Z) :
  (forall res,
      pim_based_topics pos_tag lemmatize content n number = Ok res ->
      NoDup (keys res))
  /\ (forall res,
        pos_based_topics pos_tag lemmatize content n number = Ok res ->
        NoDup (keys res)).
Proof.
  split; intros res Hres.
  - destruct (_get_n_grams pos_tag lemmatize content n) as [grams|e] eqn:Hg;
      [|unfold pim_based_topics in Hres; now rewrite Hg in Hres].
    destruct (pim_based_topics_inv n number grams res Hg Hres)
      as (_ & _ & ->).
    apply most_common_NoDup, (accumulate_NoDup R Rplus 0%R Rplus_0_r).
  - destruct (_get_n_grams pos_tag lemmatize content n) as [grams|e] eqn:Hg;
      [|unfold pos_based_topics in Hres; now rewrite Hg in Hres].
    destruct (pos_based_topics_inv n number grams res Hg Hres)
      as (c & Hc & ->).
    apply pos_scores_Ok in Hc. destruct Hc as [_ ->].
    apply most_common_NoDup, (accumulate_NoDup Z Z.add 0%Z Z.add_0_r).
Qed.


End Claims.

(** ** The claims on the examples *)

Lemma ml_pmi : pmi Example.ml_bigrams ["machine"; "learning"] = ln 2.
Proof.
  unfold pmi, Rprod.
  change (joint_count Example.ml_bigrams ["machine"; "learning"]) with 3%nat.
  change (List.length Example.ml_bigrams) with 6%nat.
  change (seq 0 (List.length ["machine"; "learning"])) with [0%nat; 1%nat].
  cbn [map fold_right].
  change (marginal_count Example.ml_bigrams ["machine"; "learning"] 0)
    with 3%nat.
  change (marginal_count Example.ml_bigrams ["machine"; "learning"] 1)
    with 3%nat.
  f_equal. rewrite !INR_IZR_INZ. cbn [Z.of_nat Pos.of_succ_nat Pos.succ].
  field.
Qed.


Lemma pim_excludes_rare_topics_witness :
  exists s,
    pim_based_topics Example.pos_tag Example.lemmatize Example.ml_content 2
      None
    = Ok [("machine learning", s)]
    /\ (2 < topic_count Example.ml_bigrams "machine learning")%nat.
Proof.
  destruct (ml_pim_result None) as [s Hs]; [discriminate|].
  exists s. split; [exact Hs|].
  destruct (pim_excludes_rare_topics Example.pos_tag Example.lemmatize
              Example.ml_content 2 None Example.ml_bigrams
              ml_bigrams_generated) as [_ H].
  apply (H [("machine learning", s)] "machine learning" s Hs).
  now left.
Defined.

Lemma pos_score_is_occurrences_squared_witness :
  pos_based_topics Example.pos_tag Example.lemmatize Example.fox_content 2
    (Some 5%Z)
  = Ok [("brown fox", 9%Z); ("lazy dog", 1%Z)]
  /\ 9%Z = (Z.of_nat (occurrences "brown fox"
                        (map (Py.join " ") Example.fox_bigrams)) ^ 2)%Z.
Proof.
  split; [reflexivity|].
  destruct (pos_score_is_occurrences_squared Example.pos_tag Example.lemmatize
              Example.fox_content 2 (Some 5%Z) Example.fox_bigrams
              fox_bigrams_generated) as [_ H].
  apply (H [("brown fox", 9%Z); ("lazy dog", 1%Z)] "brown fox" 9%Z);
    [reflexivity | now left].
Defined.

Lemma pos_rejects_other_n_witness :
  pos_based_topics Example.pos_tag Example.lemmatize Example.fox_content 4
    (Some 5%Z)
  = Raise invalid_n.
Proof.
  apply (pos_rejects_other_n Example.pos_tag Example.lemmatize
           Example.fox_content 4 (Some 5%Z)).
  - apply example_tags_content.
  - discriminate.
  - discriminate.
Defined.

Lemma returned_topics_are_distinct_witness :
  (exists s,
      pim_based_topics Example.pos_tag Example.lemmatize Example.ml_content 2
        None
      = Ok [("machine learning", s)]
      /\ NoDup (keys [("machine learning", s)]))
  /\ NoDup (keys [("brown fox", 9%Z); ("lazy dog", 1%Z)]).
Proof.
  split.
  - destruct (ml_pim_result None) as [s Hs]; [discriminate|].
    exists s. split; [exact Hs|].
    destruct (returned_topics_are_distinct Example.pos_tag Example.lemmatize
                Example.ml_content 2 None) as [H _].
    now apply H.
  - destruct (returned_topics_are_distinct Example.pos_tag Example.lemmatize
                Example.fox_content 2 (Some 5%Z)) as [_ H].
    now apply H.
Defined.



(** The score of the machine-learning example: three occurrences, each with
    PMI [ln 2]. *)
Lemma ml_pim_score (s : R) :
  pim_based_topics Example.pos_tag Example.lemmatize Example.ml_content 2 None
  = Ok [("machine learning", s)] ->
  s = (3 * ln 2)%R.
Proof.
  intros Hs.
  rewrite (pim_based_topics_scores _ _ _ _ _ _ ml_bigrams_generated
             ml_bigrams_uniform) in Hs.
  assert (Hin : In ("machine learning", s)
                   (accumulate Rplus 0%R (Py.join " ")
                      (pim_qualifies Example.ml_bigrams)
                      (pmi Example.ml_bigrams) Example.ml_bigrams [])).
  { apply (most_common_incl Rltb None). cbn [truthy] in Hs.
    replace (most_common Rltb None
               (accumulate Rplus 0%R (Py.join " ")
                  (pim_qualifies Example.ml_bigrams)
                  (pmi Example.ml_bigrams) Example.ml_bigrams []))
      with [("machine learning", s)] by congruence.
    now left. }
  apply pim_entry in Hin; [|exact ml_bigrams_uniform|].
  2:{ intros g x Hg.
      exact (proj1 (get_n_grams_In _ _ _ _ _ g ml_bigrams_generated Hg) x). }
  destruct Hin as (v & Hv & Hj & Hc & _ & ->). rewrite <- Hc.
  assert (v = ["machine"; "learning"]) as ->.
  { cbn in Hv. repeat (destruct Hv as [<-|Hv]; [try discriminate Hj|]);
      try reflexivity. contradiction. }
  rewrite ml_pmi.
  change (topic_count Example.ml_bigrams "machine learning") with 3%nat.
  rewrite INR_IZR_INZ. reflexivity.
Qed.

(** * More of [TextToTopics]: normalizer and generator *)

(** ** [_lemmatize_content] *)

Lemma get_pos_letter (pos_tag : string -> string) (t : string) :
  pos_tag t <> EmptyString ->
  _get_pos pos_tag t = Ok (pos_letter (pos_tag t)).
Proof.
  unfold _get_pos, first_char, pos_letter.
  destruct (pos_tag t) as [|c tag]; [contradiction|]. intros _. cbn [bind].
  destruct c as [b0 b1 b2 b3 b4 b5 b6 b7].
  destruct b0, b1, b2, b3, b4, b5, b6, b7; reflexivity.
Qed.

Lemma mapM_map {A B : Type} (f : A -> result B) (g : A -> B) (l : list A) :
  (forall a, In a l -> f a = Ok (g a)) -> mapM f l = Ok (map g l).
Proof.
  induction l as [|a l IH]; intros H; [reflexivity|].
  cbn [mapM map]. rewrite (H a) by now left. cbn [bind].
  rewrite IH by (intros; apply H; now right). reflexivity.
Qed.

Lemma mapM_Raise {A B : Type} (f : A -> result B) (l : list A) (a : A)
  (e : exn) :
  In a l -> f a = Raise e ->
  (forall a' e', f a' = Raise e' -> e' = e) ->
  mapM f l = Raise e.
Proof.
  intros Hin Ha Honly. induction l as [|b l IH]; [contradiction|].
  cbn [mapM]. destruct (f b) as [y|e'] eqn:Hb.
  - cbn [bind]. destruct Hin as [->|Hin]; [congruence|].
    rewrite (IH Hin). reflexivity.
  - cbn [bind]. f_equal. eauto.
Qed.

Lemma mapM_Raise_inv {A B : Type} (f : A -> result B) (l : list A)
  (e : exn) :
  mapM f l = Raise e -> exists a, In a l /\ f a = Raise e.
Proof.
  induction l as [|b l IH]; [discriminate|].
  cbn [mapM]. destruct (f b) as [y|e'] eqn:Hb; cbn [bind].
  - destruct (mapM f l) as [ys|e'']; [discriminate|]. cbn [bind].
    intros H. injection H as ->.
    destruct (IH eq_refl) as (a & Ha & Hfa). exists a. split; [now right|].
    exact Hfa.
  - intros H. injection H as ->. exists b. split; [now left | exact Hb].
Qed.

(** X1: [_lemmatize_content] returns one lemmatized sentence per content
    unit, in order, when the tagger gives every token of the content a
    non-empty tag, and raises [IndexError] as soon as one token of the
    content gets the empty tag; it raises nothing else, and raises only
    then. *)
Theorem lemmatize_content_result (pos_tag : string -> string)
  (lemmatize : string -> string -> string) (content : list string) :
  (tags_content pos_tag content ->
   _lemmatize_content pos_tag lemmatize content
   = Ok (map (lemmatized pos_tag lemmatize) content))
  /\ (forall c t,
        In c content -> In t (Py.split c) -> pos_tag t = EmptyString ->
        _lemmatize_content pos_tag lemmatize content = Raise IndexError)
  /\ (forall e,
        _lemmatize_content pos_tag lemmatize content = Raise e ->
        e = IndexError
        /\ exists c t,
             In c content /\ In t (Py.split c) /\ pos_tag t = EmptyString).
Proof.
  split; [|split].
  - intros Htag. unfold _lemmatize_content. apply mapM_map.
    intros c Hc. unfold lemmatize_sentence, lemmatized.
    rewrite (mapM_map _ (fun t => lemmatize (Py.lower t)
                                    (pos_letter (pos_tag t)))).
    + reflexivity.
    + intros t Ht. unfold lemma_of.
      now rewrite (get_pos_letter pos_tag t (Htag c t Hc Ht)).
  - intros c t Hc Ht Htag.
    assert (Hlem : forall t' e', lemma_of pos_tag lemmatize t' = Raise e' ->
                                 e' = IndexError).
    { intros t' e'. unfold lemma_of, _get_pos, first_char.
      destruct (pos_tag t'); cbn; congruence. }
    assert (Hsen : forall c' e',
               lemmatize_sentence pos_tag lemmatize c' = Raise e' ->
               e' = IndexError).
    { intros c' e' H. unfold lemmatize_sentence in H.
      pose proof (only_IndexError_mapM (lemma_of pos_tag lemmatize)
                    (Py.split c')) as Honly.
      destruct (mapM (lemma_of pos_tag lemmatize) (Py.split c')) as [ws|e''].
      - discriminate H.
      - cbn in H. inversion H; subst e''. apply Honly.
        intros t'. destruct (lemma_of pos_tag lemmatize t') eqn:E;
          cbn; eauto. }
    unfold _lemmatize_content.
    apply (mapM_Raise _ _ c); [exact Hc| |exact Hsen].
    unfold lemmatize_sentence.
    rewrite (mapM_Raise (lemma_of pos_tag lemmatize) _ t IndexError Ht);
      [reflexivity| |exact Hlem].
    unfold lemma_of, _get_pos, first_char. now rewrite Htag.
  - intros e H. unfold _lemmatize_content in H.
    destruct (mapM_Raise_inv _ _ _ H) as (c & Hc & Hsen).
    unfold lemmatize_sentence in Hsen.
    destruct (mapM (lemma_of pos_tag lemmatize) (Py.split c)) as [ws|e']
      eqn:Hws; [discriminate Hsen|].
    cbn [bind] in Hsen. injection Hsen as ->.
    destruct (mapM_Raise_inv _ _ _ Hws) as (t & Ht & Hlem).
    unfold lemma_of, _get_pos, first_char in Hlem.
    destruct (pos_tag t) as [|a tag] eqn:Htag.
    + cbn in Hlem. injection Hlem as <-. split; [reflexivity|].
      now exists c, t.
    + cbn in Hlem. discriminate Hlem.
Qed.

Lemma lemmatize_content_result_witness :
  _lemmatize_content Example.pos_tag Example.lemmatize
    ["the big brown fox jumps"; EmptyString; "  runs  fast ";
     ("sleeps" ++ String (ascii_of_nat 160) "Fast")%string]
  = Ok ["the big brown fox jump"; EmptyString; "run fast"; "sleep fast"]
  /\ _lemmatize_content (fun t => if String.eqb t "fox" then EmptyString
                                  else "NN")
       Example.lemmatize ["the big"; "brown fox jumps"]
     = Raise IndexError.
Proof.
  split.
  - rewrite (proj1 (lemmatize_content_result Example.pos_tag Example.lemmatize
                      ["the big brown fox jumps"; EmptyString;
                       "  runs  fast ";
                       ("sleeps" ++ String (ascii_of_nat 160) "Fast")%string])
               (example_tags_content _)).
    vm_compute. reflexivity.
  - apply (proj1 (proj2 (lemmatize_content_result
                           (fun t => if String.eqb t "fox" then EmptyString
                                     else "NN")
                           Example.lemmatize ["the big"; "brown fox jumps"]))
             "brown fox jumps" "fox").
    + right. now left.
    + vm_compute. right. now left.
    + reflexivity.
Defined.

(** ** [_handle_period] *)

Lemma without_app (c : ascii) (a b : string) :
  without c (a ++ b)%string = (without c a ++ without c b)%string.
Proof.
  induction a as [|d a IH]; cbn; [reflexivity|].
  destruct (Ascii.eqb d c); cbn; now rewrite IH.
Qed.

Lemma without_idem (c : ascii) (s : string) :
  without c (without c s) = without c s.
Proof.
  induction s as [|d s IH]; cbn; [reflexivity|].
  destruct (Ascii.eqb d c) eqn:E; cbn; [exact IH|]. now rewrite E, IH.
Qed.

Lemma without_length (c : ascii) (s : string) :
  (String.length (without c s) <= String.length s)%nat.
Proof.
  induction s as [|d s IH]; cbn; [lia|].
  destruct (Ascii.eqb d c); cbn; lia.
Qed.

Lemma string_app_length (a b : string) :
  String.length (a ++ b)%string = (String.length a + String.length b)%nat.
Proof. induction a as [|c a IH]; cbn; [reflexivity | now rewrite IH]. Qed.

Lemma prefix_drop (a s : string) :
  String.prefix a s = true -> s = (a ++ drop (String.length a) s)%string.
Proof.
  revert s. induction a as [|c a IH]; intros s H; [now destruct s|].
  destruct s as [|d s]; [discriminate H|]. cbn in H.
  destruct (ascii_dec c d) as [->|]; [|discriminate H].
  cbn. f_equal. now apply IH.
Qed.

Lemma drop_length (k : nat) (s : string) :
  (String.length (drop k s) <= String.length s)%nat.
Proof.
  revert s. induction k as [|k IH]; intros [|c s]; cbn; try lia.
  specialize (IH s). lia.
Qed.

Lemma replace_dots (a : string) : Py.replace a "." EmptyString = without "." a.
Proof.
  unfold Py.replace.
  induction a as [|c a IH]; [reflexivity|].
  cbn [Py.replace_from String.prefix without String.length Nat.sub].
  destruct (ascii_dec "." c) as [<-|Hne].
  - replace (String.prefix EmptyString a) with true by now destruct a.
    exact IH.
  - destruct (Ascii.eqb_spec c ".") as [->|_]; [contradiction|].
    now rewrite IH.
Qed.

(** Replacing the occurrences of a non-empty [a] by [a] without its periods
    changes nothing but periods and adds no character. *)
Lemma replace_from_without (a0 : ascii) (a' b : string) :
  b = without "." (String a0 a') ->
  forall (s : string) (skip : nat),
    without "." (Py.replace_from (String a0 a') b skip s)
    = without "." (drop skip s)
    /\ (String.length (Py.replace_from (String a0 a') b skip s)
        <= String.length (drop skip s))%nat.
Proof.
  intros Hb. induction s as [|c s IH]; intros skip.
  - destruct skip; cbn; split; auto.
  - cbn [Py.replace_from]. destruct skip as [|k]; [|apply IH].
    destruct (String.prefix (String a0 a') (String c s)) eqn:Hp.
    + apply prefix_drop in Hp.
      cbn [String.length Nat.sub drop] in *. rewrite Nat.sub_0_r.
      destruct (IH (String.length a')) as [IHw IHl].
      injection Hp as Hc Hs.
      split.
      * rewrite without_app, IHw, Hb, without_idem, <- without_app.
        cbn [String.append]. now rewrite <- Hs, Hc.
      * rewrite string_app_length.
        assert (String.length b <= S (String.length a'))%nat
          by (rewrite Hb; apply (without_length "." (String a0 a'))).
        assert (String.length s
                = String.length a' + String.length (drop (String.length a') s))%nat
          by (rewrite Hs at 1; apply string_app_length).
        lia.
    + destruct (IH 0%nat) as [IHw IHl]. cbn [drop] in *.
      split; [cbn; now rewrite IHw | cbn; lia].
Qed.

Lemma replace_empty (s : string) : Py.replace s EmptyString EmptyString = s.
Proof.
  unfold Py.replace. induction s as [|c s IH]; [reflexivity|].
  simpl. f_equal. exact IH.
Qed.

Lemma replace_acronym_without (s a : string) :
  without "." (Py.replace s a (Py.replace a "." EmptyString)) = without "." s
  /\ (String.length (Py.replace s a (Py.replace a "." EmptyString))
      <= String.length s)%nat.
Proof.
  destruct a as [|a0 a'].
  - change (Py.replace EmptyString "." EmptyString) with EmptyString.
    rewrite replace_empty. split; [reflexivity | lia].
  - rewrite replace_dots. unfold Py.replace.
    destruct (replace_from_without a0 a' _ eq_refl s 0%nat) as [Hw Hl].
    now split.
Qed.

(** X2: [_handle_period] deletes nothing but periods and adds nothing:
    without their periods the sentence and the result are the same string,
    and the result is not longer than the sentence. *)
Theorem handle_period_deletes_only_periods (sentence : string) :
  without "." (_handle_period sentence) = without "." sentence
  /\ (String.length (_handle_period sentence) <= String.length sentence)%nat.
Proof.
  unfold _handle_period. generalize (Re.findall_acronyms sentence).
  intros l. revert sentence. induction l as [|a l IH]; intros s.
  - cbn. split; [reflexivity | lia].
  - cbn [fold_left].
    destruct (replace_acronym_without s a) as [Hw Hl].
    destruct (IH (Py.replace s a (Py.replace a "." EmptyString)))
      as [IHw IHl].
    split; [congruence | lia].
Qed.

Lemma is_acronym_nonempty (a : string) : is_acronym a -> a <> EmptyString.
Proof. intros []; discriminate. Qed.

Lemma acronym_prefix_app (a post : string) :
  is_acronym a ->
  all_chars (fun c => negb (Py.is_upper c)) post = true ->
  Re.acronym_prefix (a ++ post) = a.
Proof.
  intros Ha Hpost. induction Ha as [c Hc|c a Hc Ha IH].
  - cbn [String.append Re.acronym_prefix]. rewrite Hc. cbn.
    destruct post as [|d post]; [reflexivity|].
    cbn in Hpost. apply andb_true_iff in Hpost. destruct Hpost as [Hd _].
    apply negb_true_iff in Hd. now rewrite (acronym_prefix_not_upper d post Hd).
  - cbn [String.append Re.acronym_prefix]. rewrite Hc. cbn. now rewrite IH.
Qed.

Lemma findall_skip (x post : string) :
  Re.findall_acronyms_from (String.length x) (x ++ post)
  = Re.findall_acronyms_from 0 post.
Proof.
  induction x as [|c x IH]; [reflexivity|].
  cbn [String.length String.append Re.findall_acronyms_from]. exact IH.
Qed.

Lemma findall_one_acronym (pre a post : string) :
  all_chars (fun c => negb (Py.is_upper c)) pre = true ->
  is_acronym a ->
  all_chars (fun c => negb (Py.is_upper c)) post = true ->
  Re.findall_acronyms (pre ++ a ++ post) = [a].
Proof.
  intros Hpre Ha Hpost. unfold Re.findall_acronyms.
  induction pre as [|c pre IH].
  - cbn [String.append].
    pose proof (acronym_prefix_app a post Ha Hpost) as Hp.
    destruct a as [|a0 a']; [now apply is_acronym_nonempty in Ha|].
    cbn [String.append Re.findall_acronyms_from] in *. rewrite Hp.
    f_equal. cbn [String.length Nat.sub]. rewrite Nat.sub_0_r.
    rewrite findall_skip. now apply findall_acronyms_lowercase.
  - cbn [all_chars] in Hpre. apply andb_true_iff in Hpre.
    destruct Hpre as [Hc Hpre]. apply negb_true_iff in Hc.
    cbn [String.append Re.findall_acronyms_from].
    rewrite (acronym_prefix_not_upper c _ Hc). now apply IH.
Qed.

Lemma replace_from_skip (a b x post : string) :
  Py.replace_from a b (String.length x) (x ++ post)
  = Py.replace_from a b 0 post.
Proof.
  induction x as [|c x IH]; [reflexivity|].
  cbn [String.length String.append Py.replace_from]. exact IH.
Qed.

Lemma replace_from_no_upper (a0 : ascii) (a' b s : string) :
  Py.is_upper a0 = true ->
  all_chars (fun c => negb (Py.is_upper c)) s = true ->
  Py.replace_from (String a0 a') b 0 s = s.
Proof.
  intros Ha. induction s as [|c s IH]; intros Hs; [reflexivity|].
  cbn [all_chars] in Hs. apply andb_true_iff in Hs. destruct Hs as [Hc Hs].
  apply negb_true_iff in Hc.
  cbn [Py.replace_from String.prefix].
  destruct (ascii_dec a0 c) as [->|_]; [congruence|].
  now rewrite IH.
Qed.

Lemma prefix_app (a s : string) : String.prefix a (a ++ s) = true.
Proof.
  induction a as [|c a IH]; [now destruct s|]. cbn.
  destruct (ascii_dec c c); [exact IH | contradiction].
Qed.

(** X3: in a sentence that has no capital letter around it, an acronym (a
    run of capital letters each followed by a period) loses its periods and
    nothing else changes. *)
Theorem handle_period_collapses_acronym (pre a post : string) :
  all_chars (fun c => negb (Py.is_upper c)) pre = true ->
  is_acronym a ->
  all_chars (fun c => negb (Py.is_upper c)) post = true ->
  _handle_period (pre ++ a ++ post) = (pre ++ without "." a ++ post)%string.
Proof.
  intros Hpre Ha Hpost. unfold _handle_period.
  rewrite (findall_one_acronym pre a post Hpre Ha Hpost). cbn [fold_left].
  rewrite replace_dots.
  assert (Hup : exists a0 a', a = String a0 a' /\ Py.is_upper a0 = true).
  { destruct Ha; eauto. }
  destruct Hup as (a0 & a' & -> & Hup).
  unfold Py.replace.
  induction pre as [|c pre IH].
  - cbn [String.append]. cbn [Py.replace_from].
    change (String a0 (a' ++ post)) with (String a0 a' ++ post)%string.
    rewrite prefix_app. f_equal.
    cbn [String.length Nat.sub]. rewrite Nat.sub_0_r.
    rewrite replace_from_skip. now apply replace_from_no_upper.
  - cbn [all_chars] in Hpre. apply andb_true_iff in Hpre.
    destruct Hpre as [Hc Hpre]. apply negb_true_iff in Hc.
    cbn [String.append Py.replace_from String.prefix].
    destruct (ascii_dec a0 c) as [->|_]; [congruence|].
    f_equal. apply IH. exact Hpre.
Qed.

Lemma handle_period_collapses_acronym_witness :
  _handle_period "he has an M.B.A. degree." = "he has an MBA degree.".
Proof.
  apply (handle_period_collapses_acronym "he has an " "M.B.A." " degree.").
  - reflexivity.
  - repeat first [apply acronym_one; reflexivity
                 | apply acronym_more; [reflexivity|]].
  - reflexivity.
Defined.

(** ** [_handle_punctuation] *)

Lemma sub_runs_all_chars (cls p : ascii -> bool) :
  p " "%char = true ->
  forall (s : string) (b : bool),
    all_chars (fun c => cls c || p c) s = true ->
    all_chars p (Re.sub_runs cls b s) = true.
Proof.
  intros Hsp. induction s as [|c s IH]; intros b Hs; [reflexivity|].
  cbn [all_chars] in Hs. apply andb_true_iff in Hs. destruct Hs as [Hc Hs].
  cbn [Re.sub_runs]. destruct (cls c) eqn:E.
  - destruct b; [now apply IH|]. cbn [all_chars]. rewrite Hsp. now apply IH.
  - cbn [all_chars]. cbn in Hc. rewrite Hc. now apply IH.
Qed.

Lemma sub_runs_no_run (sp : ascii -> bool) :
  sp " "%char = true ->
  forall (s : string) (b : bool), no_run sp b (Re.sub_runs sp b s) = true.
Proof.
  intros Hsp. induction s as [|c s IH]; intros b; [reflexivity|].
  cbn [Re.sub_runs]. destruct (sp c) eqn:E.
  - destruct b; [apply IH|]. cbn [no_run]. rewrite Hsp. apply IH.
  - cbn [no_run]. rewrite E, andb_false_r. apply IH.
Qed.

Lemma sub_runs_none (cls : ascii -> bool) (s : string) (b : bool) :
  all_chars (fun c => negb (cls c)) s = true -> Re.sub_runs cls b s = s.
Proof.
  revert b. induction s as [|c s IH]; intros b Hs; [reflexivity|].
  cbn [all_chars] in Hs. apply andb_true_iff in Hs. destruct Hs as [Hc Hs].
  apply negb_true_iff in Hc. cbn [Re.sub_runs]. rewrite Hc.
  now rewrite IH.
Qed.

Lemma sub_runs_single_spaces (s : string) (b : bool) :
  no_run (Ascii.eqb " ") b s = true -> Re.sub_runs (Ascii.eqb " ") b s = s.
Proof.
  revert b. induction s as [|c s IH]; intros b Hs; [reflexivity|].
  cbn [no_run] in Hs. apply andb_true_iff in Hs. destruct Hs as [Hc Hs].
  cbn [Re.sub_runs]. destruct (Ascii.eqb_spec " " c) as [<-|Hne].
  - destruct b; [discriminate Hc|]. f_equal. now apply IH.
  - f_equal. now apply IH.
Qed.

Lemma handle_punctuation_no_class (sentence : string) :
  all_chars (fun c => negb (Re.punctuation_class c))
            (_handle_punctuation sentence) = true.
Proof.
  unfold _handle_punctuation, Re.sub_plus.
  apply sub_runs_all_chars; [reflexivity|].
  assert (H : all_chars (fun c => negb (Re.punctuation_class c))
                (Re.sub_runs Re.punctuation_class false sentence) = true).
  { apply sub_runs_all_chars; [reflexivity|].
    induction sentence as [|c s IH]; [reflexivity|].
    cbn [all_chars]. rewrite IH, andb_true_r.
    now destruct (Re.punctuation_class c). }
  revert H. generalize (Re.sub_runs Re.punctuation_class false sentence).
  induction s as [|c s IH]; [reflexivity|].
  cbn [all_chars]. intros H. apply andb_true_iff in H. destruct H as [Hc Hs].
  rewrite Hc, orb_true_r. now apply IH.
Qed.

(** X4: the result of [_handle_punctuation] has no character of the
    pattern's class (no listed punctuation mark, no digit, no slash) and no
    two neighbouring spaces, and handling it again changes nothing. *)
Theorem handle_punctuation_normal_form (sentence : string) :
  let out := _handle_punctuation sentence in
  all_chars (fun c => negb (Re.punctuation_class c)) out = true
  /\ no_run (Ascii.eqb " ") false out = true
  /\ _handle_punctuation out = out.
Proof.
  intros out.
  assert (H1 : all_chars (fun c => negb (Re.punctuation_class c)) out = true)
    by apply handle_punctuation_no_class.
  assert (H2 : no_run (Ascii.eqb " ") false out = true)
    by (apply sub_runs_no_run; reflexivity).
  split; [exact H1|]. split; [exact H2|].
  unfold _handle_punctuation at 1, Re.sub_plus.
  rewrite (sub_runs_none Re.punctuation_class out false H1).
  now apply sub_runs_single_spaces.
Qed.

(** ** [_get_n_grams] *)

Lemma mapM_app {A B : Type} (f : A -> result B) (l1 l2 : list A) :
  mapM f (l1 ++ l2)
  = (b1 <- mapM f l1 ;; b2 <- mapM f l2 ;; Ok (b1 ++ b2)).
Proof.
  induction l1 as [|a l1 IH]; cbn [app mapM bind].
  - now destruct (mapM f l2).
  - destruct (f a) as [b|e]; cbn [bind]; [|reflexivity].
    rewrite IH. destruct (mapM f l1) as [b1|e]; cbn [bind]; [|reflexivity].
    now destruct (mapM f l2).
Qed.

(** X5: the n-grams of a content that is two contents one after the other
    are the n-grams of the first followed by those of the second (and an
    error of either is the error of the whole): no n-gram spans two content
    units. *)
Theorem get_n_grams_app (pos_tag : string -> string)
  (lemmatize : string -> string -> string) (content1 content2 : list string)
  (n : Z) :
  _get_n_grams pos_tag lemmatize (content1 ++ content2) n
  = (g1 <- _get_n_grams pos_tag lemmatize content1 n ;;
     g2 <- _get_n_grams pos_tag lemmatize content2 n ;;
     Ok (g1 ++ g2)).
Proof.
  unfold _get_n_grams, _lemmatize_content. rewrite mapM_app.
  destruct (mapM (lemmatize_sentence pos_tag lemmatize) content1)
    as [l1|e]; cbn [bind]; [|reflexivity].
  destruct (mapM (lemmatize_sentence pos_tag lemmatize) content2)
    as [l2|e]; cbn [bind]; [|reflexivity].
  now rewrite flat_map_app.
Qed.

Lemma split_all_chars (p : ascii -> bool) (s w : string) :
  all_chars p s = true -> In w (Py.split s) -> all_chars p w = true.
Proof.
  revert w. induction s as [|c s IH]; intros w Hs; cbn [Py.split];
    [intros []|].
  cbn [all_chars] in Hs. apply andb_true_iff in Hs. destruct Hs as [Hc Hs].
  destruct (Py.is_space c); [now apply IH|].
  destruct s as [|c' s'].
  - intros [<-|[]]. cbn. now rewrite Hc.
  - destruct (Py.is_space c').
    + intros [<-|H]; [cbn; now rewrite Hc | now apply IH].
    + intros H. apply cons_head_In in H.
      destruct H as [(w' & -> & H)|H]; [|now apply IH].
      cbn [all_chars]. rewrite Hc. cbn [andb].
      destruct H as [[_ ->]|(ws' & E)]; [reflexivity|].
      apply IH; [exact Hs|]. rewrite E. now left.
Qed.

(** X6: every n-gram that [_get_n_grams] returns for [n >= 0] is the [n]
    consecutive kept tokens of one fragment of one lemmatized sentence,
    starting at some offset; each of its tokens is non-empty, has no
    whitespace and no character of the punctuation class, and has a tag
    that starts with N, V, R, J or S. *)
Theorem n_grams_are_windows (pos_tag : string -> string)
  (lemmatize : string -> string -> string) (content : list string)
  (n : Z) (grams : list (list string)) (g : list string) :
  (0 <= n)%Z ->
  _get_n_grams pos_tag lemmatize content n = Ok grams ->
  In g grams ->
  exists lem sentence sub i,
    _lemmatize_content pos_tag lemmatize content = Ok lem
    /\ In sentence lem
    /\ In sub (fragments sentence)
    /\ (i + Z.to_nat n <= List.length (fragment_tokens pos_tag sub))%nat
    /\ g = firstn (Z.to_nat n) (skipn i (fragment_tokens pos_tag sub))
    /\ List.length g = Z.to_nat n
    /\ forall x, In x g ->
         x <> EmptyString
         /\ all_chars (fun c => negb (Py.is_space c)) x = true
         /\ all_chars (fun c => negb (Re.punctuation_class c)) x = true
         /\ startswith_any (pos_tag x) ["N"; "V"; "R"; "J"; "S"]%char = true.
Proof.
  intros Hn H Hg. unfold _get_n_grams in H. inv_bind H.
  inversion H; subst grams. clear H.
  apply in_flat_map in Hg. destruct Hg as (sentence & Hsen & Hg).
  apply in_flat_map in Hg. destruct Hg as (sub & Hsub & Hg).
  exists a, sentence, sub.
  unfold windows in Hg.
  destruct (Z.gtb_spec (Z.of_nat (List.length (fragment_tokens pos_tag sub))) n)
    as [Hm|_]; [|contradiction].
  apply in_map_iff in Hg. destruct Hg as (i & Hi & Hin).
  apply range_In in Hin.
  exists (Z.to_nat i).
  assert (Hslice : g = firstn (Z.to_nat n)
                         (skipn (Z.to_nat i) (fragment_tokens pos_tag sub))).
  { rewrite <- Hi. rewrite <- (Z2Nat.id i) at 1 2 by lia.
    rewrite <- (Z2Nat.id n) at 1 by lia.
    apply slice_window. lia. }
  split; [exact Ha|]. split; [exact Hsen|]. split; [exact Hsub|].
  split; [lia|]. split; [exact Hslice|].
  split; [rewrite Hslice, length_firstn, length_skipn; lia|].
  intros x Hx. rewrite Hslice in Hx. apply In_firstn in Hx.
  assert (Hx' : In x (fragment_tokens pos_tag sub)).
  { rewrite <- (firstn_skipn (Z.to_nat i)). apply in_or_app. now right. }
  unfold fragment_tokens in Hx'. apply filter_In in Hx'.
  destruct Hx' as [Hx' Htag].
  destruct (split_tokens _ _ Hx') as [Hne Hsp].
  repeat split; auto.
  apply (split_all_chars _ (_handle_punctuation sub)); [|exact Hx'].
  apply handle_punctuation_no_class.
Qed.

Lemma n_grams_are_windows_witness :
  exists lem sentence sub i,
    _lemmatize_content Example.pos_tag Example.lemmatize Example.fox_content
    = Ok lem
    /\ In sentence lem
    /\ In sub (fragments sentence)
    /\ (i + 2 <= List.length (fragment_tokens Example.pos_tag sub))%nat
    /\ ["jump"; "lazy"]
       = firstn 2 (skipn i (fragment_tokens Example.pos_tag sub)).
Proof.
  destruct (n_grams_are_windows Example.pos_tag Example.lemmatize
              Example.fox_content 2 Example.fox_bigrams ["jump"; "lazy"])
    as (lem & sentence & sub & i & H1 & H2 & H3 & H4 & H5 & _).
  - lia.
  - reflexivity.
  - cbn. tauto.
  - exists lem, sentence, sub, i. auto.
Defined.

Lemma flat_map_length {A B : Type} (f : A -> list B) (l : list A) :
  List.length (flat_map f l) = list_sum (map (fun a => List.length (f a)) l).
Proof.
  induction l as [|a l IH]; [reflexivity|].
  cbn [flat_map map list_sum]. now rewrite length_app, IH.
Qed.

Lemma flat_map_nil {A B : Type} (f : A -> list B) (l : list A) :
  (forall a, In a l -> f a = []) -> flat_map f l = [].
Proof.
  induction l as [|a l IH]; intros H; [reflexivity|].
  cbn [flat_map]. rewrite (H a) by now left.
  apply IH. intros; apply H; now right.
Qed.

(** X7: the number of n-grams is the sum, over the fragments of the
    lemmatized sentences, of [m - n + 1] for the fragments with [m > n]
    kept tokens; when no fragment has more than [n] kept tokens there is no
    n-gram at all. *)
Theorem get_n_grams_count (pos_tag : string -> string)
  (lemmatize : string -> string -> string) (content : list string)
  (n : Z) (lem : list string) :
  _lemmatize_content pos_tag lemmatize content = Ok lem ->
  let kept sub := Z.of_nat (List.length (fragment_tokens pos_tag sub)) in
  exists grams,
    _get_n_grams pos_tag lemmatize content n = Ok grams
    /\ List.length grams
       = list_sum
           (map (fun sentence =>
                   list_sum
                     (map (fun sub =>
                             if (kept sub >? n)%Z
                             then Z.to_nat (kept sub - n + 1) else 0%nat)
                          (fragments sentence)))
                lem)
    /\ ((forall sentence sub,
            In sentence lem -> In sub (fragments sentence) ->
            (kept sub <= n)%Z) ->
        grams = []).
Proof.
  intros Hlem kept. unfold _get_n_grams. rewrite Hlem. cbn [bind].
  eexists. split; [reflexivity|]. split.
  - rewrite flat_map_length. f_equal. apply map_ext. intros sentence.
    rewrite flat_map_length. f_equal. apply map_ext. intros sub.
    apply windows_length.
  - intros Hshort. apply flat_map_nil. intros sentence Hsen.
    apply flat_map_nil. intros sub Hsub. unfold windows.
    specialize (Hshort sentence sub Hsen Hsub). unfold kept in Hshort.
    destruct (Z.gtb_spec (Z.of_nat (List.length (fragment_tokens pos_tag sub)))
                n); [lia | reflexivity].
Qed.

Lemma get_n_grams_count_witness :
  (exists grams,
      _get_n_grams Example.pos_tag Example.lemmatize Example.fox_content 2
      = Ok grams
      /\ List.length grams = 12%nat)
  /\ _get_n_grams Example.pos_tag Example.lemmatize ["big fox. lazy dog"] 2
     = Ok [].
Proof.
  split.
  - destruct (get_n_grams_count Example.pos_tag Example.lemmatize
                Example.fox_content 2
                ["the big brown fox jump over the lazy dog";
                 "the big brown fox run fast"; "a big brown fox sleep"])
      as (grams & Hg & Hlen & _); [vm_compute; reflexivity|].
    exists grams. split; [exact Hg|]. rewrite Hlen. vm_compute. reflexivity.
  - destruct (get_n_grams_count Example.pos_tag Example.lemmatize
                ["big fox. lazy dog"] 2 ["big fox. lazy dog"])
      as (grams & Hg & _ & Hnil); [vm_compute; reflexivity|].
    rewrite Hg. f_equal. apply Hnil.
    intros sentence sub [<-|[]] Hsub. vm_compute in Hsub.
    destruct Hsub as [<-|[<-|[]]]; vm_compute; discriminate.
Defined.

(** * More of [TextToTopics]: the scorers *)

Lemma first_seen_In (x : string) (l seen : list string) :
  In x l -> In x seen \/ In x (first_seen seen l).
Proof.
  revert seen. induction l as [|y l IH]; intros seen Hin; [contradiction|].
  cbn [first_seen]. destruct (mem y seen) eqn:Hm.
  - destruct Hin as [->|Hin]; [left; now apply mem_true_iff | now apply IH].
  - destruct Hin as [->|Hin]; [right; now left|].
    destruct (IH (seen ++ [y]) Hin) as [H|H]; [|right; now right].
    apply in_app_or in H. destruct H as [H|[->|[]]]; [now left|].
    right. now left.
Qed.

Lemma keys_In {V : Type} (c : counter V) (k : string) :
  In k (keys c) -> exists s, In (k, s) c.
Proof.
  unfold keys. rewrite in_map_iff. intros ([k' s] & <- & H). now exists s.
Qed.

Lemma most_common_all_In {V : Type} (ltb : V -> V -> bool) (c : counter V)
  (x : string * V) :
  In x c -> In x (most_common ltb None c).
Proof.
  intros H. cbn.
  now apply (Permutation_in _ (Permutation_sym (sorted_desc_perm V ltb c))).
Qed.

Lemma most_common_nil {V : Type} (ltb : V -> V -> bool) (number : option Z) :
  most_common ltb number (@nil (string * V)) = [].
Proof. destruct number as [k|]; cbn; [apply firstn_nil | reflexivity]. Qed.

Lemma filter_none {A : Type} (p : A -> bool) (l : list A) :
  (forall x, In x l -> p x = false) -> filter p l = [].
Proof.
  induction l as [|x l IH]; intros H; [reflexivity|].
  cbn [filter]. rewrite (H x) by now left.
  apply IH. intros; apply H; now right.
Qed.

Section ScorerResults.

Variable pos_tag : string -> string.
Variable lemmatize : string -> string -> string.
Variable content : list string.


(** X9: the PMI scorer returns only on n-gram lists whose entries all have
    the same number of tokens, on the floats of the code as over the exact
    reals: on a list with entries of different lengths, as a negative [n]
    can give, the counting loop reads past the end of a shorter entry and
    [pim_based_topics] never returns. *)
Theorem pim_scores_return_only_uniform
  (log : PrimFloat.float -> PrimFloat.float) (ngrams : list (list string)) :
  (forall c, Float64.pim_scores log ngrams = Ok c -> uniform ngrams)
  /\ (forall c, pim_scores ngrams = Ok c -> uniform ngrams)
  /\ (forall n number res,
        _get_n_grams pos_tag lemmatize content n = Ok ngrams ->
        ~ uniform ngrams ->
        Float64.pim_based_topics log pos_tag lemmatize content n number
        <> Ok res).
Proof.
  assert (Hu : forall c, Float64.pim_scores log ngrams = Ok c ->
                         uniform ngrams).
  { intros c H.
    assert (Hle : forall u v, In u ngrams -> In v ngrams ->
                              (List.length u <= List.length v)%nat).
    { intros u v Hin Hv.
      destruct (foldM_In _ _ _ _ v H Hv) as (c1 & c2 & Hstep).
      unfold Float64.pim_step in Hstep. inv_bind Hstep.
      now apply (count_matches_too_long _ _ _ Ha). }
    intros u v Hin Hv. apply Nat.le_antisymm; auto. }
  split; [exact Hu|]. split.
  - intros c. apply pim_scores_Ok_uniform.
  - intros n number res Hg Hnu Hres. apply Hnu.
    unfold Float64.pim_based_topics in Hres. rewrite Hg in Hres.
    cbn [bind] in Hres. inv_bind Hres. now apply (Hu a).
Qed.

(** X10: when no n-gram of the flat list occurs more than twice,
    [pim_based_topics] returns the empty sequence for every [number]
    (for [n >= 0]); the empty content is such a case. *)
Theorem pim_nothing_frequent (n : Z) (number : option Z)
  (grams : list (list string)) :
  (0 <= n)%Z ->
  _get_n_grams pos_tag lemmatize content n = Ok grams ->
  (forall v, In v grams -> (joint_count grams v <= 2)%nat) ->
  pim_based_topics pos_tag lemmatize content n number = Ok [].
Proof.
  intros Hn Hg Hrare.
  rewrite (pim_based_topics_scores _ _ _ _ number _ Hg
             (get_n_grams_uniform pos_tag lemmatize content n grams Hn Hg)).
  assert (Hk : keys (accumulate Rplus 0%R (Py.join " ") (pim_qualifies grams)
                       (pmi grams) grams []) = []).
  { rewrite pim_keys.
    rewrite (filter_none (pim_qualifies grams) grams); [reflexivity|].
    intros v Hv. unfold pim_qualifies.
    destruct (Nat.ltb_spec 2 (joint_count grams v)) as [H|_]; [|reflexivity].
    specialize (Hrare v Hv). lia. }
  destruct (accumulate Rplus 0%R (Py.join " ") (pim_qualifies grams)
              (pmi grams) grams []); [|discriminate Hk].
  now rewrite most_common_nil.
Qed.

End ScorerResults.

Lemma pim_scores_return_only_uniform_witness :
  exists e,
    Float64.pim_based_topics (fun x => x) Example.pos_tag Example.lemmatize
      ["sun rise east"] (-1) None
    = Raise e.
Proof.
  destruct (Float64.pim_based_topics (fun x => x) Example.pos_tag
              Example.lemmatize ["sun rise east"] (-1) None)
    as [res|e] eqn:E; [|now exists e].
  exfalso.
  apply (proj2 (proj2 (pim_scores_return_only_uniform Example.pos_tag
                         Example.lemmatize ["sun rise east"] (fun x => x)
                         [["sun"; "rise"]; []; []; []; []]))
           (-1)%Z None res); [vm_compute; reflexivity| |exact E].
  intros H. specialize (H ["sun"; "rise"] []).
  cbn in H. discriminate H; tauto.
Defined.

Lemma example_pos_tag_nonempty (t : string) :
  Example.pos_tag t <> EmptyString.
Proof.
  unfold Example.pos_tag.
  repeat match goal with
         | |- context [if ?b then _ else _] => destruct b
         end; discriminate.
Qed.


Lemma pim_nothing_frequent_witness :
  pim_based_topics Example.pos_tag Example.lemmatize
    ["sun rise east"; "sun rise west"] 2 (Some 1%Z)
  = Ok [].
Proof.
  apply (pim_nothing_frequent Example.pos_tag Example.lemmatize
           ["sun rise east"; "sun rise west"] 2 (Some 1%Z)
           [["sun"; "rise"]; ["rise"; "east"];
            ["sun"; "rise"]; ["rise"; "west"]]).
  - lia.
  - vm_compute. reflexivity.
  - intros v Hv. cbn in Hv.
    repeat (destruct Hv as [<-|Hv]; [vm_compute; lia|]). contradiction.
Defined.

Lemma occurrences_pos (t : string) (l : list string) :
  In t l <-> (0 < occurrences t l)%nat.
Proof.
  unfold occurrences, count_if. split.
  - intros H.
    assert (Hf : In t (filter (fun v => String.eqb v t) l))
      by (apply filter_In; split; [exact H | apply String.eqb_refl]).
    destruct (filter (fun v => String.eqb v t) l); [contradiction|].
    cbn. lia.
  - intros H.
    destruct (filter (fun v => String.eqb v t) l) as [|v vs] eqn:E;
      [cbn in H; lia|].
    assert (Hv : In v (filter (fun v => String.eqb v t) l))
      by (rewrite E; now left).
    apply filter_In in Hv. destruct Hv as [Hv Heq].
    apply String.eqb_eq in Heq. now subst.
Qed.

(** ** The counter of the PMI scorer on floats *)

Lemma keys_update_any {V : Type} (add : V -> V -> V) (zero : V)
  (c : counter V) (k : string) (v : V) :
  keys (update add zero c k v)
  = if mem k (keys c) then keys c else keys c ++ [k].
Proof.
  destruct c as [|x c]; [reflexivity|].
  unfold update. apply keys_set_item.
Qed.

Lemma keys_accumulate_any {A V : Type} (add : V -> V -> V) (zero : V)
  (key : A -> string) (q : A -> bool) (w : A -> V) :
  forall (l : list A) (c : counter V),
    keys (accumulate add zero key q w l c)
    = keys c ++ first_seen (keys c) (map key (filter q l)).
Proof.
  induction l as [|v l IH]; intros c.
  - cbn. now rewrite app_nil_r.
  - change (accumulate add zero key q w (v :: l) c)
      with (accumulate add zero key q w l
              (if q v then update add zero c (key v) (w v) else c)).
    rewrite IH. cbn [filter].
    destruct (q v) eqn:Hq; [|reflexivity].
    rewrite keys_update_any.
    cbn [map first_seen].
    destruct (mem (key v) (keys c)); [reflexivity|].
    now rewrite <- app_assoc.
Qed.

(** A step that returns has added the score of its n-gram when the guard
    passed, and nothing otherwise. *)
Lemma float_pim_step_Ok (log : PrimFloat.float -> PrimFloat.float)
  (ngrams : list (list string)) (c c' : counter PrimFloat.float)
  (value : list string) :
  Float64.pim_step log ngrams c value = Ok c' ->
  c' = if pim_qualifies ngrams value
       then update PrimFloat.add (float_of_Z 0) c (Py.join " " value)
                   (float_pmi log ngrams value)
       else c.
Proof.
  intros H. unfold Float64.pim_step in H.
  destruct (count_matches ngrams value) as [counts|e] eqn:Hc;
    [|discriminate H].
  pose proof (count_matches_too_long _ _ _ Hc) as Hlen.
  rewrite (count_matches_Ok ngrams value Hlen) in Hc.
  injection Hc as <-. cbn [bind] in H.
  rewrite last_count_app in H. cbn [bind] in H.
  rewrite removelast_last in H. unfold pim_qualifies.
  destruct (Nat.ltb_spec 2 (joint_count ngrams value)) as [Hj|Hj].
  - replace (Z.of_nat (joint_count ngrams value) >? 2)%Z with true in H
      by (symmetry; apply Z.gtb_lt; lia).
    unfold float_pmi.
    destruct (Float64.true_div _ _) as [p_all|e] in H |- *;
      [|discriminate H].
    cbn [bind] in H |- *.
    destruct (Float64.p_other_of _ _) as [p_other|e] in H |- *;
      [|discriminate H].
    cbn [bind] in H |- *.
    destruct (Float64.true_div _ _) as [q|e] in H |- *; [|discriminate H].
    cbn [bind] in H |- *.
    destruct (Float64.math_log log q) as [pmi|e]; [|discriminate H].
    cbn [bind] in H. now injection H as <-.
  - replace (Z.of_nat (joint_count ngrams value) >? 2)%Z with false in H
      by (symmetry; rewrite Z.gtb_ltb; apply Z.ltb_ge; lia).
    now injection H as <-.
Qed.

Lemma float_pim_scores_Ok (log : PrimFloat.float -> PrimFloat.float)
  (ngrams : list (list string)) (c : counter PrimFloat.float) :
  Float64.pim_scores log ngrams = Ok c ->
  c = accumulate PrimFloat.add (float_of_Z 0) (Py.join " ")
        (pim_qualifies ngrams) (float_pmi log ngrams) ngrams [].
Proof.
  unfold Float64.pim_scores. apply foldM_accumulate.
  intros c0 v c'. apply float_pim_step_Ok.
Qed.

Section ScorerCompleteness.

Variable pos_tag : string -> string.
Variable lemmatize : string -> string -> string.
Variable content : list string.

(** X11: whenever [pim_based_topics] returns without a limit ([number]
    absent or 0), on the floats of the code, it has returned one entry for
    every n-gram that occurs more than twice: the topic of each such n-gram
    is in the result, and the result has as many entries as there are
    distinct such topics. *)
Theorem pim_unlimited_returns_all
  (log : PrimFloat.float -> PrimFloat.float) (n : Z) (number : option Z)
  (grams : list (list string)) (res : list (string * PrimFloat.float)) :
  _get_n_grams pos_tag lemmatize content n = Ok grams ->
  number = None \/ number = Some 0%Z ->
  Float64.pim_based_topics log pos_tag lemmatize content n number = Ok res ->
  (forall v, In v grams -> (2 < joint_count grams v)%nat ->
             exists s, In (Py.join " " v, s) res)
  /\ List.length res
     = List.length
         (first_seen [] (map (Py.join " ")
                           (filter (pim_qualifies grams) grams))).
Proof.
  intros Hg Hnum Hres.
  unfold Float64.pim_based_topics in Hres. rewrite Hg in Hres.
  cbn [bind] in Hres.
  destruct (Float64.pim_scores log grams) as [c|e] eqn:Hc;
    [|discriminate Hres].
  cbn [bind] in Hres.
  assert (Hr : res = most_common PrimFloat.ltb None c)
    by (destruct Hnum as [->| ->]; cbn in Hres; now injection Hres as <-).
  subst res. apply float_pim_scores_Ok in Hc.
  assert (Hkeys : keys c
                  = first_seen [] (map (Py.join " ")
                                     (filter (pim_qualifies grams) grams)))
    by (subst c; apply (keys_accumulate_any _ _ _ _ _ grams [])).
  split.
  - intros v Hv Hj.
    assert (Hk : In (Py.join " " v) (keys c)).
    { rewrite Hkeys.
      destruct (first_seen_In (Py.join " " v)
                  (map (Py.join " ") (filter (pim_qualifies grams) grams)) [])
        as [[]|H]; [|exact H].
      apply in_map, filter_In. split; [exact Hv|].
      unfold pim_qualifies. now apply Nat.ltb_lt. }
    apply keys_In in Hk. destruct Hk as [s Hs].
    exists s. now apply most_common_all_In.
  - cbn [most_common]. rewrite sorted_desc_length.
    rewrite <- Hkeys. unfold keys. now rewrite length_map.
Qed.

(** X12: without a limit [pos_based_topics], for [n] 2 or 3 and a tagger
    that tags every word, returns exactly the strings of the joined n-gram
    list that match the POS template, each once, with the square of its
    number of occurrences. *)
Theorem pos_unlimited_returns_all (n : Z) (grams : list (list string)) :
  (forall t, pos_tag t <> EmptyString) ->
  (n = 2 \/ n = 3)%Z ->
  _get_n_grams pos_tag lemmatize content n = Ok grams ->
  let ngrams := map (Py.join " ") grams in
  exists res,
    pos_based_topics pos_tag lemmatize content n None = Ok res
    /\ NoDup (keys res)
    /\ forall t s,
         In (t, s) res
         <-> In t ngrams /\ qualifies pos_tag n t = true
             /\ s = (Z.of_nat (occurrences t ngrams) ^ 2)%Z.
Proof.
  intros Htag Hn Hg ngrams.
  assert (Hlen : forall g, In g grams ->
             List.length g = Z.to_nat n /\ forall x, In x g -> no_space x).
  { intros g Hin.
    destruct (get_n_grams_In _ _ _ n grams g Hg Hin) as [Htok Hl].
    split; [apply Hl; lia | exact Htok]. }
  destruct (pos_scores_total pos_tag Htag n grams Hn Hlen) as [c Hc].
  fold ngrams in Hc.
  exists (most_common Z.ltb None c). split.
  { unfold pos_based_topics. rewrite Hg. cbn [bind]. fold ngrams.
    now rewrite Hc. }
  pose proof (pos_scores_Ok pos_tag n ngrams c Hc) as [_ Hacc].
  assert (Hnd : NoDup (keys c))
    by (rewrite Hacc; apply (accumulate_NoDup Z Z.add 0%Z Z.add_0_r)).
  split; [now apply most_common_NoDup|].
  intros t s. split.
  - intros Hin. apply most_common_incl in Hin.
    destruct (pos_scores_square pos_tag n ngrams c t s Hc Hin)
      as (Hq & Hocc & ->).
    split; [now apply occurrences_pos|]. split; [exact Hq|].
    now rewrite Z.pow_2_r.
  - intros (Hin & Hq & ->). apply most_common_all_In.
    assert (Hk : In t (keys c)).
    { rewrite Hacc, (keys_accumulate Z Z.add 0%Z Z.add_0_r).
      cbn [keys map app]. rewrite map_id.
      destruct (first_seen_In t (filter (qualifies pos_tag n) ngrams) [])
        as [[]|H]; [|exact H].
      apply filter_In. now split. }
    apply keys_In in Hk. destruct Hk as [s Hs].
    destruct (pos_scores_square pos_tag n ngrams c t s Hc Hs)
      as (_ & _ & ->).
    now rewrite Z.pow_2_r.
Qed.

(** X13: in every sequence that [pos_based_topics] returns, a topic never
    stands before a topic with more occurrences: the ranking by score is
    the ranking by frequency. *)
Theorem pos_ranks_by_frequency (n : Z) (number : option Z)
  (grams : list (list string)) (res : list (string * Z)) :
  _get_n_grams pos_tag lemmatize content n = Ok grams ->
  pos_based_topics pos_tag lemmatize content n number = Ok res ->
  let ngrams := map (Py.join " ") grams in
  StronglySorted
    (fun x y => (occurrences (fst y) ngrams <= occurrences (fst x) ngrams)%nat)
    res.
Proof.
  intros Hg Hres ngrams.
  unfold pos_based_topics in Hres. rewrite Hg in Hres. cbn [bind] in Hres.
  fold ngrams in Hres. inv_bind Hres. injection Hres as <-.
  rename a into c.
  assert (Hsorted : StronglySorted (ranks_before Z.ltb c)
                      (most_common Z.ltb number c)).
  { pose proof (sorted_desc_sorted Z Z.ltb Zltb_trans Zltb_total c) as Hs.
    destruct number as [k|]; [|exact Hs]. cbn [most_common].
    rewrite <- (firstn_skipn (Z.to_nat k) (sorted_desc Z.ltb c)) in Hs.
    now apply StronglySorted_prefix in Hs. }
  eapply StronglySorted_weaken; [|exact Hsorted].
  intros [t1 s1] [t2 s2] H1 H2 Hr.
  apply ranks_before_Zle in Hr. cbn [snd fst] in *.
  apply most_common_incl in H1. apply most_common_incl in H2.
  destruct (pos_scores_square pos_tag n ngrams c t1 s1 Ha H1) as (_ & _ & ->).
  destruct (pos_scores_square pos_tag n ngrams c t2 s2 Ha H2) as (_ & _ & ->).
  nia.
Qed.

End ScorerCompleteness.

Lemma pim_unlimited_returns_all_witness :
  exists res,
    Float64.pim_based_topics (fun x => x) Example.pos_tag Example.lemmatize
      Example.ml_content 2 (Some 0%Z)
    = Ok res
    /\ (exists s, In ("machine learning", s) res)
    /\ List.length res = 1%nat.
Proof.
  assert (H : exists res,
             Float64.pim_based_topics (fun x => x) Example.pos_tag
               Example.lemmatize Example.ml_content 2 (Some 0%Z)
             = Ok res)
    by (eexists; vm_compute; reflexivity).
  destruct H as [res Hres]. exists res. split; [exact Hres|].
  destruct (pim_unlimited_returns_all Example.pos_tag Example.lemmatize
              Example.ml_content (fun x => x) 2 (Some 0%Z) Example.ml_bigrams
              res ml_bigrams_generated (or_intror eq_refl) Hres)
    as [Hall Hlen].
  split; [|exact Hlen].
  apply (Hall ["machine"; "learning"]); [now left | vm_compute; lia].
Defined.

Lemma pos_unlimited_returns_all_witness :
  exists res,
    pos_based_topics Example.pos_tag Example.lemmatize Example.fox_content 2
      None
    = Ok res
    /\ In ("brown fox", 9%Z) res.
Proof.
  destruct (pos_unlimited_returns_all Example.pos_tag Example.lemmatize
              Example.fox_content 2 Example.fox_bigrams)
    as (res & Hres & _ & Hall).
  - exact example_pos_tag_nonempty.
  - now left.
  - exact fox_bigrams_generated.
  - exists res. split; [exact Hres|]. apply Hall.
    split; [vm_compute; tauto|]. split; reflexivity.
Defined.

Lemma pos_ranks_by_frequency_witness :
  StronglySorted
    (fun x y =>
       (occurrences (fst y) (map (Py.join " ") Example.fox_bigrams)
        <= occurrences (fst x) (map (Py.join " ") Example.fox_bigrams))%nat)
    [("brown fox", 9%Z); ("lazy dog", 1%Z)].
Proof.
  apply (pos_ranks_by_frequency Example.pos_tag Example.lemmatize
           Example.fox_content 2 (Some 5%Z) Example.fox_bigrams).
  - exact fox_bigrams_generated.
  - vm_compute. reflexivity.
Defined.

(** * The page reader *)

Section PageReader.

Variable get : nat -> reply.
Variable parse : string -> Bs4.element.

Lemma status_first_digit (sc : Z) :
  (100 <= sc <= 999)%Z ->
  exists c s, str_of_Z sc = String c s
              /\ Ascii.eqb c "2" = ((200 <=? sc)%Z && (sc <=? 299)%Z).
Proof.
  intros Hsc.
  assert (Hall : forallb status_check
                   (map (fun k => (Z.of_nat k + 100)%Z) (seq 0 900)) = true)
    by (vm_compute; reflexivity).
  rewrite forallb_forall in Hall.
  specialize (Hall sc). unfold status_check in Hall.
  destruct (str_of_Z sc) as [|c s].
  - exfalso. enough (false = true) by discriminate. apply Hall.
    apply in_map_iff. exists (Z.to_nat (sc - 100)). split; [lia|].
    apply in_seq. lia.
  - exists c, s. split; [reflexivity|]. apply Bool.eqb_prop, Hall.
    apply in_map_iff. exists (Z.to_nat (sc - 100)). split; [lia|].
    apply in_seq. lia.
Qed.

Lemma get_soup_2xx (w : world) (sc : Z) (content : string) :
  get (requests_sent w) = Response sc content ->
  (200 <= sc <= 299)%Z ->
  _get_soup get parse w
  = (Done (parse content), World (S (requests_sent w)) (stdout w) (_body w)).
Proof.
  intros Hget Hsc.
  destruct (status_first_digit sc) as (c & s & Hstr & Hc); [lia|].
  unfold _get_soup, bindU, send. rewrite Hget, Hstr, Hc.
  replace ((200 <=? sc)%Z && (sc <=? 299)%Z) with true; [reflexivity|].
  symmetry. apply andb_true_iff. split; apply Z.leb_le; lia.
Qed.

(** X14.  A reply with a three-digit status code is parsed exactly when the
    code is between 200 and 299.  Any other code raises an exception whose
    message ends in the code: for the seven codes of the table the message
    is the short one, without the description that the table holds. *)
Theorem get_soup_status (w : world) (sc : Z) (content : string) :
  get (requests_sent w) = Response sc content ->
  (100 <= sc <= 999)%Z ->
  _get_soup get parse w =
  (if (200 <=? sc)%Z && (sc <=? 299)%Z then Done (parse content)
   else if existsb (Z.eqb sc) [200; 400; 401; 403; 404; 409; 500]%Z
        then Fail (Exception ("Something bad happened " ++ str_of_Z sc))
        else Fail (Exception
                     ("Status code other than 2xxx encountered. Status code is "
                      ++ str_of_Z sc)),
   World (S (requests_sent w)) (stdout w) (_body w)).
Proof.
  intros Hget Hsc.
  destruct (status_first_digit sc Hsc) as (c & s & Hstr & Hc).
  unfold _get_soup, bindU, send. rewrite Hget, Hstr, Hc.
  destruct ((200 <=? sc)%Z && (sc <=? 299)%Z); [reflexivity|].
  cbn [negb map fst _status_codes].
  destruct (existsb (Z.eqb sc) [200; 400; 401; 403; 404; 409; 500]%Z);
    reflexivity.
Qed.

Lemma get_soup_no_response (w : world) :
  (forall sc content, get (requests_sent w) <> Response sc content) ->
  exists line,
    _get_soup get parse w
    = (Fail UnboundLocalError,
       World (S (requests_sent w)) (stdout w ++ [Line line]) (_body w)).
Proof.
  intros Hget. unfold _get_soup, bindU, send, printU.
  destruct (get (requests_sent w)) as [sc c|e|e|e]; cbn.
  - now destruct (Hget sc c).
  - eexists. reflexivity.
  - eexists. reflexivity.
  - eexists. reflexivity.
Qed.

(** X15.  When the first request gets no response (no connection, a
    timeout, any other failure of the request), the handler prints one line
    and the run ends in [UnboundLocalError] at [html.content]: no content
    is returned, no second request is sent, and [_body] stays as it was. *)
Theorem failed_request_is_UnboundLocalError (w : world) :
  (forall sc content, get (requests_sent w) <> Response sc content) ->
  exists line,
    get_total_content get parse w
    = (Fail UnboundLocalError,
       World (S (requests_sent w)) (stdout w ++ [Line line]) (_body w)).
Proof.
  intros Hget. destruct (get_soup_no_response w Hget) as [line Hs].
  exists line. unfold get_total_content, _set_body, bindU. now rewrite Hs.
Qed.

End PageReader.

Lemma get_soup_status_witness :
  _get_soup (fun _ => Response 404 "Not here") (fun _ => Bs4.NavigableString EmptyString)
            (World 0 [] None)
  = (Fail (Exception "Something bad happened 404"), World 1 [] None).
Proof.
  exact (get_soup_status (fun _ => Response 404 "Not here")
           (fun _ => Bs4.NavigableString EmptyString) (World 0 [] None)
           404%Z "Not here" eq_refl ltac:(lia)).
Defined.

Lemma failed_request_is_UnboundLocalError_witness :
  exists line,
    get_total_content (fun _ => Timeout "timed out")
                      (fun _ => Bs4.NavigableString EmptyString)
                      (World 0 [] None)
    = (Fail UnboundLocalError, World 1 [Line line] None).
Proof.
  apply (failed_request_is_UnboundLocalError (fun _ => Timeout "timed out")
           (fun _ => Bs4.NavigableString EmptyString) (World 0 [] None)).
  intros sc content. discriminate.
Defined.

(** ** The document tree *)

Lemma element_induction (P : Bs4.element -> Prop) :
  (forall e, Bs4.is_tag e = false -> P e) ->
  (forall nm attrs cs, Forall P cs -> P (Bs4.Tag nm attrs cs)) ->
  forall e, P e.
Proof.
  intros Hs Ht. fix IH 1. intros [s|s|nm attrs cs]; try now apply Hs.
  apply Ht. induction cs as [|c cs IHcs]; constructor;
    [apply IH | exact IHcs].
Qed.

Lemma filter_nil_inv {A : Type} (p : A -> bool) (l : list A) (x : A) :
  filter p l = [] -> In x l -> p x = false.
Proof.
  induction l as [|a l IH]; [intros _ []|].
  cbn. destruct (p a) eqn:E; [discriminate|].
  intros Hl [<-|Hin]; [exact E | now apply IH].
Qed.

Lemma named_decompose (names names' : list string) (e : Bs4.element) :
  Bs4.named names' (Bs4.decompose names e) = Bs4.named names' e.
Proof. now destruct e. Qed.

Lemma In_descendants_tag (nm : string) (attrs : list (string * Bs4.attribute))
  (cs : list Bs4.element) (x : Bs4.element) :
  In x (Bs4.descendants (Bs4.Tag nm attrs cs)) <->
  exists c, In c cs /\ (x = c \/ In x (Bs4.descendants c)).
Proof.
  cbn [Bs4.descendants]. rewrite in_flat_map. split.
  - intros (c & Hc & [<-|Hx]); exists c; auto.
  - intros (c & Hc & [->|Hx]); exists c; split; auto; [now left | now right].
Qed.

Lemma decompose_none_named (names : list string) (e : Bs4.element) :
  Bs4.findAll_named names (Bs4.decompose names e) = [].
Proof.
  induction e as [e He|nm attrs cs IH] using element_induction;
    [now destruct e|].
  unfold Bs4.findAll_named. apply filter_none. intros x Hx.
  cbn [Bs4.decompose] in Hx. apply In_descendants_tag in Hx.
  destruct Hx as (c' & Hc' & Hx). apply in_flat_map in Hc'.
  destruct Hc' as (c & Hc & Hc').
  destruct (Bs4.named names c) eqn:Hn; [destruct Hc'|].
  destruct Hc' as [<-|[]].
  destruct Hx as [->|Hx].
  - now rewrite named_decompose.
  - rewrite Forall_forall in IH.
    exact (filter_nil_inv _ _ x (IH c Hc) Hx).
Qed.

Lemma decompose_unchanged (names : list string) (e : Bs4.element) :
  Bs4.findAll_named names e = [] -> Bs4.decompose names e = e.
Proof.
  induction e as [e He|nm attrs cs IH] using element_induction;
    [now destruct e|].
  intros Hnone. cbn [Bs4.decompose]. f_equal.
  assert (Hall : forall x, In x (Bs4.descendants (Bs4.Tag nm attrs cs)) ->
                           Bs4.named names x = false)
    by (intros x; apply filter_nil_inv, Hnone).
  clear Hnone. induction cs as [|c cs IHcs]; [reflexivity|].
  inversion IH as [|? ? Hc Hcs]; subst.
  cbn [flat_map].
  rewrite (Hall c) by (apply In_descendants_tag; exists c; split;
                       [now left | now left]).
  cbn [app]. f_equal.
  - apply Hc. unfold Bs4.findAll_named. apply filter_none. intros x Hx.
    apply Hall, In_descendants_tag. exists c. split; [now left | now right].
  - apply IHcs; [exact Hcs|]. intros x Hx. apply Hall.
    apply In_descendants_tag. apply In_descendants_tag in Hx.
    destruct Hx as (c' & Hc' & Hx). exists c'. split; [now right | exact Hx].
Qed.

(** *** The loop of [_filter_tags] *)

Lemma paths_named_tag (names : list string) (cs : list Bs4.element) :
  forall (i : nat) (nm : string) (attrs : list (string * Bs4.attribute))
         (pre : list Bs4.element),
    List.length pre = i ->
    (fix children (i : nat) (cs : list Bs4.element) : list Bs4.path :=
       match cs with
       | [] => []
       | c :: cs' =>
           (if Bs4.named names c then [[i]] else [])
           ++ map (cons i) (Bs4.paths_named names c)
           ++ children (S i) cs'
       end) i cs
    = flat_map (fun ic => (if Bs4.named names (snd ic) then [[fst ic]] else [])
                          ++ map (cons (fst ic))
                                 (Bs4.paths_named names (snd ic)))
               (combine (seq i (List.length cs)) cs).
Proof.
  induction cs as [|c cs IH]; intros i nm attrs pre Hpre; [reflexivity|].
  cbn [List.length seq combine flat_map fst snd].
  rewrite <- app_assoc. do 2 f_equal.
  apply (IH (S i) nm attrs (pre ++ [c])).
  rewrite length_app. cbn. lia.
Qed.

Lemma paths_named_nonempty (names : list string) (e : Bs4.element)
  (p : Bs4.path) :
  In p (Bs4.paths_named names e) -> p <> [].
Proof.
  destruct e as [s|s|nm attrs cs]; try (intros []).
  cbn [Bs4.paths_named]. rewrite (paths_named_tag names cs 0 nm attrs []) by reflexivity.
  rewrite in_flat_map. intros ([i c] & _ & Hin). cbn [fst snd] in Hin.
  apply in_app_or in Hin. destruct Hin as [Hin|Hin].
  - destruct (Bs4.named names c); [|destruct Hin].
    destruct Hin as [<-|[]]. discriminate.
  - apply in_map_iff in Hin. destruct Hin as (q & <- & _). discriminate.
Qed.

Lemma at_place_app {A : Type} (f : A -> A) (pre : list A) (x : A)
  (rest : list A) :
  Bs4.at_place (List.length pre) f (pre ++ x :: rest) = pre ++ f x :: rest.
Proof. induction pre as [|y pre IH]; cbn; [reflexivity | now rewrite IH]. Qed.

(** The tags below one child change the place of that child only. *)
Lemma decompose_below (nm : string) (attrs : list (string * Bs4.attribute))
  (pre rest : list (option Bs4.node)) (ps : list Bs4.path) :
  (forall p, In p ps -> p <> []) ->
  forall place : option Bs4.node,
    fold_left (fun tree tag => Bs4.decompose_at tag tree)
              (map (cons (List.length pre)) ps)
              (Bs4.Nod nm attrs (pre ++ place :: rest))
    = Bs4.Nod nm attrs
        (pre ++ option_map
                  (fold_left (fun tree tag => Bs4.decompose_at tag tree) ps)
                  place :: rest).
Proof.
  induction ps as [|p ps IH]; intros Hne place.
  - cbn. now destruct place.
  - cbn [map fold_left]. cbn [Bs4.decompose_at]. rewrite at_place_app.
    destruct p as [|j q]; [now destruct (Hne [] (or_introl eq_refl))|].
    rewrite IH by (intros p' Hp'; apply Hne; now right).
    now destruct place.
Qed.

Lemma decompose_below_gone (nm : string)
  (attrs : list (string * Bs4.attribute))
  (pre rest : list (option Bs4.node)) (ps : list Bs4.path) :
  (forall p, In p ps -> p <> []) ->
  fold_left (fun tree tag => Bs4.decompose_at tag tree)
            (map (cons (List.length pre)) ps)
            (Bs4.Nod nm attrs (pre ++ None :: rest))
  = Bs4.Nod nm attrs (pre ++ None :: rest).
Proof. intros Hne. now rewrite decompose_below. Qed.

(** The loop over the tags found below the children [cs], which stand
    behind the places [pre]. *)
Lemma filter_children (names : list string) (nm : string)
  (attrs : list (string * Bs4.attribute)) (cs : list Bs4.element) :
  forall pre : list (option Bs4.node),
    fold_left (fun tree tag => Bs4.decompose_at tag tree)
              (flat_map
                 (fun ic => (if Bs4.named names (snd ic) then [[fst ic]]
                             else [])
                            ++ map (cons (fst ic))
                                   (Bs4.paths_named names (snd ic)))
                 (combine (seq (List.length pre) (List.length cs)) cs))
              (Bs4.Nod nm attrs (pre ++ map (fun c => Some (Bs4.load c)) cs))
    = Bs4.Nod nm attrs
        (pre ++ map (fun c =>
                       if Bs4.named names c then None
                       else Some (fold_left
                                    (fun tree tag => Bs4.decompose_at tag tree)
                                    (Bs4.paths_named names c) (Bs4.load c)))
                    cs).
Proof.
  induction cs as [|c cs IH]; intros pre; [reflexivity|].
  cbn [List.length seq combine flat_map fst snd map].
  rewrite !fold_left_app.
  assert (Hne : forall p, In p (Bs4.paths_named names c) -> p <> [])
    by (intros p; apply paths_named_nonempty).
  match goal with
  | |- fold_left _ _ ?X = _ =>
      assert (Hstep :
                X = Bs4.Nod nm attrs
                      ((pre ++ [if Bs4.named names c then None
                                else Some (fold_left
                                             (fun tree tag =>
                                                Bs4.decompose_at tag tree)
                                             (Bs4.paths_named names c)
                                             (Bs4.load c))])
                       ++ map (fun c => Some (Bs4.load c)) cs))
  end.
  { rewrite <- app_assoc. cbn [app].
    destruct (Bs4.named names c).
    - cbn [fold_left Bs4.decompose_at]. rewrite at_place_app.
      now apply decompose_below_gone.
    - cbn [fold_left]. now rewrite decompose_below. }
  rewrite Hstep.
  replace (S (List.length pre))
    with (List.length
            (pre ++ [if Bs4.named names c then None
                     else Some (fold_left
                                  (fun tree tag => Bs4.decompose_at tag tree)
                                  (Bs4.paths_named names c) (Bs4.load c))]))
    by (rewrite length_app; cbn; lia).
  rewrite IH, <- app_assoc. reflexivity.
Qed.

(** The loop leaves the tree without the tags of the names. *)
Lemma filter_loop_decompose (names : list string) (e : Bs4.element) :
  Bs4.unload
    (fold_left (fun tree tag => Bs4.decompose_at tag tree)
               (Bs4.paths_named names e) (Bs4.load e))
  = Bs4.decompose names e.
Proof.
  induction e as [e He|nm attrs cs IH] using element_induction;
    [now destruct e|].
  cbn [Bs4.paths_named Bs4.load].
  rewrite (paths_named_tag names cs 0 nm attrs []) by reflexivity.
  pose proof (filter_children names nm attrs cs []) as Hloop.
  cbn [List.length app] in Hloop.
  etransitivity; [apply f_equal; exact Hloop|]. clear Hloop.
  cbn [Bs4.unload Bs4.decompose]. f_equal.
  induction cs as [|c cs IHcs]; [reflexivity|].
  inversion IH as [|? ? Hc Hcs]; subst.
  cbn [map flat_map]. rewrite (IHcs Hcs).
  destruct (Bs4.named names c); [reflexivity|].
  cbn [app]. now rewrite Hc.
Qed.

Lemma filter_tags_decompose (body : Bs4.element) :
  _filter_tags body = Bs4.decompose ["script"; "style"] body.
Proof. apply filter_loop_decompose. Qed.

(** X16.  The loop of [_filter_tags], which takes the [script] and [style]
    tags that it found out of the tree one after the other, leaves the tree
    without these tags and without all that was below them, and with
    everything else in its place: no [script] and no [style] tag is left
    anywhere below the body, and a body that had none is left as it was. *)
Theorem filter_tags_removes_scripts (body : Bs4.element) :
  _filter_tags body = Bs4.decompose ["script"; "style"] body
  /\ Bs4.findAll_named ["script"; "style"] (_filter_tags body) = []
  /\ (Bs4.findAll_named ["script"; "style"] body = [] ->
      _filter_tags body = body).
Proof.
  rewrite filter_tags_decompose. split; [reflexivity|].
  split; [apply decompose_none_named | apply decompose_unchanged].
Qed.

(** ** Whitespace in the text of a node *)

Lemma split_space (c : ascii) (s : string) :
  Py.is_space c = true -> Py.split (String c s) = Py.split s.
Proof. intros Hc. cbn [Py.split]. now rewrite Hc. Qed.

Lemma split_word_end (c c' : ascii) (s : string) :
  Py.is_space c = false -> Py.is_space c' = true ->
  Py.split (String c (String c' s))
  = String c EmptyString :: Py.split (String c' s).
Proof. intros Hc Hc'. cbn [Py.split]. now rewrite Hc, Hc'. Qed.

Lemma split_word (c c' : ascii) (s : string) :
  Py.is_space c = false -> Py.is_space c' = false ->
  Py.split (String c (String c' s)) = Py.cons_head c (Py.split (String c' s)).
Proof. intros Hc Hc'. cbn [Py.split]. now rewrite Hc, Hc'. Qed.

Lemma split_head (c : ascii) (s : string) :
  Py.is_space c = false ->
  exists w ws, Py.split (String c s) = String c w :: ws.
Proof.
  intros Hc. destruct s as [|c' s].
  - exists EmptyString, []. cbn. now rewrite Hc.
  - destruct (Py.is_space c') eqn:Hc'.
    + rewrite split_word_end by assumption. now eexists _, _.
    + rewrite split_word by assumption.
      destruct (Py.split (String c' s)) as [|w ws]; cbn; now eexists _, _.
Qed.

Lemma join_String (c : ascii) (w : string) (ws : list string) :
  Py.join " " (String c w :: ws) = String c (Py.join " " (w :: ws)).
Proof. unfold Py.join. now destruct ws. Qed.

Lemma join_split_head (s : string) (c : ascii) (r : string) :
  Py.join " " (Py.split s) = String c r -> Py.is_space c = false.
Proof.
  intros E. destruct (Py.split s) as [|w ws] eqn:Hs; [discriminate E|].
  destruct (split_tokens s w) as [Hne Hw]; [rewrite Hs; now left|].
  destruct w as [|c0 w]; [now destruct Hne|].
  rewrite join_String in E. injection E as <- _.
  cbn [all_chars] in Hw. apply andb_true_iff in Hw.
  now apply negb_true_iff.
Qed.

Lemma join_split_empty (s : string) :
  Py.join " " (Py.split s) = EmptyString -> Py.split s = [].
Proof.
  destruct (Py.split s) as [|w ws] eqn:Hs; [reflexivity|]. intros E.
  destruct (split_tokens s w) as [Hne Hw]; [rewrite Hs; now left|].
  destruct w as [|c0 w]; [now destruct Hne|].
  rewrite join_String in E. discriminate E.
Qed.

Lemma rstrip_sub_runs (s : string) :
  Spec.rstrip (Re.sub_runs Py.is_space true s) = Py.join " " (Py.split s)
  /\ Spec.rstrip (Re.sub_runs Py.is_space false s)
     = match s with
       | EmptyString => EmptyString
       | String c _ =>
           if Py.is_space c
           then match Py.join " " (Py.split s) with
                | EmptyString => EmptyString
                | r => String " " r
                end
           else Py.join " " (Py.split s)
       end.
Proof.
  induction s as [|c s [IHt IHf]]; [split; reflexivity|].
  destruct (Py.is_space c) eqn:Hc.
  - rewrite (split_space c s Hc). cbn [Re.sub_runs]. rewrite Hc.
    split; [exact IHt|]. cbn [Spec.rstrip]. rewrite IHt.
    now destruct (Py.join " " (Py.split s)).
  - assert (E : forall b,
               Spec.rstrip (Re.sub_runs Py.is_space b (String c s))
               = Py.join " " (Py.split (String c s))).
    { intros b. cbn [Re.sub_runs]. rewrite Hc. cbn [Spec.rstrip].
      rewrite IHf, Hc. destruct s as [|c' s].
      - cbn. now rewrite Hc.
      - destruct (Py.is_space c') eqn:Hc'.
        + rewrite split_word_end by assumption.
          destruct (Py.join " " (Py.split (String c' s))) as [|c0 r] eqn:Hj.
          * now rewrite (join_split_empty _ Hj).
          * destruct (Py.split (String c' s)) as [|w ws];
              [discriminate Hj|].
            change (Py.join " " (String c EmptyString :: w :: ws))
              with (String c (String " " (Py.join " " (w :: ws)))).
            now rewrite Hj.
        + rewrite split_word by assumption.
          destruct (split_head c' s Hc') as (w & ws & Hs). rewrite Hs.
          cbn [Py.cons_head]. rewrite (join_String c), (join_String c').
          reflexivity. }
    split; apply E.
Qed.

Lemma strip_sub_plus (content : string) :
  strip (Re.sub_plus Py.is_space content) = Py.join " " (Py.split content).
Proof.
  unfold strip, Re.sub_plus.
  rewrite (proj2 (rstrip_sub_runs content)).
  destruct content as [|c s]; [reflexivity|].
  assert (Hl : forall r, Py.join " " (Py.split (String c s)) = r ->
                         Spec.lstrip r = r).
  { intros [|c0 r] Hr; [reflexivity|].
    cbn [Spec.lstrip]. now rewrite (join_split_head _ _ _ Hr). }
  destruct (Py.is_space c) eqn:Hc; [|now apply Hl].
  destruct (Py.join " " (Py.split (String c s))) as [|c0 r] eqn:Hj;
    [reflexivity|].
  change (Spec.lstrip (String " " (String c0 r)))
    with (Spec.lstrip (String c0 r)).
  now apply Hl.
Qed.

(** ** The text of the body *)

Lemma body_child_In (min_char : Z) (threshold : PrimFloat.float)
  (children : list Bs4.element) (s : string) :
  forall body_content : list string,
    In s (fold_left (body_child min_char threshold) children body_content)
    <-> In s body_content
        \/ exists child content,
             In child children
             /\ Bs4.is_tag child = true
             /\ _filter_content child min_char threshold = true
             /\ Bs4.find_string child = Some content
             /\ s = Py.join " " (Py.split content)
             /\ s <> EmptyString
             /\ (min_char < Z.of_nat (String.length s))%Z.
Proof.
  induction children as [|child children IH]; intros body_content.
  - cbn. split; [auto|]. intros [H|(? & ? & [] & _)]. exact H.
  - cbn [fold_left]. rewrite IH. clear IH. unfold body_child at 1.
    split.
    + intros [Hin|(child' & content & Hc & H)].
      * destruct (Bs4.is_tag child) eqn:Ht; [|now left].
        destruct (_filter_content child min_char threshold) eqn:Hf;
          [|now left].
        destruct (Bs4.find_string child) as [content|] eqn:Hs; [|now left].
        rewrite strip_sub_plus in Hin.
        destruct (negb (Py.join " " (Py.split content) =? EmptyString)%string
                  && (min_char
                      <? Z.of_nat (String.length
                                     (Py.join " " (Py.split content))))%Z)
          eqn:Hk; [|now left].
        apply in_app_iff in Hin. destruct Hin as [Hin|[<-|[]]]; [now left|].
        right. exists child, content.
        apply andb_true_iff in Hk. destruct Hk as [Hne Hlen].
        apply negb_true_iff, String.eqb_neq in Hne. apply Z.ltb_lt in Hlen.
        repeat split; auto. now left.
      * right. exists child', content. split; [now right | exact H].
    + intros [Hin|(child' & content & [<-|Hc] & Ht & Hf & Hs & E & Hne & Hlen)].
      * left. destruct (Bs4.is_tag child); [|exact Hin].
        destruct (_filter_content child min_char threshold); [|exact Hin].
        destruct (Bs4.find_string child) as [content|]; [|exact Hin].
        match goal with
        | |- In s (if ?b then _ else _) => destruct b
        end; [apply in_app_iff; now left | exact Hin].
      * left. rewrite Ht, Hf, Hs, strip_sub_plus, <- E.
        apply String.eqb_neq in Hne. rewrite Hne.
        apply Z.ltb_lt in Hlen. rewrite Hlen. cbn.
        apply in_app_iff. right. now left.
      * right. exists child', content. repeat split; auto.
Qed.

(** X17.  What [_get_body_content] returns: [s] is in the list exactly when
    some tag of the body, after the [script] and [style] tags are removed,
    passes the density filter against the threshold of that body, has a
    string directly in it, and [s] is the first such string with its words
    joined by single spaces, which is longer than 25 characters.  The world
    keeps the filtered body. *)
Theorem body_content_entries (w w' : world) (body_content : list string) :
  _get_body_content w = (Done body_content, w') ->
  exists body threshold,
    _body w = Some body
    /\ w' = World (requests_sent w) (stdout w)
                  (Some (Bs4.decompose ["script"; "style"] body))
    /\ _find_filter_threshold w' = (Done threshold, w')
    /\ forall s,
         In s body_content <->
         exists child content,
           In child (Bs4.findAll (Bs4.decompose ["script"; "style"] body))
           /\ _filter_content child 25 threshold = true
           /\ Bs4.find_string child = Some content
           /\ s = Py.join " " (Py.split content)
           /\ (25 < String.length s)%nat.
Proof.
  unfold _get_body_content, bindU, read_body at 1.
  destruct (_body w) as [body|] eqn:Hb; [|discriminate].
  rewrite filter_tags_decompose.
  unfold store_body, _find_filter_threshold, bindU, read_body.
  cbn [_body requests_sent stdout].
  set (body' := Bs4.decompose ["script"; "style"] body).
  destruct (Z.of_nat (List.length (Bs4.findAll body')) =? 0)%Z eqn:Hz;
    [discriminate|].
  unfold retU. intros E. injection E as <- <-.
  exists body. eexists. split; [reflexivity|]. split; [reflexivity|].
  cbn [_body]. rewrite Hz. split; [reflexivity|].
  intros s. rewrite body_child_In. split.
  - intros [[]|(child & content & Hc & _ & Hf & Hs & E & _ & Hlen)].
    exists child, content. repeat split; auto. lia.
  - intros (child & content & Hc & Hf & Hs & E & Hlen). right.
    exists child, content. repeat split; auto.
    + unfold Bs4.findAll in Hc. now apply filter_In in Hc.
    + intros ->. cbn in Hlen. lia.
    + lia.
Qed.

Lemma body_content_entries_witness :
  exists body threshold,
    _body (World 1 [] (Some Page.body)) = Some body
    /\ World 1 [] (Some (Bs4.decompose ["script"; "style"] Page.body))
       = World 1 [] (Some (Bs4.decompose ["script"; "style"] body))
    /\ _find_filter_threshold
         (World 1 [] (Some (Bs4.decompose ["script"; "style"] Page.body)))
       = (Done threshold,
          World 1 [] (Some (Bs4.decompose ["script"; "style"] Page.body)))
    /\ forall s,
         In s ["Machine learning is the study of computer algorithms."] <->
         exists child content,
           In child (Bs4.findAll (Bs4.decompose ["script"; "style"] body))
           /\ _filter_content child 25 threshold = true
           /\ Bs4.find_string child = Some content
           /\ s = Py.join " " (Py.split content)
           /\ (25 < String.length s)%nat.
Proof.
  apply (body_content_entries (World 1 [] (Some Page.body))
           (World 1 [] (Some (Bs4.decompose ["script"; "style"] Page.body)))
           ["Machine learning is the study of computer algorithms."]).
  vm_compute. reflexivity.
Defined.

(** ** The three requests of [get_total_content] *)

Lemma only_scripts_no_tags (names : list string) (body : Bs4.element) :
  (forall c, In c (contents body) -> Bs4.is_tag c = true ->
             Bs4.named names c = true) ->
  Bs4.findAll (Bs4.decompose names body) = [].
Proof.
  intros Hall. destruct body as [s|s|nm attrs cs]; try reflexivity.
  unfold Bs4.findAll. apply filter_none. intros x Hx.
  cbn [Bs4.decompose] in Hx. apply In_descendants_tag in Hx.
  destruct Hx as (c' & Hc' & Hx). apply in_flat_map in Hc'.
  destruct Hc' as (c & Hc & Hc').
  destruct (Bs4.named names c) eqn:Hn; [destruct Hc'|].
  destruct Hc' as [<-|[]].
  destruct c as [s|s|nm' attrs' cs'].
  - destruct Hx as [->|[]]. reflexivity.
  - destruct Hx as [->|[]]. reflexivity.
  - rewrite (Hall _ Hc eq_refl) in Hn. discriminate Hn.
Qed.

Lemma child_tag_findAll (body c : Bs4.element) :
  In c (contents body) -> Bs4.is_tag c = true -> Bs4.findAll body <> [].
Proof.
  intros Hc Ht Hnil. destruct body as [s|s|nm attrs cs]; try now destruct Hc.
  assert (Hin : In c (Bs4.findAll (Bs4.Tag nm attrs cs))).
  { apply filter_In. split; [|exact Ht].
    apply In_descendants_tag. exists c. split; [exact Hc | now left]. }
  rewrite Hnil in Hin. destruct Hin.
Qed.

Section Requests.

Variable get : nat -> reply.
Variable parse : string -> Bs4.element.

Lemma set_body_result (w : world) (sc : Z) (content : string)
  (body : Bs4.element) :
  get (requests_sent w) = Response sc content ->
  (200 <= sc <= 299)%Z ->
  Bs4.find "body" (parse content) = Some body ->
  Bs4.findAll body <> [] ->
  _set_body get parse w
  = (Done tt, World (S (requests_sent w)) (stdout w) (Some body)).
Proof.
  intros Hget Hsc Hbody Htags. unfold _set_body, bindU.
  rewrite (get_soup_2xx get parse w sc content Hget Hsc), Hbody.
  destruct (Bs4.findAll body); [now destruct Htags | reflexivity].
Qed.

(** X18.  A page whose body holds tags, all of them [script] or [style]:
    [_set_body] accepts the body, [_filter_tags] then removes every tag, and
    the threshold divides by the number of tags that are left.  The run ends
    in [ZeroDivisionError] after one request, with nothing printed. *)
Theorem body_of_scripts_is_ZeroDivisionError (w : world) (sc : Z)
  (content : string) (body : Bs4.element) :
  get (requests_sent w) = Response sc content ->
  (200 <= sc <= 299)%Z ->
  Bs4.find "body" (parse content) = Some body ->
  (exists c, In c (contents body) /\ Bs4.is_tag c = true) ->
  (forall c, In c (contents body) -> Bs4.is_tag c = true ->
             Bs4.named ["script"; "style"] c = true) ->
  get_total_content get parse w
  = (Fail (Builtin ZeroDivisionError),
     World (S (requests_sent w)) (stdout w)
           (Some (Bs4.decompose ["script"; "style"] body))).
Proof.
  intros Hget Hsc Hbody (c & Hc & Ht) Hall.
  unfold get_total_content, bindU at 1.
  rewrite (set_body_result w sc content body Hget Hsc Hbody
             (child_tag_findAll body c Hc Ht)).
  unfold bindU at 1.
  unfold _get_body_content, bindU, read_body.
  cbn [_body requests_sent stdout]. rewrite filter_tags_decompose.
  unfold store_body, _find_filter_threshold, bindU, read_body.
  cbn [_body requests_sent stdout].
  now rewrite (only_scripts_no_tags _ body Hall).
Qed.

End Requests.

Lemma body_of_scripts_is_ZeroDivisionError_witness :
  get_total_content Page.get (fun _ => Page.script_only) Page.start
  = (Fail (Builtin ZeroDivisionError),
     World 1 [] (Some (Bs4.Tag "body" [] []))).
Proof.
  apply (body_of_scripts_is_ZeroDivisionError Page.get
           (fun _ => Page.script_only) Page.start 200%Z "page"
           (Bs4.Tag "body" []
              [Bs4.Tag "script" [] [Bs4.NavigableString "var x = 1;"]])).
  - reflexivity.
  - lia.
  - reflexivity.
  - eexists. split; [now left | reflexivity].
  - intros c [<-|[]] _. reflexivity.
Defined.

(** ** The content of the [meta] tags *)

Lemma first_seen_incl (x : string) (l seen : list string) :
  In x (first_seen seen l) -> In x l.
Proof.
  revert seen. induction l as [|y l IH]; intros seen; [intros []|].
  cbn [first_seen]. destruct (mem y seen).
  - intros H. right. exact (IH _ H).
  - intros [->|H]; [now left | right; exact (IH _ H)].
Qed.

Lemma remove_first_incl (x y : string) (l : list string) :
  In y (remove_first x l) -> In y l.
Proof.
  induction l as [|z l IH]; [intros []|]. cbn [remove_first].
  destruct (String.eqb z x); [now right|].
  intros [->|H]; [now left | right; now apply IH].
Qed.

Lemma attr_lookup_key (attrs : list (string * Bs4.attribute)) (key : string) :
  In key (map fst attrs) -> Bs4.attr_lookup attrs key <> None.
Proof.
  induction attrs as [|[k v] attrs IH]; [intros []|].
  cbn [map fst Bs4.attr_lookup]. destruct (String.eqb_spec k key) as [->|Hne].
  - discriminate.
  - intros [E|H]; [now destruct Hne | now apply IH].
Qed.

Lemma forU_meta_attr (m : Bs4.element) (w : world) (attrs : list string) :
  (forall a, In a attrs -> Bs4.attr_lookup (Bs4.attrs_of m) a <> None) ->
  forall content : list Bs4.attribute,
    let hits :=
      filter (fun attr => match Bs4.attr_lookup (Bs4.attrs_of m) attr with
                          | Some v => meta_word v
                          | None => false
                          end) attrs in
    forU attrs content (meta_attr m) w
    = (match Bs4.attr_lookup (Bs4.attrs_of m) "content", hits with
       | Some v, _ => Done (content ++ map (fun _ => v) hits)
       | None, [] => Done content
       | None, _ :: _ => Fail (KeyError "content")
       end, w).
Proof.
  induction attrs as [|a attrs IH]; intros Hkeys content.
  - cbn. rewrite app_nil_r.
    now destruct (Bs4.attr_lookup (Bs4.attrs_of m) "content").
  - cbn [forU filter]. unfold bindU at 1, meta_attr at 1, getitem at 1.
    destruct (Bs4.attr_lookup (Bs4.attrs_of m) a) as [v|] eqn:Ha;
      [|now destruct (Hkeys a (or_introl eq_refl))].
    unfold bindU at 1, retU at 1. fold (meta_word v).
    assert (Hkeys' : forall a', In a' attrs ->
                       Bs4.attr_lookup (Bs4.attrs_of m) a' <> None)
      by (intros a' H; apply Hkeys; now right).
    destruct (meta_word v).
    + unfold getitem, bindU.
      destruct (Bs4.attr_lookup (Bs4.attrs_of m) "content") as [c|] eqn:Hc.
      * unfold retU. rewrite (IH Hkeys'). cbn [map].
        now rewrite <- app_assoc.
      * reflexivity.
    + unfold retU. now rewrite (IH Hkeys').
Qed.

Lemma meta_tag_result (m : Bs4.element) (w : world)
  (content : list Bs4.attribute) :
  meta_tag content m w
  = (if meta_ok m then Done (content ++ meta_values m)
     else Fail (KeyError "content"), w).
Proof.
  unfold meta_tag. rewrite forU_meta_attr.
  - unfold meta_ok, meta_values. fold (meta_hits m).
    destruct (Bs4.attr_lookup (Bs4.attrs_of m) "content");
      [reflexivity|].
    destruct (meta_hits m); [now rewrite app_nil_r | reflexivity].
  - intros a Ha.
    assert (Hin : In a (Bs4.attr_keys m))
      by (destruct (mem "content" (Bs4.attr_keys m));
          [now apply remove_first_incl in Ha | exact Ha]).
    destruct m as [s|s|nm attrs cs]; try now destruct Hin.
    apply attr_lookup_key. now apply first_seen_incl in Hin.
Qed.

Lemma forU_meta_tag (w : world) (meta : list Bs4.element) :
  forall content : list Bs4.attribute,
    forU meta content meta_tag w
    = (if forallb meta_ok meta then Done (content ++ flat_map meta_values meta)
       else Fail (KeyError "content"), w).
Proof.
  induction meta as [|m meta IH]; intros content.
  - cbn. now rewrite app_nil_r.
  - cbn [forU forallb flat_map]. unfold bindU. rewrite meta_tag_result.
    destruct (meta_ok m); [|reflexivity].
    rewrite IH. cbn [andb]. now rewrite <- app_assoc.
Qed.

(** X19.  What [_get_meta_content] does with a page that was served.  Every
    [meta] tag, in document order, adds the value of its [content] once for
    each of its other attributes whose value holds one of the words
    keywords, title and description (as a substring of a string value, as a
    member of a list value).  A tag with such an attribute and without a
    [content] ends the call in [KeyError].  The only line that can be
    printed tells that the page has no [meta] tag. *)
Theorem get_meta_content_result (get : nat -> reply)
  (parse : string -> Bs4.element) (w : world) (sc : Z) (content : string) :
  get (requests_sent w) = Response sc content ->
  (200 <= sc <= 299)%Z ->
  let meta := Bs4.findAll_named ["meta"] (parse content) in
  _get_meta_content get parse w
  = (if forallb meta_ok meta then Done (flat_map meta_values meta)
     else Fail (KeyError "content"),
     World (S (requests_sent w))
           (match meta with
            | [] => stdout w ++ [Line "No meta information found"]
            | _ :: _ => stdout w
            end)
           (_body w)).
Proof.
  intros Hget Hsc meta. unfold _get_meta_content, bindU at 1.
  rewrite (get_soup_2xx get parse w sc content Hget Hsc).
  fold meta. unfold bindU.
  destruct meta as [|m meta']; cbn [List.length Nat.ltb Nat.leb].
  - reflexivity.
  - unfold retU. now rewrite forU_meta_tag.
Qed.

Lemma get_meta_content_result_witness :
  _get_meta_content Page.get (fun _ => Page.soup) Page.start
  = (Done [Bs4.AttrStr "Notes on machine learning"], World 1 [] None).
Proof.
  exact (get_meta_content_result Page.get (fun _ => Page.soup) Page.start
           200%Z "page" eq_refl ltac:(lia)).
Defined.

(** ** The whole content *)

Section TotalContent.

Variable get : nat -> reply.
Variable parse : string -> Bs4.element.

Lemma get_soup_inv (w w' : world) (soup : Bs4.element) :
  _get_soup get parse w = (Done soup, w') ->
  exists sc content,
    get (requests_sent w) = Response sc content
    /\ soup = parse content
    /\ w' = World (S (requests_sent w)) (stdout w) (_body w).
Proof.
  unfold _get_soup, bindU, send.
  destruct (get (requests_sent w)) as [sc c|e|e|e]; try discriminate.
  destruct (str_of_Z sc) as [|d ds]; [discriminate|].
  destruct (negb (Ascii.eqb d "2")).
  - destruct (existsb (Z.eqb sc) (map fst _status_codes)); discriminate.
  - unfold retU. intros E. injection E as <- <-. now exists sc, c.
Qed.

Lemma set_body_inv (w w' : world) (u : unit) :
  _set_body get parse w = (Done u, w') ->
  exists sc content body,
    get (requests_sent w) = Response sc content
    /\ Bs4.find "body" (parse content) = Some body
    /\ w' = World (S (requests_sent w)) (stdout w) (Some body).
Proof.
  unfold _set_body, bindU.
  destruct (_get_soup get parse w) as [[soup|e] w1] eqn:Hs; [|discriminate].
  destruct (get_soup_inv _ _ _ Hs) as (sc & c & Hget & -> & ->).
  destruct (Bs4.find "body" (parse c)) as [body|] eqn:Hb; [|discriminate].
  destruct (0 <? List.length (Bs4.findAll body))%nat; [|discriminate].
  cbn [requests_sent stdout]. intros E. injection E as <-.
  now exists sc, c, body.
Qed.

Lemma get_body_content_world (w w' : world) (body_content : list string) :
  _get_body_content w = (Done body_content, w') ->
  exists body,
    _body w = Some body
    /\ w' = World (requests_sent w) (stdout w)
                  (Some (Bs4.decompose ["script"; "style"] body)).
Proof.
  unfold _get_body_content, bindU, read_body at 1.
  destruct (_body w) as [body|] eqn:Hb; [|discriminate].
  rewrite filter_tags_decompose.
  unfold store_body, _find_filter_threshold, bindU, read_body.
  cbn [_body requests_sent stdout].
  destruct (Z.of_nat (List.length
                        (Bs4.findAll
                           (Bs4.decompose ["script"; "style"] body))) =? 0)%Z;
    [discriminate|].
  unfold retU. intros E. injection E as _ <-. now exists body.
Qed.

Lemma get_meta_content_inv (w w' : world) (meta_content : list Bs4.attribute) :
  _get_meta_content get parse w = (Done meta_content, w') ->
  exists sc content out,
    get (requests_sent w) = Response sc content
    /\ meta_content
       = flat_map meta_values (Bs4.findAll_named ["meta"] (parse content))
    /\ w' = World (S (requests_sent w)) (stdout w ++ out) (_body w).
Proof.
  unfold _get_meta_content, bindU at 1.
  destruct (_get_soup get parse w) as [[soup|e] w1] eqn:Hs; [|discriminate].
  destruct (get_soup_inv _ _ _ Hs) as (sc & c & Hget & -> & ->).
  unfold bindU.
  destruct (Bs4.findAll_named ["meta"] (parse c)) as [|m meta] eqn:Hm.
  - cbn. intros E. injection E as <- <-.
    exists sc, c, [Line "No meta information found"]. rewrite Hm. auto.
  - cbn [List.length Nat.ltb Nat.leb]. unfold retU. rewrite forU_meta_tag.
    destruct (forallb meta_ok (m :: meta)); [|discriminate].
    intros E. injection E as <- <-. exists sc, c, [].
    rewrite Hm, app_nil_r. auto.
Qed.

Lemma get_title_content_inv (w w' : world) (title_content : option (list string)) :
  _get_title_content get parse w = (Done title_content, w') ->
  exists sc content out,
    get (requests_sent w) = Response sc content
    /\ title_content
       = option_map (fun title => [Bs4.text title])
                    (Bs4.find "title" (parse content))
    /\ w' = World (S (requests_sent w)) (stdout w ++ out) (_body w).
Proof.
  unfold _get_title_content, bindU at 1.
  destruct (_get_soup get parse w) as [[soup|e] w1] eqn:Hs; [|discriminate].
  destruct (get_soup_inv _ _ _ Hs) as (sc & c & Hget & -> & ->).
  destruct (Bs4.find "title" (parse c)) as [title|] eqn:Ht.
  - unfold retU. intros E. injection E as <- <-. exists sc, c, [].
    rewrite Ht, app_nil_r. auto.
  - cbn. intros E. injection E as <- <-.
    exists sc, c, [Line "No title tag found"]. rewrite Ht. auto.
Qed.

Lemma get_total_content_inv (w w' : world)
  (total_content : list Bs4.attribute) :
  get_total_content get parse w = (Done total_content, w') ->
  exists sc0 c0 sc1 c1 sc2 c2 body title body_content out,
    get (requests_sent w) = Response sc0 c0
    /\ get (1 + requests_sent w)%nat = Response sc1 c1
    /\ get (2 + requests_sent w)%nat = Response sc2 c2
    /\ Bs4.find "body" (parse c0) = Some body
    /\ Bs4.find "title" (parse c2) = Some title
    /\ fst (_get_body_content
              (World (S (requests_sent w)) (stdout w) (Some body)))
       = Done body_content
    /\ total_content
       = map Bs4.AttrStr body_content
         ++ flat_map meta_values (Bs4.findAll_named ["meta"] (parse c1))
         ++ [Bs4.AttrStr (Bs4.text title)]
    /\ w' = World (3 + requests_sent w) (stdout w ++ out)
                  (Some (Bs4.decompose ["script"; "style"] body)).
Proof.
  unfold get_total_content, bindU at 1.
  destruct (_set_body get parse w) as [[u|e] w1] eqn:H1; [|discriminate].
  destruct (set_body_inv _ _ _ H1) as (sc0 & c0 & body & Hg0 & Hb & ->).
  unfold bindU at 1.
  destruct (_get_body_content _) as [[body_content|e] w2] eqn:H2;
    [|discriminate].
  destruct (get_body_content_world _ _ _ H2) as (body' & Hb' & ->).
  cbn [_body requests_sent stdout] in Hb'. injection Hb' as <-.
  unfold bindU at 1.
  destruct (_get_meta_content get parse _) as [[meta_content|e] w3] eqn:H3;
    [|discriminate].
  destruct (get_meta_content_inv _ _ _ H3) as (sc1 & c1 & out1 & Hg1 & -> & ->).
  cbn [_body requests_sent stdout] in Hg1 |- *.
  unfold bindU at 1.
  destruct (_get_title_content get parse _) as [[title_content|e] w4] eqn:H4;
    [|discriminate].
  destruct (get_title_content_inv _ _ _ H4)
    as (sc2 & c2 & out2 & Hg2 & -> & ->).
  cbn [_body requests_sent stdout] in Hg2 |- *.
  destruct (Bs4.find "title" (parse c2)) as [title|] eqn:Ht; [|discriminate].
  cbn [option_map map]. unfold retU. intros E. injection E as <- <-.
  exists sc0, c0, sc1, c1, sc2, c2, body, title, body_content, (out1 ++ out2).
  rewrite H2. cbn [fst]. repeat split; auto.
  now rewrite app_assoc.
Qed.

(** X20.  A run of [get_total_content] that returns has sent three
    requests, one for the body, one for the [meta] tags and one for the
    title, and each of them was answered.  The content is made of the three
    answers: the texts of the body of the first, then the [meta] values of
    the second, then as its last entry the title of the third.  The world
    keeps the body of the first answer, without its scripts and styles. *)
Theorem get_total_content_three_requests (w w' : world)
  (total_content : list Bs4.attribute) :
  get_total_content get parse w = (Done total_content, w') ->
  exists sc0 c0 sc1 c1 sc2 c2 body title body_content,
    get (requests_sent w) = Response sc0 c0
    /\ get (1 + requests_sent w)%nat = Response sc1 c1
    /\ get (2 + requests_sent w)%nat = Response sc2 c2
    /\ Bs4.find "body" (parse c0) = Some body
    /\ Bs4.find "title" (parse c2) = Some title
    /\ fst (_get_body_content
              (World (S (requests_sent w)) (stdout w) (Some body)))
       = Done body_content
    /\ total_content
       = map Bs4.AttrStr body_content
         ++ flat_map meta_values (Bs4.findAll_named ["meta"] (parse c1))
         ++ [Bs4.AttrStr (Bs4.text title)]
    /\ requests_sent w' = (3 + requests_sent w)%nat
    /\ _body w' = Some (Bs4.decompose ["script"; "style"] body).
Proof.
  intros H. destruct (get_total_content_inv w w' total_content H)
    as (sc0 & c0 & sc1 & c1 & sc2 & c2 & body & title & body_content & out
        & H0 & H1 & H2 & Hb & Ht & Hc & E & ->).
  exists sc0, c0, sc1, c1, sc2, c2, body, title, body_content.
  repeat split; auto.
Qed.

(** X21.  A page without a [title] tag never gives a content: when the
    answer to the third request has no title, [_get_title_content] returns
    [None] and the sum of the three lists fails, so [get_total_content] ends
    in an exception whatever the first two answers were. *)
Theorem untitled_page_has_no_content (w : world) (sc : Z) (content : string) :
  get (2 + requests_sent w)%nat = Response sc content ->
  Bs4.find "title" (parse content) = None ->
  exists e w', get_total_content get parse w = (Fail e, w').
Proof.
  intros Hget Hnone.
  destruct (get_total_content get parse w) as [[total_content|e] w'] eqn:H;
    [|now exists e, w'].
  destruct (get_total_content_inv w w' total_content H)
    as (sc0 & c0 & sc1 & c1 & sc2 & c2 & body & title & body_content & out
        & H0 & H1 & H2 & Hb & Ht & _).
  rewrite Hget in H2. injection H2 as <- <-.
  rewrite Hnone in Ht. discriminate Ht.
Qed.

End TotalContent.

Lemma get_total_content_three_requests_witness :
  fst (get_total_content Page.get (fun _ => Page.soup) Page.start)
  = Done [Bs4.AttrStr "Machine learning is the study of computer algorithms.";
          Bs4.AttrStr "Notes on machine learning";
          Bs4.AttrStr "Machine learning"]
  /\ requests_sent
       (snd (get_total_content Page.get (fun _ => Page.soup) Page.start))
     = 3%nat.
Proof.
  assert (H : get_total_content Page.get (fun _ => Page.soup) Page.start
              = (Done [Bs4.AttrStr
                         "Machine learning is the study of computer algorithms.";
                       Bs4.AttrStr "Notes on machine learning";
                       Bs4.AttrStr "Machine learning"],
                 World 3 []
                   (Some (Bs4.decompose ["script"; "style"] Page.body))))
    by (vm_compute; reflexivity).
  destruct (get_total_content_three_requests _ _ _ _ _ H)
    as (_ & _ & _ & _ & _ & _ & _ & _ & _ & _ & _ & _ & _ & _ & _ & _ & Hr & _).
  rewrite H. split; [reflexivity | exact Hr].
Defined.

Lemma untitled_page_has_no_content_witness :
  exists e w',
    get_total_content Page.get (fun _ => Page.untitled) Page.start
    = (Fail e, w').
Proof.
  apply (untitled_page_has_no_content Page.get (fun _ => Page.untitled)
           Page.start 200%Z "page"); reflexivity.
Defined.

(** * The command line *)

Lemma or_default_nonzero (arg : option Z) (d : Z) :
  d <> 0%Z -> or_default arg d <> 0%Z.
Proof.
  intros Hd. unfold or_default, truthy. destruct arg as [v|]; [|exact Hd].
  destruct (Z.eqb_spec v 0); [exact Hd | assumption].
Qed.

Lemma most_common_length {V : Type} (ltb : V -> V -> bool) (k : Z)
  (c : counter V) :
  (List.length (most_common ltb (Some k) c) <= Z.to_nat k)%nat.
Proof. cbn. apply firstn_le_length. Qed.

Section CommandLine.

Variable pos_tag : string -> string.
Variable lemmatize : string -> string -> string.
Variable get : nat -> reply.
Variable parse : string -> Bs4.element.

Lemma on_content_Done {A : Type} (f : list string -> result A)
  (total_content : list Bs4.attribute) (w w' : world) (a : A) :
  on_content pos_tag lemmatize f total_content w = (Done a, w') ->
  exists content, f content = Ok a /\ w' = w.
Proof.
  unfold on_content. destruct (texts total_content) as [content all].
  destruct all.
  - unfold liftU. destruct (f content) as [a'|e] eqn:Hf; [|discriminate].
    unfold retU. intros E. injection E as <- <-. now exists content.
  - destruct (_lemmatize_content pos_tag lemmatize content); discriminate.
Qed.

(** X22.  A run of the command line that ends well has sent three requests
    and has printed, after what the page reader printed, the line that
    announces the approach and then one list of topics.  The list never has
    more topics than the number asked for, which is 5 when the option is
    absent or 0: the scorer by pointwise mutual information is never asked
    for all topics. *)
Theorem main_prints_at_most_number (n : option Z) (approach : option string)
  (number : option Z) (w w' : world) (u : unit) :
  main pos_tag lemmatize get parse n approach number w = (Done u, w') ->
  exists out line topics count,
    stdout w' = stdout w ++ out ++ [Line line; topics]
    /\ topics_count topics = Some count
    /\ (count <= Z.to_nat (or_default number 5))%nat
    /\ requests_sent w' = (3 + requests_sent w)%nat.
Proof.
  unfold main, bindU at 1.
  destruct (get_total_content get parse w) as [[total_content|e] w1] eqn:H;
    [|discriminate].
  destruct (get_total_content_inv get parse w w1 total_content H)
    as (sc0 & c0 & sc1 & c1 & sc2 & c2 & body & title & body_content & out
        & _ & _ & _ & _ & _ & _ & _ & ->).
  destruct (match approach with
            | Some a => (a =? "pos")%string
            | None => false
            end).
  - unfold bindU at 1, printU at 1. cbn [requests_sent stdout _body].
    unfold bindU.
    destruct (on_content _ _ _ _ _) as [[topics|e] w2] eqn:Hc; [|discriminate].
    destruct (on_content_Done _ _ _ _ _ Hc) as (content & Hf & ->).
    unfold printU. cbn [requests_sent stdout _body].
    intros E. injection E as _ <-.
    eexists out, _, (PosTopics topics), _. cbn [stdout requests_sent].
    split; [now rewrite <- !app_assoc|]. split; [reflexivity|].
    split; [|reflexivity].
    unfold pos_based_topics, bind in Hf.
    destruct (_get_n_grams _ _ _ _) as [grams|]; [|discriminate].
    destruct (pos_scores _ _ _) as [c|]; [|discriminate].
    injection Hf as <-. apply most_common_length.
  - unfold bindU at 1, printU at 1. cbn [requests_sent stdout _body].
    unfold bindU.
    destruct (on_content _ _ _ _ _) as [[topics|e] w2] eqn:Hc; [|discriminate].
    destruct (on_content_Done _ _ _ _ _ Hc) as (content & Hf & ->).
    unfold printU. cbn [requests_sent stdout _body].
    intros E. injection E as _ <-.
    eexists out, _, (PimTopics topics), _. cbn [stdout requests_sent].
    split; [now rewrite <- !app_assoc|]. split; [reflexivity|].
    split; [|reflexivity].
    unfold pim_based_topics, bind in Hf.
    destruct (_get_n_grams _ _ _ _) as [grams|]; [|discriminate].
    destruct (pim_scores _) as [c|]; [|discriminate].
    assert (Ht : truthy (Some (or_default number 5)) = true).
    { cbn. apply negb_true_iff, Z.eqb_neq, or_default_nonzero. discriminate. }
    rewrite Ht in Hf. injection Hf as <-. apply most_common_length.
Qed.

(** X23.  With the approach pos and a number of words other than 2 and 3
    (an absent or zero [--n] counts as 3), the refusal comes last: the page
    is fetched three times, the line that announces the approach is
    printed, the whole content is lemmatized, and only then the run ends in
    the [ValueError], without a list of topics. *)
Theorem main_pos_refuses_late (n number : option Z) (w w1 : world)
  (total_content : list Bs4.attribute) (content : list string) :
  get_total_content get parse w = (Done total_content, w1) ->
  texts total_content = (content, true) ->
  tags_content pos_tag content ->
  or_default n 3 <> 2%Z ->
  or_default n 3 <> 3%Z ->
  main pos_tag lemmatize get parse n (Some "pos") number w
  = (Fail (Builtin invalid_n),
     World (requests_sent w1)
           (stdout w1
            ++ [Line (banner "part of speech filtering" (or_default n 3)
                             (or_default number 5))])
           (_body w1)).
Proof.
  intros H Htexts Htags Hn2 Hn3. unfold main, bindU at 1. rewrite H.
  cbn [String.eqb Ascii.eqb Bool.eqb].
  unfold bindU at 1, printU at 1. unfold bindU, on_content.
  rewrite Htexts. unfold pos_based_topics, bind.
  destruct (get_n_grams_total pos_tag lemmatize content (or_default n 3) Htags)
    as [grams ->].
  unfold pos_scores.
  apply Z.eqb_neq in Hn2, Hn3. rewrite Hn2, Hn3. reflexivity.
Qed.

End CommandLine.

Lemma main_prints_at_most_number_witness :
  exists out line topics count,
    [Line (banner "part of speech filtering" 2 5);
     PosTopics [("machine learning", 4%Z); ("learning is", 1%Z);
                ("is study", 1%Z); ("study of", 1%Z); ("of computer", 1%Z)]]
    = stdout Page.start ++ out ++ [Line line; topics]
    /\ topics_count topics = Some count
    /\ (count <= Z.to_nat (or_default None 5))%nat
    /\ 3%nat = (3 + requests_sent Page.start)%nat.
Proof.
  apply (main_prints_at_most_number Example.pos_tag Example.lemmatize
           Page.get (fun _ => Page.soup) (Some 2%Z) (Some "pos") None
           Page.start
           (World 3
              [Line (banner "part of speech filtering" 2 5);
               PosTopics [("machine learning", 4%Z); ("learning is", 1%Z);
                          ("is study", 1%Z); ("study of", 1%Z);
                          ("of computer", 1%Z)]]
              (Some (Bs4.decompose ["script"; "style"] Page.body)))
           tt).
  vm_compute. reflexivity.
Defined.

Lemma main_pos_refuses_late_witness :
  main Example.pos_tag Example.lemmatize Page.get (fun _ => Page.soup)
       (Some 4%Z) (Some "pos") None Page.start
  = (Fail (Builtin invalid_n),
     World 3 [Line (banner "part of speech filtering" 4 5)]
           (Some (Bs4.decompose ["script"; "style"] Page.body))).
Proof.
  apply (main_pos_refuses_late Example.pos_tag Example.lemmatize
           Page.get (fun _ => Page.soup) (Some 4%Z) None Page.start
           (World 3 [] (Some (Bs4.decompose ["script"; "style"] Page.body)))
           [Bs4.AttrStr "Machine learning is the study of computer algorithms.";
            Bs4.AttrStr "Notes on machine learning";
            Bs4.AttrStr "Machine learning"]
           ["Machine learning is the study of computer algorithms.";
            "Notes on machine learning"; "Machine learning"]).
  - vm_compute. reflexivity.
  - reflexivity.
  - apply example_tags_content.
  - discriminate.
  - discriminate.
Defined.

(** * The PMI arithmetic in floating point *)





